(** * nonebot-plugin-bili2mp4: link resolution and constrained rendition selection

    A shallow embedding of [nonebot_plugin_bili2mp4/main.py] and the
    properties of its identifier codec, link normaliser, link extractor,
    rendition selector, post-fetch validator and path remapping.

    Conventions of the embedding.
    - A Python [str] is a [string]; the models of [strip], [lower], [int]
      and of the regular expressions are exact on ASCII text.
    - A Python [int] is a [Z]; [//] and [%] are [Z.div] and [Z.modulo]
      (both round towards minus infinity for a positive divisor), [^] is
      [Z.lxor]. The interpreter's configurable cap on the length of a
      decimal string given to [int] is not modelled.
    - A call that may raise returns an [option] (or a sum): [None] is the
      raised exception, and every [try]/[except] of the source is written
      out as the match that handles it.
    - An ordered [dict] is an association list in iteration order. *)

From Stdlib Require Import ZArith QArith String Ascii List Lia Bool.
From Stdlib Require Import Sorting.Sorted Sorting.Permutation.
From stdpp Require Import base option list strings gmap pretty sorting.

Local Open Scope Z_scope.
#[local] Set Warnings "-clear-no-such-hyp,-register-all".

(** ** Python primitives used by the source *)

(** [str.isspace] on ASCII: TAB, LF, VT, FF, CR, FS, GS, RS, US, SPACE. *)
Definition py_isspace (c : ascii) : bool :=
  let n := nat_of_ascii c in
  ((9 <=? n)%nat && (n <=? 13)%nat) || ((28 <=? n)%nat && (n <=? 32)%nat).

(** [\d] and [str.isdigit] on ASCII. *)
Definition py_isdigit (c : ascii) : bool :=
  let n := nat_of_ascii c in (48 <=? n)%nat && (n <=? 57)%nat.

Fixpoint lstrip_while (p : ascii -> bool) (l : list ascii) : list ascii :=
  match l with
  | [] => []
  | c :: l' => if p c then lstrip_while p l' else l
  end.

Definition rstrip_while (p : ascii -> bool) (l : list ascii) : list ascii :=
  rev (lstrip_while p (rev l)).

(** [s.strip()] *)
Definition py_strip (s : string) : string :=
  string_of_list_ascii
    (rstrip_while py_isspace (lstrip_while py_isspace (list_ascii_of_string s))).

(** [s.rstrip(c)] for a one-character argument. *)
Definition py_rstrip_char (c : ascii) (s : string) : string :=
  string_of_list_ascii
    (rstrip_while (fun d => bool_decide (d = c)) (list_ascii_of_string s)).

Definition py_lower_char (c : ascii) : ascii :=
  let n := nat_of_ascii c in
  if (65 <=? n)%nat && (n <=? 90)%nat then ascii_of_nat (n + 32) else c.

(** [s.lower()] *)
Definition py_lower (s : string) : string :=
  string_of_list_ascii (map py_lower_char (list_ascii_of_string s)).

(** [s.startswith(p)] *)
Definition py_startswith (p s : string) : bool := String.prefix p s.

(** [s[n:]] for [0 <= n]. *)
Definition py_slice_from (n : nat) (s : string) : string :=
  string_of_list_ascii (drop n (list_ascii_of_string s)).

(** [s.replace(a, b)] for one-character [a] and [b]. *)
Definition py_replace_char (a b : ascii) (s : string) : string :=
  string_of_list_ascii
    (map (fun c => if bool_decide (c = a) then b else c) (list_ascii_of_string s)).

(** Truth value of a [str]: the empty string is falsy. *)
Definition py_truthy_str (s : string) : bool :=
  match s with EmptyString => false | _ => true end.

(** Truth value of an [int]. *)
Definition py_truthy_int (n : Z) : bool := negb (n =? 0).

(** Position denoted by the subscript [k] of a sequence of length [n]:
    a negative subscript counts from the end, anything outside
    [-n <= k < n] raises [IndexError]. *)
Definition py_index (n : nat) (k : Z) : option nat :=
  if (0 <=? k) && (k <? Z.of_nat n) then Some (Z.to_nat k)
  else if (- Z.of_nat n <=? k) && (k <? 0) then Some (Z.to_nat (k + Z.of_nat n))
  else None.

(** [seq[k]] *)
Definition py_getitem {A} (l : list A) (k : Z) : option A :=
  i ← py_index (length l) k; l !! i.

(** [seq[k] = x] *)
Definition py_setitem {A} (l : list A) (k : Z) (x : A) : option (list A) :=
  i ← py_index (length l) k; Some (<[i:=x]> l).

Definition digit_value (c : ascii) : Z := Z.of_nat (nat_of_ascii c) - 48.

(** [int(ds)] for a string [ds] of decimal digits (what [\d+] captured). *)
Definition py_int_digits (ds : string) : Z :=
  fold_left (fun acc c => 10 * acc + digit_value c) (list_ascii_of_string ds) 0.

(** Digits with single underscores between them, as [int] accepts. *)
Fixpoint py_int_body (l : list ascii) (acc : Z) (after_digit : bool) : option Z :=
  match l with
  | [] => if after_digit then Some acc else None
  | c :: l' =>
      if py_isdigit c then py_int_body l' (10 * acc + digit_value c) true
      else if bool_decide (c = "_"%char) && after_digit then py_int_body l' acc false
      else None
  end.

(** [int(s)] for a [str]: optional surrounding white space, an optional
    sign, decimal digits; [None] is [ValueError]. *)
Definition py_int (s : string) : option Z :=
  match list_ascii_of_string (py_strip s) with
  | "-"%char :: l => Z.opp <$> py_int_body l 0 false
  | "+"%char :: l => py_int_body l 0 false
  | l => py_int_body l 0 false
  end.

(** [s.split(c)] for a one-character separator: the pieces between the
    separators, empty pieces included. *)
Fixpoint py_split_char (c : ascii) (s : string) : list string :=
  match s with
  | EmptyString => [EmptyString]
  | String a s' =>
      if bool_decide (a = c) then EmptyString :: py_split_char c s'
      else
        match py_split_char c s' with
        | piece :: pieces => String a piece :: pieces
        | [] => [String a EmptyString]
        end
  end.

(** ** Identifier codec: [_bili_av_to_bv] *)

Definition table : string :=
  "fZodR9XQDSUm21yCkr6zBqiveYah8bt4xsWpHnJE7jL5VG3guMTKNPAwcF".

Definition table_chars : list ascii := list_ascii_of_string table.

Definition s : list Z := [11; 10; 3; 8; 4; 6].

Definition xor : Z := 177451812.

Definition add : Z := 8728348608.

Definition bv_template : string := "BV1  4 1 7  ".

(** [x // 58**i % 58] *)
Definition bv_digit (x i : Z) : Z := (x / 58 ^ i) mod 58.

(** The body of [for i in range(6): r[s[i]] = table[x // 58**i % 58]],
    over the remaining values of [i]. *)
Fixpoint bv_fill (x : Z) (idx : list Z) (r : list ascii) : option (list ascii) :=
  match idx with
  | [] => Some r
  | i :: idx' =>
      si ← py_getitem s i;
      c ← py_getitem table_chars (bv_digit x i);
      r' ← py_setitem r si c;
      bv_fill x idx' r'
  end.

(** [_bili_av_to_bv(aid)]; [None] is the [except Exception: return None]. *)
Definition bili_av_to_bv (aid : Z) : option string :=
  let x := Z.lxor aid xor + add in
  r ← bv_fill x (seqZ 0 6) (list_ascii_of_string bv_template);
  Some (string_of_list_ascii r).

(** ** Link normaliser: [_normalize_bili_url] *)

Definition is_letter (lower : ascii) (c : ascii) : bool :=
  bool_decide (py_lower_char c = lower).

(** [re.fullmatch(r"(?i)av(\d+)", u)]: the captured digits. *)
Definition fullmatch_av (u : string) : option string :=
  match u with
  | String a (String v ds) =>
      if is_letter "a" a && is_letter "v" v && py_truthy_str ds
         && forallb py_isdigit (list_ascii_of_string ds)
      then Some ds else None
  | _ => None
  end.

Definition video_url (bv : string) : string :=
  "https://www.bilibili.com/video/" +:+ bv.

(** The bare legacy form [av<digits>] as the specification words it: the
    two letters in either case, then one or more decimal digits, nothing
    else. [bare_legacy_id raw ds] also names the digits. *)
Definition decimal_digits : list ascii := list_ascii_of_string "0123456789".

Inductive bare_legacy_id : string -> string -> Prop :=
| BareLegacy (a v : ascii) (ds : string) :
    a ∈ ["a"; "A"]%char ->
    v ∈ ["v"; "V"]%char ->
    ds <> EmptyString ->
    Forall (fun c => c ∈ decimal_digits) (list_ascii_of_string ds) ->
    bare_legacy_id (String a (String v ds)) ds.

Section Normalizer.

(** [_expand_short_url] performs network requests and
    [_extract_aid_from_url] relies on [urllib.parse]; the normaliser is
    modelled over both. *)
Variable expand_short_url : string -> string.
Variable extract_aid_from_url : string -> option Z.

Definition normalize_bili_url (raw : string) : string :=
  let u := py_strip raw in
  match fullmatch_av u with
  | Some ds =>
      let aid := py_int_digits ds in
      match bili_av_to_bv aid with
      | Some bv => if py_truthy_str bv then video_url bv else raw
      | None => raw
      end
  | None =>
      if negb (py_startswith "http://" (py_lower u)
               || py_startswith "https://" (py_lower u))
      then raw
      else
        let u2 := expand_short_url u in
        match extract_aid_from_url u2 with
        | Some aid =>
            match bili_av_to_bv aid with
            | Some bv => if py_truthy_str bv then video_url bv else u2
            | None => u2
            end
        | None => u2
        end
  end.

End Normalizer.

(** ** Link extractor: [_find_urls_in_text], [_walk_strings],
       [_extract_bili_urls_from_event] *)

(** The Python values a segment's [data] dict may hold and [json.loads]
    may return. *)
Inductive pyval :=
| PNone
| PBool (b : bool)
| PNum (n : Z)
| PStr (s : string)
| PList (items : list pyval)
| PDict (entries : list (string * pyval)).

(** Truth value, as [or] and [if] test it. *)
Definition py_truthy (v : pyval) : bool :=
  match v with
  | PNone => false
  | PBool b => b
  | PNum n => py_truthy_int n
  | PStr s => py_truthy_str s
  | PList items => match items with [] => false | _ => true end
  | PDict entries => match entries with [] => false | _ => true end
  end.

(** [a or b] *)
Definition py_or (a b : pyval) : pyval := if py_truthy a then a else b.

(** [d.get(k, dflt)] on a dict given by its items. *)
Fixpoint dict_get {A} (k : string) (d : list (string * A)) (dflt : A) : A :=
  match d with
  | [] => dflt
  | (k', v) :: d' => if bool_decide (k' = k) then v else dict_get k d' dflt
  end.

(** [_walk_strings(obj)]: the string leaves, dict values and list items in
    order. *)
Fixpoint walk_strings (obj : pyval) : list string :=
  match obj with
  | PDict entries => flat_map (fun kv => walk_strings kv.2) entries
  | PList items => flat_map walk_strings items
  | PStr s => [s]
  | _ => []
  end.

(** [if u not in urls: urls.append(u)] *)
Definition add_new (urls : list string) (u : string) : list string :=
  if bool_decide (u ∈ urls) then urls else urls ++ [u].

(** [for u in us: if u not in urls: urls.append(u)] *)
Definition add_all (urls us : list string) : list string := foldl add_new urls us.

(** A message segment and the event carrying the message;
    [plaintext] is [event.get_plaintext()], [None] when it raises. *)
Record segment := Segment {
  seg_type : string;
  seg_data : list (string * pyval);
}.

Record event := Event {
  message : list segment;
  plaintext : option string;
}.

Definition forwarded_keys : list string :=
  ["url"; "qqdocurl"; "jumpUrl"; "webpageUrl"]%string.

Section Extractor.

(** The library calls of the extractor:
    - [findall_bili s] is [BILI_URL_RE.findall(s)];
    - [urlparse_query s] is [urlparse(s).query], [None] when [urlparse]
      raises;
    - [parse_qs q] is the dict [parse_qs(q)] by its items, [unquote] is
      [urllib.parse.unquote];
    - [json_loads s] is [json.loads(s)], [None] when it raises;
    - [seg_str seg] is [str(seg)];
    - [findall_av s] lists the digits captured by the bare [av<digits>]
      pattern (case-insensitive, between word boundaries), and
      [findall_av_url s] those captured by the [http(s)://.../video/av<digits>]
      pattern, both by [re.findall]. *)
Variable findall_bili : string -> list string.
Variable urlparse_query : string -> option string.
Variable parse_qs : string -> list (string * list string).
Variable unquote : string -> string.
Variable json_loads : string -> option pyval.
Variable seg_str : segment -> string.
Variable findall_av : string -> list string.
Variable findall_av_url : string -> list string.

(** The [try] block of [_find_urls_in_text]: links forwarded in the query
    string of [text]. *)
Definition forwarded_urls (text : string) (urls : list string) : list string :=
  match urlparse_query text with
  | None => urls                                       (* [except Exception: pass] *)
  | Some query =>
      if py_truthy_str query then
        let qs := parse_qs query in
        foldl (fun urls key =>
                 foldl (fun urls v => add_all urls (findall_bili (unquote v)))
                       urls (dict_get key qs []))
              urls forwarded_keys
      else urls
  end.

(** [_find_urls_in_text(text)]. The pattern is applied to [text], or to
    the empty string when [text] is falsy, outside the [try]: a truthy
    value that is not a [str] raises [TypeError], which is [None] here. *)
Definition find_urls_in_text (text : pyval) : option (list string) :=
  match py_or text (PStr EmptyString) with
  | PStr s0 =>
      let urls := add_all [] (findall_bili s0) in
      match text with
      | PStr s => Some (forwarded_urls s urls)
      | _ => Some urls
      end
  | _ => None
  end.

(** The [try] block of the JSON-card branch. *)
Definition json_leaf_urls (raw : pyval) (urls : list string) : list string :=
  match raw with
  | PStr r =>
      match json_loads r with
      | Some obj =>
          foldl (fun urls s =>
                   match find_urls_in_text (PStr s) with
                   | Some us => add_all urls us
                   | None => urls
                   end)
                urls (walk_strings obj)
      | None => urls                                   (* [except Exception: pass] *)
      end
  | _ => urls
  end.

(** The value a segment hands to [_find_urls_in_text]. *)
Definition segment_payload (seg : segment) : pyval :=
  if bool_decide (seg_type seg = "text"%string) then
    dict_get "text" (seg_data seg) (PStr EmptyString)
  else if bool_decide (seg_type seg = "json"%string)
          || bool_decide (seg_type seg = "xml"%string) then
    py_or (py_or (dict_get "data" (seg_data seg) PNone)
                 (dict_get "content" (seg_data seg) PNone))
          (PStr EmptyString)
  else if bool_decide (seg_type seg = "share"%string) then
    py_or (dict_get "url" (seg_data seg) PNone) (PStr EmptyString)
  else PStr (seg_str seg).

(** One iteration of [for seg in event.message]; [None] when an exception
    leaves the iteration, before anything was appended. *)
Definition scan_segment (seg : segment) (urls : list string) : option (list string) :=
  us ← find_urls_in_text (segment_payload seg);
  let urls := add_all urls us in
  if bool_decide (seg_type seg = "json"%string)
  then Some (json_leaf_urls (segment_payload seg) urls)
  else Some urls.

(** The loop over the segments: the list collected and whether the loop
    ran to its end. *)
Fixpoint scan_segments (segs : list segment) (urls : list string) : list string * bool :=
  match segs with
  | [] => (urls, true)
  | seg :: rest =>
      match scan_segment seg urls with
      | Some urls' => scan_segments rest urls'
      | None => (urls, false)
      end
  end.

(** The scan of the plain-text rendering for the two legacy forms. *)
Definition scan_legacy_ids (full_text : string) (urls : list string) : list string :=
  let urls := foldl (fun urls m => add_new urls ("av" +:+ m)) urls (findall_av full_text) in
  foldl (fun urls m => add_new urls ("https://www.bilibili.com/video/av" +:+ m +:+ "/"))
        urls (findall_av_url full_text).

(** [_extract_bili_urls_from_event(event)]; an exception that leaves the
    segment loop reaches the outer [except], which returns what was
    collected. *)
Definition extract_bili_urls_from_event (ev : event) : list string :=
  match scan_segments (message ev) [] with
  | (urls, true) => scan_legacy_ids (default EmptyString (plaintext ev)) urls
  | (urls, false) => urls
  end.

(** The candidates collectable from one segment on its own. *)
Definition segment_candidates (seg : segment) : list string :=
  default [] (scan_segment seg []).

End Extractor.

(** [F] only appends to the list it is given, and what it appends does
    not depend on that list. *)
Definition extending (F : list string -> list string) : Prop :=
  forall urls u, u ∈ F urls <-> u ∈ urls \/ u ∈ F [].

(** A payload is textual when it is a [str] or a falsy value. *)
Definition textual (v : pyval) : bool :=
  match v with
  | PStr _ => true
  | _ => negb (py_truthy v)
  end.

(** ** Rendition selector: [_download_with_ytdlp] *)

(** The keys of a yt-dlp format dict that the selector reads; [None] is a
    missing key or a [null] value. Heights and sizes are integers (what
    [int] makes of a size estimate), the bitrate [tbr] is a rational. *)
Record format := Format {
  format_id : string;
  vcodec : option string;
  height : option Z;
  tbr : option Q;
  filesize_approx : option Z;
  filesize : option Z;
}.

(** The result of [extract_info(final_url, download=False)]. *)
Record info_dict := InfoDict {
  info_title : option string;
  info_formats : option (list format);
}.

(** What [stat] and [unlink] will do on a file the engine has written:
    [st_size] is [None] when [stat] raises, [unlink_raises] tells whether
    the operating system refuses the deletion. *)
Record file_attr := FileAttr {
  st_size : option Z;
  unlink_raises : bool;
}.

(** Outcome of one [extract_info(final_url, download=True)] followed by
    [_locate_final_file], for the requested format id. *)
Inductive download_outcome :=
| DlRaises (detail : string)
    (* the retrieval engine raised; [detail] is [str(e)] *)
| DlMissing
    (* no final path was located, or the located path does not exist *)
| DlFile (path : string) (attr : file_attr).
    (* the final media file was written at [path] *)

(** The part of the world the selector acts on: the media files on disk,
    and the log of the renditions whose retrieval was requested (oldest
    first). *)
Record world := World {
  disk : gset string;
  attempts : list format;
}.

Inductive select_result :=
| Selected (path title : string)     (* [return final_path, title] *)
| RuntimeError (detail : string)     (* [raise RuntimeError(detail)] *)
| ImportError (detail : string).     (* [raise ImportError(detail)] *)

Definition default_title : string := "B站视频".
Definition err_query_failed : string := "获取视频格式信息失败: ".
Definition err_file_missing : string := "下载后未找到文件".
Definition err_file_too_large : string := "文件超过大小限制".
Definition err_no_candidate : string :=
  "无法下载该视频（所有候选格式均不满足条件或下载失败）".

(** [f.get("vcodec") != "none"] *)
Definition has_video (f : format) : bool :=
  negb (bool_decide (vcodec f = Some "none"%string)).

(** [(f.get("height") or 0, f.get("tbr") or 0)] *)
Definition sort_key (f : format) : Z * Q :=
  (default 0 (height f), default 0%Q (tbr f)).

(** Python's [<] on the key tuples. *)
Definition key_ltb (k1 k2 : Z * Q) : bool :=
  (k1.1 <? k2.1) || ((k1.1 =? k2.1) && negb (Qle_bool k2.2 k1.2)).

(** [formats.sort(key=..., reverse=True)]: the stable descending sort.
    [insert_desc f l] puts [f], which preceded every element of [l] in the
    input, in front of the first element whose key is not larger. *)
Fixpoint insert_desc (f : format) (l : list format) : list format :=
  match l with
  | [] => [f]
  | g :: l' =>
      if key_ltb (sort_key f) (sort_key g) then g :: insert_desc f l' else f :: l
  end.

Definition sort_desc (l : list format) : list format := foldr insert_desc [] l.

(** The ranked candidate list built from the no-download query. *)
Definition candidates (formats : list format) : list format :=
  sort_desc (List.filter has_video formats).

(** [h = fmt.get("height") or 0] and
    [height_limit and h and h > height_limit] *)
Definition over_height (height_limit : Z) (fmt : format) : bool :=
  let h := default 0 (height fmt) in
  py_truthy_int height_limit && py_truthy_int h && (height_limit <? h).

Definition truthy_size (v : option Z) : option Z :=
  match v with
  | Some n => if py_truthy_int n then Some n else None
  | None => None
  end.

(** [filesize_bytes]: [filesize_approx] when truthy, else [filesize] when
    truthy, else [None]. *)
Definition size_estimate (fmt : format) : option Z :=
  match truthy_size (filesize_approx fmt) with
  | Some n => Some n
  | None => truthy_size (filesize fmt)
  end.

(** [bytes / (1024 * 1024) > limit_mb]. The division by [2^20] is exact in
    binary floating point for every size below [2^53] bytes, so the test
    is the integer comparison. *)
Definition exceeds_mb (bytes limit_mb : Z) : bool :=
  limit_mb * (1024 * 1024) <? bytes.

(** [size_limit_mb and filesize_bytes is not None and size_mb_est > size_limit_mb] *)
Definition over_size_estimate (size_limit_mb : Z) (fmt : format) : bool :=
  py_truthy_int size_limit_mb &&
  match size_estimate fmt with
  | Some b => exceeds_mb b size_limit_mb
  | None => false
  end.

(** [Path(p).unlink(missing_ok=True)] inside [try]/[except]: the file is
    removed unless the deletion raises, which is only logged. *)
Definition unlink_logged (p : string) (a : file_attr) (d : gset string) : gset string :=
  if unlink_raises a then d else d ∖ {[p]}.

Section Selector.

(** The retrieval engine, by requested format id. *)
Variable engine : string -> download_outcome.
Variable title : string.
Variables height_limit size_limit_mb : Z.

(** The loop [for fmt in formats] with its final [raise]. *)
Fixpoint select_loop (formats : list format) (last_err : option string) (w : world)
  : select_result * world :=
  match formats with
  | [] =>
      match last_err with
      | Some e => (RuntimeError e, w)
      | None => (RuntimeError err_no_candidate, w)
      end
  | fmt :: rest =>
      if over_height height_limit fmt then select_loop rest last_err w
      else if over_size_estimate size_limit_mb fmt then select_loop rest last_err w
      else
        let w1 := World (disk w) (attempts w ++ [fmt]) in
        match engine (format_id fmt) with
        | DlRaises e => select_loop rest (Some e) w1
        | DlMissing => select_loop rest (Some err_file_missing) w1
        | DlFile p a =>
            let w2 := World (disk w1 ∪ {[p]}) (attempts w1) in
            if py_truthy_int size_limit_mb then
              match st_size a with
              | Some sz =>
                  if exceeds_mb sz size_limit_mb then
                    let w3 := World (unlink_logged p a (disk w2)) (attempts w2) in
                    select_loop rest (Some err_file_too_large) w3
                  else (Selected p title, w2)
              | None => (Selected p title, w2)
              end
            else (Selected p title, w2)
        end
  end.

End Selector.

(** [info.get("title") or "B站视频"] *)
Definition video_title (info : info_dict) : string :=
  match info_title info with
  | Some t => if py_truthy_str t then t else default_title
  | None => default_title
  end.

(** [_download_with_ytdlp(url, cookie, out_dir, height_limit, size_limit_mb)].
    [installed] tells whether [yt_dlp] can be imported; [query] is the
    no-download [extract_info], [inl e] when it raises [e]. *)
Definition download_with_ytdlp
    (installed : bool) (query : string + info_dict)
    (engine : string -> download_outcome)
    (height_limit size_limit_mb : Z) (d : gset string)
  : select_result * world :=
  if negb installed then (ImportError "yt_dlp not installed", World d [])
  else
    match query with
    | inl e => (RuntimeError (err_query_failed +:+ e), World d [])
    | inr info =>
        let title := video_title info in
        let formats := candidates (default [] (info_formats info)) in
        select_loop engine title height_limit size_limit_mb formats None (World d [])
    end.

(** *** Vocabulary for the selector's properties *)





Section SelectorVocabulary.

Variable engine : string -> download_outcome.
Variables height_limit size_limit_mb : Z.

(** Both pre-checks let the rendition through. *)
Definition prechecked (f : format) : bool :=
  negb (over_height height_limit f) && negb (over_size_estimate size_limit_mb f).

(** The post-check rejects a materialised file. *)
Definition oversized (a : file_attr) : bool :=
  py_truthy_int size_limit_mb &&
  match st_size a with
  | Some sz => exceeds_mb sz size_limit_mb
  | None => false
  end.

(** [fits f = Some p]: rendition [f] passes the pre-checks, its retrieval
    materialises the file [p], and [p] passes the post-check. *)
Definition fits (f : format) : option string :=
  if prechecked f then
    match engine (format_id f) with
    | DlFile p a => if oversized a then None else Some p
    | _ => None
    end
  else None.

(** The failure recorded for a rendition that does not fit: none for a
    rendition skipped by a pre-check. *)
Definition recorded_failure (f : format) : option string :=
  if prechecked f then
    match engine (format_id f) with
    | DlRaises e => Some e
    | DlMissing => Some err_file_missing
    | DlFile p a => if oversized a then Some err_file_too_large else None
    end
  else None.

(** The disk after the iteration for a rendition that does not fit. *)
Definition disk_after_failure (f : format) (d : gset string) : gset string :=
  if prechecked f then
    match engine (format_id f) with
    | DlFile p a => unlink_logged p a (d ∪ {[p]})
    | _ => d
    end
  else d.

(** The failures recorded over a run of renditions, oldest first. *)
Definition recorded_failures (l : list format) : list string :=
  omap recorded_failure l.

(** The latest failure recorded over [l], or the earlier [last_err] when
    [l] records none. *)
Definition last_failure (l : list format) (last_err : option string) : option string :=
  match last (recorded_failures l) with
  | Some e => Some e
  | None => last_err
  end.

(** The disk after the iterations for a run of renditions none of which
    fits. *)
Definition disk_after_failures (l : list format) (d : gset string) : gset string :=
  foldl (fun d f => disk_after_failure f d) d l.

End SelectorVocabulary.

(** ** Post-fetch validator: [_check_video_file] *)

(** Outcome of [subprocess.run([ffprobe, ...], capture_output=True,
    text=True)]. *)
Inductive probe_outcome :=
| ProbeRaises
    (* [subprocess.run] raised: the tool could not be started, or its
       output could not be decoded *)
| ProbeExit (returncode : Z) (stdout : string).

Section Validator.

Variable probe : string -> probe_outcome.
(** [locked p]: the operating system refuses to delete [p]. *)
Variable locked : string -> bool.
Variable max_height : Z.

(** [_check_video_file(path)] on the disk [d]: the verdict and the disk
    afterwards. *)
Definition check_video_file (path : string) (d : gset string) : bool * gset string :=
  if negb (bool_decide (path ∈ d)) then (false, d)
  else
    match probe path with
    | ProbeRaises => (false, d)                    (* [except Exception] *)
    | ProbeExit returncode stdout =>
        if returncode =? 0 then
          match py_split_char "," (py_strip stdout) with
          | [width; height] =>
              if py_truthy_int max_height then
                match py_int height with
                | Some h =>
                    if max_height <? h then
                      if locked path then (false, d)   (* [unlink] raised: [except Exception] *)
                      else (false, d ∖ {[path]})
                    else (true, d)
                | None => (true, d)                  (* [except ValueError: pass] *)
                end
              else (true, d)
          | _ => (true, d)                           (* [except ValueError: pass] *)
          end
        else (true, d)
    end.

End Validator.

(** The actual height read from the tool's output, when it has the form
    [<width>,<height>] with a parseable height. *)
Definition probed_height (stdout : string) : option Z :=
  match py_split_char "," (py_strip stdout) with
  | [width; height] => py_int height
  | _ => None
  end.

(** ** Path remapping in [_send_video_with_timeout] *)

Section Remap.

(** [str(Path(x).resolve())]; [None] when it raises. *)
Variable resolve : string -> option string.

(** The virtual path built from the entry [(virt, real_p)] for the
    resolved file path. *)
Definition remapped (virt real_p p_resolved : string) : string :=
  let rel := py_replace_char "\" "/" (py_slice_from (String.length real_p) p_resolved) in
  let rel := if py_startswith "/" rel then rel else "/" +:+ rel in
  py_rstrip_char "/" virt +:+ rel.

(** The loop [for virt, real in path_mappings.items()], over the entries
    in iteration order: the entry at which it breaks and the send path
    built there, [None] when it runs to its end. *)
Fixpoint remap_loop (mappings : list (string * string)) (path : string)
  : option ((string * string) * string) :=
  match mappings with
  | [] => None
  | (virt, real) :: rest =>
      match resolve real with
      | None => remap_loop rest path                 (* [except: continue] *)
      | Some real_p =>
          match resolve path with
          | None => remap_loop rest path             (* [except: continue] *)
          | Some p_resolved =>
              if py_startswith real_p p_resolved
              then Some ((virt, real), remapped virt real_p p_resolved)
              else remap_loop rest path
          end
      end
  end.

(** [send_path] as handed to the transport; [path] is [str(path_obj)]. *)
Definition send_path (mappings : list (string * string)) (path : string) : string :=
  match remap_loop mappings path with
  | Some (_, sp) => sp
  | None => path
  end.

(** The resolved real prefix of an entry matches the resolved file path. *)
Definition entry_matches (path : string) (e : string * string) : bool :=
  match resolve e.2, resolve path with
  | Some real_p, Some p_resolved => py_startswith real_p p_resolved
  | _, _ => false
  end.

(** Length of the resolved real prefix of an entry. *)
Definition prefix_length (e : string * string) : nat :=
  match resolve e.2 with
  | Some real_p => String.length real_p
  | None => 0
  end.

End Remap.

(** *** Sample renditions *)

Definition rendition (id : string) (h : Z) (kbps : Q) (approx : option Z) : format :=
  Format id (Some "avc1"%string) (Some h) (Some kbps) approx None.

Definition audio_only (id : string) (kbps : Q) : format :=
  Format id (Some "none"%string) None (Some kbps) None None.

Definition r360 : format := rendition "16" 360 (400 # 1) None.
Definition r720 : format := rendition "64" 720 (1500 # 1) None.
Definition r1080 : format := rendition "80" 1080 (3000 # 1) None.
Definition a30280 : format := audio_only "30280" (192 # 1).

Definition MiB : Z := 1024 * 1024.

(** An engine that writes every rendition to the same output file;
    [locked] makes the operating system refuse its deletion. *)
Definition sample_path : string := "/data/downloads/clip [BV17x411w7KC].mp4".

Definition sample_engine (locked : bool) (id : string) : download_outcome :=
  if bool_decide (id = "80"%string) then DlFile sample_path (FileAttr (Some (30 * MiB)) locked)
  else if bool_decide (id = "64"%string) then DlFile sample_path (FileAttr (Some (12 * MiB)) locked)
  else if bool_decide (id = "16"%string) then DlFile sample_path (FileAttr (Some (4 * MiB)) locked)
  else DlRaises "Requested format is not available".


Definition sample_info : info_dict :=
  InfoDict (Some "clip"%string) (Some [r360; a30280; r1080; r720]).

(** *** The extractor's library calls on ASCII text

    Executable instances of the extractor's parameters, used by the
    examples: the three patterns as backtracking-free matchers (each
    greedy class is followed by a character outside it, so only the
    maximal run can match), a query-string decoder that never raises, and
    a JSON decoder that knows the card of the examples. *)

Definition py_isalnum (c : ascii) : bool :=
  let n := nat_of_ascii c in
  py_isdigit c || ((65 <=? n)%nat && (n <=? 90)%nat) || ((97 <=? n)%nat && (n <=? 122)%nat).

(** The classes of the patterns: word characters, host-label characters
    (word characters and the hyphen), and link characters (anything but
    white space, quotes and angle brackets). *)
Definition is_word_char (c : ascii) : bool := py_isalnum c || bool_decide (c = "_"%char).
Definition is_host_char (c : ascii) : bool := is_word_char c || bool_decide (c = "-"%char).
Definition is_url_char (c : ascii) : bool :=
  negb (py_isspace c || bool_decide (c ∈ ["034"; "'"; "<"; ">"]%char)).

(** The rest of [l] after the literal [lit] (given in lower case),
    matched without regard to case. *)
Fixpoint skip_literal (lit l : list ascii) : option (list ascii) :=
  match lit, l with
  | [], _ => Some l
  | c :: lit', d :: l' =>
      if bool_decide (py_lower_char d = c) then skip_literal lit' l' else None
  | _ :: _, [] => None
  end.

Definition skip_string (lit : string) (l : list ascii) : option (list ascii) :=
  skip_literal (list_ascii_of_string lit) l.

(** The maximal run of characters satisfying [p], and what follows it. *)
Fixpoint span (p : ascii -> bool) (l : list ascii) : list ascii * list ascii :=
  match l with
  | [] => ([], [])
  | c :: l' => if p c then let '(run, rest) := span p l' in (c :: run, rest) else ([], l)
  end.

(** One of the two platform domains, a slash, and one or more link
    characters. *)
Definition match_domain_path (l : list ascii) : option (list ascii) :=
  r ← (match skip_string "bilibili.com" l with
       | Some r => Some r
       | None => skip_string "b23.tv" l
       end);
  r ← skip_string "/" r;
  match span is_url_char r with
  | ([], _) => None
  | (_, rest) => Some rest
  end.

(** [BILI_URL_RE] at the head of [l]: what follows the match. *)
Definition match_bili_url (l : list ascii) : option (list ascii) :=
  r ← skip_string "http" l;
  let r := default r (skip_string "s" r) in
  r ← skip_string "://" r;
  let with_label :=
    match span is_host_char r with
    | ([], _) => None
    | (_, rest) => rest' ← skip_string "." rest; match_domain_path rest'
    end in
  match with_label with
  | Some rest => Some rest
  | None => match_domain_path r
  end.

(** [findall] for a pattern whose group is the whole, non-empty match:
    scan from the left and resume after each match; [skip] counts the
    characters of the last match still to pass. *)
Fixpoint findall_from (matcher : list ascii -> option (list ascii))
    (l : list ascii) (skip : nat) : list string :=
  match l with
  | [] => []
  | c :: l' =>
      match skip with
      | S n => findall_from matcher l' n
      | O =>
          match matcher l with
          | Some rest =>
              let n := (length l - length rest)%nat in
              string_of_list_ascii (take n l) :: findall_from matcher l' (n - 1)
          | None => findall_from matcher l' 0
          end
      end
  end.

Definition ascii_findall_bili (text : string) : list string :=
  findall_from match_bili_url (list_ascii_of_string text) 0.

(** [av(\d+)\b] at the head of [l]: the digits and what follows. *)
Definition match_av (l : list ascii) : option (list ascii * list ascii) :=
  r ← skip_string "av" l;
  match span py_isdigit r with
  | ([], _) => None
  | (ds, rest) =>
      match rest with
      | c :: _ => if is_word_char c then None else Some (ds, rest)
      | [] => Some (ds, rest)
      end
  end.

(** [findall] of the bare form; [after_word] tells whether the previous
    character is a word character (no [\b] here then). *)
Fixpoint findall_av_from (after_word : bool) (l : list ascii) (skip : nat) : list string :=
  match l with
  | [] => []
  | c :: l' =>
      match skip with
      | S n => findall_av_from (is_word_char c) l' n
      | O =>
          match (if after_word then None else match_av l) with
          | Some (ds, rest) =>
              string_of_list_ascii ds
                :: findall_av_from (is_word_char c) l' (length l - length rest - 1)
          | None => findall_av_from (is_word_char c) l' 0
          end
      end
  end.

Definition ascii_findall_av (text : string) : list string :=
  findall_av_from false (list_ascii_of_string text) 0.

(** The last place in [l] where [/video/av<digits>] starts: the digits and
    what follows them. *)
Fixpoint last_video_av (l : list ascii) : option (list ascii * list ascii) :=
  match l with
  | [] => None
  | c :: l' =>
      match last_video_av l' with
      | Some found => Some found
      | None =>
          r ← skip_string "/video/av" l;
          match span py_isdigit r with
          | ([], _) => None
          | (ds, rest) => Some (ds, rest)
          end
      end
  end.

(** The legacy URL pattern at the head of [l]: the digits and what
    follows the match. *)
Definition match_av_url (l : list ascii) : option (list ascii * list ascii) :=
  r ← skip_string "http" l;
  let r := default r (skip_string "s" r) in
  r ← skip_string "://" r;
  let '(run, after) := span is_url_char r in
  '(ds, rest) ← last_video_av run;
  Some (ds, rest ++ after).

Fixpoint findall_av_url_from (l : list ascii) (skip : nat) : list string :=
  match l with
  | [] => []
  | c :: l' =>
      match skip with
      | S n => findall_av_url_from l' n
      | O =>
          match match_av_url l with
          | Some (ds, rest) =>
              string_of_list_ascii ds
                :: findall_av_url_from l' (length l - length rest - 1)
          | None => findall_av_url_from l' 0
          end
      end
  end.

Definition ascii_findall_av_url (text : string) : list string :=
  findall_av_url_from (list_ascii_of_string text) 0.

Definition hex_value (c : ascii) : option nat :=
  let n := nat_of_ascii c in
  if py_isdigit c then Some (n - 48)%nat
  else if (65 <=? n)%nat && (n <=? 70)%nat then Some (n - 55)%nat
  else if (97 <=? n)%nat && (n <=? 102)%nat then Some (n - 87)%nat
  else None.

(** Percent-decoding of ASCII escapes. *)
Fixpoint percent_decode (l : list ascii) : list ascii :=
  match l with
  | "%"%char :: h :: (lo :: l') as l1 =>
      match hex_value h, hex_value lo with
      | Some a, Some b => ascii_of_nat (16 * a + b) :: percent_decode l'
      | _, _ => "%"%char :: percent_decode l1
      end
  | c :: l' => c :: percent_decode l'
  | [] => []
  end.

Definition ascii_unquote (v : string) : string :=
  string_of_list_ascii (percent_decode (list_ascii_of_string v)).

(** The query component: between the first [?] and the first [#]. *)
Definition ascii_urlparse_query (text : string) : option string :=
  let '(before_fragment, _) :=
    span (fun c => negb (bool_decide (c = "#"%char))) (list_ascii_of_string text) in
  match span (fun c => negb (bool_decide (c = "?"%char))) before_fragment with
  | (_, _ :: query) => Some (string_of_list_ascii query)
  | (_, []) => Some EmptyString
  end.

(** Appends [v] to the values of [k]. *)
Fixpoint qs_add (k v : string) (qs : list (string * list string)) : list (string * list string) :=
  match qs with
  | [] => [(k, [v])]
  | (k', vs) :: qs' =>
      if bool_decide (k' = k) then (k', vs ++ [v]) :: qs' else (k', vs) :: qs_add k v qs'
  end.

(** [parse_qs]: fields separated by [&], name and value by the first [=],
    blank values dropped, values percent-decoded with [+] as a space. *)
Definition ascii_parse_qs (query : string) : list (string * list string) :=
  foldl (fun qs field =>
           match span (fun c => negb (bool_decide (c = "="%char))) (list_ascii_of_string field) with
           | (name, _ :: value) =>
               match value with
               | [] => qs
               | _ =>
                   qs_add (string_of_list_ascii name)
                     (ascii_unquote (py_replace_char "+" " " (string_of_list_ascii value))) qs
               end
           | (_, []) => qs
           end)
        [] (py_split_char "&" query).

(** A card as a mini-program share carries it: the link sits in a JSON
    string with escaped slashes, which the raw-text pattern cannot see. *)
Definition quoted (s : string) : string :=
  String "034"%char s +:+ String "034"%char EmptyString.

Definition sample_card : string :=
  "{" +:+ quoted "meta" +:+ ":{" +:+ quoted "detail_1" +:+ ":{"
      +:+ quoted "title" +:+ ":" +:+ quoted "clip" +:+ ","
      +:+ quoted "qqdocurl" +:+ ":" +:+ quoted "https:\/\/b23.tv\/Ab12?share=1"
      +:+ "}}}".

Definition sample_card_value : pyval :=
  PDict [("meta"%string,
          PDict [("detail_1"%string,
                  PDict [("title"%string, PStr "clip");
                         ("qqdocurl"%string, PStr "https://b23.tv/Ab12?share=1")])])].

(** A JSON decoder for the examples: it decodes [sample_card] and raises
    on any other text. *)
Definition sample_json_loads (raw : string) : option pyval :=
  if bool_decide (raw = sample_card) then Some sample_card_value else None.

(** [str(seg)] for the examples: the CQ code without its parameters. *)
Definition sample_seg_str (seg : segment) : string :=
  "[CQ:" +:+ seg_type seg +:+ "]".

Definition sample_extract : event -> list string :=
  extract_bili_urls_from_event ascii_findall_bili ascii_urlparse_query ascii_parse_qs
    ascii_unquote sample_json_loads sample_seg_str ascii_findall_av ascii_findall_av_url.

Definition text_segment (s : string) : segment := Segment "text" [("text"%string, PStr s)].
Definition json_segment (v : pyval) : segment := Segment "json" [("data"%string, v)].

(** ** Further functions of [main.py]

    The URL helpers, the duration probe, the cookie file, the delivery
    of a file, the whole download-and-send pipeline, the administrator
    commands and the message handler, with the vocabulary of their
    properties. The network, the clock and the file system are
    parameters, as the library calls of the extractor are. *)

(** The number of identifiers the six base-58 digits tell apart. *)
Definition bv_modulus : Z := 58 ^ 6.

(** [string_leaf s v]: [s] is a string found in [v] itself, in an item of
    a list, or in a value (never a key) of a dict, at any depth. *)
Inductive string_leaf (s : string) : pyval -> Prop :=
| leaf_here : string_leaf s (PStr s)
| leaf_item (items : list pyval) (v : pyval) :
    v ∈ items -> string_leaf s v -> string_leaf s (PList items)
| leaf_value (entries : list (string * pyval)) (k : string) (v : pyval) :
    (k, v) ∈ entries -> string_leaf s v -> string_leaf s (PDict entries).

(** Two ways a step of the extractor may treat the list it is given:
    keeping it duplicate-free, and only adding at its end. *)
Definition keeps_nodup (F : list string -> list string) : Prop :=
  forall urls, NoDup urls -> NoDup (F urls).

Definition appending (F : list string -> list string) : Prop :=
  forall urls, urls `prefix_of` F urls.

(** ** URL helpers: [_extract_aid_from_url], [_extract_bvid_from_url],
       [_expand_short_url] *)

(** What the helpers read of [urlparse(url)]: the host name (the empty
    string when there is none), [path] and [query]. *)
Record parsed_url := ParsedUrl {
  url_hostname : string;
  url_path : string;
  url_query : string;
}.

(** [re.search(r"/video/av(\d+)", path, flags=re.IGNORECASE)]: the digits
    of the leftmost match. *)
Fixpoint search_video_av_from (l : list ascii) : option (list ascii) :=
  match l with
  | [] => None
  | c :: l' =>
      match (r ← skip_string "/video/av" l;
             match span py_isdigit r with
             | ([], _) => None
             | (ds, _) => Some ds
             end) with
      | Some ds => Some ds
      | None => search_video_av_from l'
      end
  end.

Definition search_video_av (path : string) : option string :=
  string_of_list_ascii <$> search_video_av_from (list_ascii_of_string path).

(** [re.search(r"(\d+)", v)]: the first run of digits. *)
Fixpoint search_digits_from (l : list ascii) : option (list ascii) :=
  match l with
  | [] => None
  | c :: l' => if py_isdigit c then Some (span py_isdigit l).1 else search_digits_from l'
  end.

Definition search_digits (v : string) : option string :=
  string_of_list_ascii <$> search_digits_from (list_ascii_of_string v).

(** The rest of [l] after the literal [lit], matched exactly. *)
Fixpoint skip_exact (lit l : list ascii) : option (list ascii) :=
  match lit, l with
  | [], _ => Some l
  | c :: lit', d :: l' => if bool_decide (d = c) then skip_exact lit' l' else None
  | _ :: _, [] => None
  end.

(** [re.search(r"/video/(BV[0-9A-Za-z]+)", path)]: the group of the
    leftmost match. *)
Fixpoint search_video_bv_from (l : list ascii) : option (list ascii) :=
  match l with
  | [] => None
  | c :: l' =>
      match (r ← skip_exact (list_ascii_of_string "/video/BV") l;
             match span py_isalnum r with
             | ([], _) => None
             | (run, _) => Some (list_ascii_of_string "BV" ++ run)
             end) with
      | Some bv => Some bv
      | None => search_video_bv_from l'
      end
  end.

Definition search_video_bv (path : string) : option string :=
  string_of_list_ascii <$> search_video_bv_from (list_ascii_of_string path).

Inductive http_method := HEAD | GET.

Section UrlHelpers.

(** [urlparse url] is [urllib.parse.urlparse(url)], [None] when it raises;
    [parse_qs] is as for the extractor; [request m u] is the redirect-
    following request of method [m] for [u]: [Some final] with
    [final = resp.geturl()], [None] when it raises. *)
Variable urlparse : string -> option parsed_url.
Variable parse_qs : string -> list (string * list string).
Variable request : http_method -> string -> option string.

(** The loop [for key in ("aid", "avid")] over the remaining keys. *)
Fixpoint aid_from_query (qs : list (string * list string)) (keys : list string) : option Z :=
  match keys with
  | [] => None
  | key :: keys' =>
      match dict_get key qs [] with
      | v0 :: _ =>
          match search_digits v0 with
          | Some ds => Some (py_int_digits ds)
          | None => aid_from_query qs keys'
          end
      | [] => aid_from_query qs keys'
      end
  end.

(** [_extract_aid_from_url(url)] *)
Definition extract_aid_from_url (url : string) : option Z :=
  match urlparse url with
  | None => None                                     (* [except Exception] *)
  | Some parsed =>
      match search_video_av (url_path parsed) with
      | Some ds => Some (py_int_digits ds)
      | None => aid_from_query (parse_qs (url_query parsed)) ["aid"; "avid"]%string
      end
  end.

(** [_extract_bvid_from_url(url)] *)
Definition extract_bvid_from_url (url : string) : option string :=
  match urlparse url with
  | None => None                                     (* [except Exception] *)
  | Some parsed =>
      let qs := parse_qs (url_query parsed) in
      let bvid_list :=
        match dict_get "bvid" qs [] with
        | [] => dict_get "bvids" qs []
        | vals => vals
        end in
      match bvid_list with
      | v0 :: _ => Some v0
      | [] => search_video_bv (url_path parsed)
      end
  end.

Definition is_short_link_host (host : string) : bool :=
  bool_decide (py_lower host ∈ ["b23.tv"; "www.b23.tv"]%string).

(** [final or u] *)
Definition final_or (final u : string) : string :=
  if py_truthy_str final then final else u.

(** [_expand_short_url(u)]: the URL returned and the requests made, in
    order. *)
Definition expand_short_url (u : string) : string * list (http_method * string) :=
  match urlparse u with
  | None => (u, [])                                  (* outer [except] *)
  | Some parsed =>
      if negb (is_short_link_host (url_hostname parsed)) then (u, [])
      else
        match request HEAD u with
        | Some final => (final_or final u, [(HEAD, u)])
        | None =>                                    (* inner [except]: retry with GET *)
            match request GET u with
            | Some final => (final_or final u, [(HEAD, u); (GET, u)])
            | None => (u, [(HEAD, u); (GET, u)])     (* outer [except] *)
            end
        end
  end.

(** [u.lower().startswith(("http://", "https://"))] *)
Definition http_like (u : string) : bool :=
  py_startswith "http://" (py_lower u) || py_startswith "https://" (py_lower u).

(** [_normalize_bili_url] over these helpers. *)
Definition normalize (raw : string) : string :=
  normalize_bili_url (fun u => (expand_short_url u).1) extract_aid_from_url raw.

End UrlHelpers.

(** ** Duration probe: [_get_bili_duration_seconds] *)

(** What [json.loads] makes of the body of an API response. Of a float
    only whether it equals zero is ever read. *)
Inductive json :=
| JNull
| JBool (b : bool)
| JInt (n : Z)
| JFloat (zero : bool)
| JStr (s : string)
| JList (items : list json)
| JDict (entries : list (string * json)).

(** [v != 0] is false: [0], [False] and [0.0] equal zero. *)
Definition json_is_zero (v : json) : bool :=
  match v with
  | JInt n => n =? 0
  | JBool b => negb b
  | JFloat zero => zero
  | _ => false
  end.

Definition json_truthy (v : json) : bool :=
  match v with
  | JNull => false
  | JBool b => b
  | JInt n => py_truthy_int n
  | JFloat zero => negb zero
  | JStr s => py_truthy_str s
  | JList items => match items with [] => false | _ => true end
  | JDict entries => match entries with [] => false | _ => true end
  end.

Definition api_url (bvid : string) : string :=
  "https://api.bilibili.com/x/web-interface/view?bvid=" +:+ bvid.

(** The part of [_get_bili_duration_seconds] after [json.loads]: [None]
    is [return None], also through the [except] when [.get] is called on
    a value that is not a dict. A [bool] is an [int] for [isinstance], and
    counts as 1 or 0 where the caller compares it. *)
Definition response_duration (data : json) : option Z :=
  match data with
  | JDict entries =>
      if negb (json_is_zero (dict_get "code" entries JNull)) then None
      else
        let v := dict_get "data" entries JNull in
        match (if json_truthy v then v else JDict []) with
        | JDict d =>
            match dict_get "duration" d JNull with
            | JInt n => Some n
            | JBool b => Some (Z.b2z b)
            | _ => None
            end
        | _ => None
        end
  | _ => None
  end.

Section Duration.

(** [fetch u] is the body of the [GET] response for [u], decoded as UTF-8
    with undecodable bytes dropped; [None] when the request raises.
    [json_loads] is [json.loads], [None] when it raises. *)
Variable urlparse : string -> option parsed_url.
Variable parse_qs : string -> list (string * list string).
Variable request : http_method -> string -> option string.
Variable fetch : string -> option string.
Variable json_loads : string -> option json.

(** [_get_bili_duration_seconds(url)] *)
Definition get_bili_duration_seconds (url : string) : option Z :=
  let norm := normalize urlparse parse_qs request url in
  match extract_bvid_from_url urlparse parse_qs norm with
  | Some bvid =>
      if py_truthy_str bvid then
        raw ← fetch (api_url bvid);
        data ← json_loads raw;
        response_duration data
      else None
  | None => None
  end.

End Duration.

(** ** Delivery: [_send_video_with_timeout] *)

(** One call of [bot.send_group_msg]: the group, the file handed to the
    transport and the text that follows it. *)
Record sent_message := SentMessage {
  sent_group : Z;
  sent_file : string;
  sent_text : string;
}.

(** The text sent after the video: a line feed and [title or 'B站视频']. *)
Definition caption (title : string) : string :=
  String "010"%char (if py_truthy_str title then title else default_title).

Section Sender.

Variable resolve : string -> option string.
Variable mappings : list (string * string).
(** [locked p]: the operating system refuses to delete [p]. *)
Variable locked : string -> bool.

(** [_send_video_with_timeout(bot, group_id, path, title)] on the disk
    [d]: the calls made to the transport (whether or not they raised) and
    the disk afterwards. The [finally] block deletes the file whatever
    happened before. *)
Definition send_video_with_timeout
    (group_id : Z) (path title : string) (d : gset string)
  : list sent_message * gset string :=
  let sent :=
    if bool_decide (path ∈ d)
    then [SentMessage group_id (send_path resolve mappings path) (caption title)]
    else [] in
  let d' :=
    if bool_decide (path ∈ d) then (if locked path then d else d ∖ {[path]}) else d in
  (sent, d').

End Sender.

(** ** The whole pipeline: [_download_and_send] *)

(** What one run of the pipeline did: the renditions whose retrieval was
    requested, the calls made to the transport, the media files on disk
    afterwards. *)
Record run := Run {
  run_attempts : list format;
  run_sent : list sent_message;
  run_disk : gset string;
}.

Section Pipeline.

Variable urlparse : string -> option parsed_url.
Variable parse_qs : string -> list (string * list string).
Variable request : http_method -> string -> option string.
Variable fetch : string -> option string.
Variable json_loads : string -> option json.
(** [yt_dlp] can be imported; the no-download query and the retrieval
    engine for a final URL, under the configured cookie. *)
Variable installed : bool.
Variable query : string -> string + info_dict.
Variable engine : string -> string -> download_outcome.
Variable probe : string -> probe_outcome.
Variable locked : string -> bool.
Variable resolve : string -> option string.
(** The settings: [max_duration_sec], [max_height], [max_filesize_mb] and
    [path_mappings]. *)
Variables max_duration_sec max_height max_filesize_mb : Z.
Variable path_mappings : list (string * string).

(** The first [try] block: the video is known to be longer than a
    positive limit. *)
Definition too_long (norm_url : string) : bool :=
  if py_truthy_int max_duration_sec && (0 <? max_duration_sec) then
    match get_bili_duration_seconds urlparse parse_qs request fetch json_loads norm_url with
    | Some dur => max_duration_sec <? dur
    | None => false
    end
  else false.

(** [final_url = _expand_short_url(url)] in [_download_with_ytdlp]. *)
Definition final_url (norm_url : string) : string :=
  (expand_short_url urlparse request norm_url).1.

(** The call of [_download_with_ytdlp], which expands the URL again. *)
Definition download (norm_url : string) (d : gset string) : select_result * world :=
  download_with_ytdlp installed (query (final_url norm_url)) (engine (final_url norm_url))
    max_height max_filesize_mb d.

(** [_download_and_send(bot, group_id, url)] on the disk [d]. *)
Definition download_and_send (group_id : Z) (url : string) (d : gset string) : run :=
  let norm_url := normalize urlparse parse_qs request url in
  if too_long norm_url then Run [] [] d
  else
    match download norm_url d with
    | (Selected path title, w) =>
        let '(ok, d1) := check_video_file probe locked max_height path (disk w) in
        if ok then
          let '(sent, d2) :=
            send_video_with_timeout resolve path_mappings locked group_id path title d1 in
          Run (attempts w) sent d2
        else Run (attempts w) [] d1
    | (_, w) => Run (attempts w) [] (disk w)          (* both [except] clauses *)
    end.

End Pipeline.

(** ** Administrator commands: [_handle_group_command],
       [_handle_config_command] *)

(** The settings the commands change, saved in [state.json]. A [dict] is
    an association list in insertion order, without duplicate keys. *)
Record settings := Settings {
  enabled_groups : gset Z;
  bilibili_cookie : string;
  max_height : Z;
  max_filesize_mb : Z;
  max_duration_sec : Z;
  path_mappings : list (string * string);
}.

Definition with_enabled_groups (g : gset Z) (st : settings) : settings :=
  Settings g (bilibili_cookie st) (max_height st) (max_filesize_mb st)
    (max_duration_sec st) (path_mappings st).

Definition with_bilibili_cookie (c : string) (st : settings) : settings :=
  Settings (enabled_groups st) c (max_height st) (max_filesize_mb st)
    (max_duration_sec st) (path_mappings st).

Definition with_max_height (h : Z) (st : settings) : settings :=
  Settings (enabled_groups st) (bilibili_cookie st) h (max_filesize_mb st)
    (max_duration_sec st) (path_mappings st).

Definition with_max_filesize_mb (lim : Z) (st : settings) : settings :=
  Settings (enabled_groups st) (bilibili_cookie st) (max_height st) lim
    (max_duration_sec st) (path_mappings st).

Definition with_max_duration_sec (n : Z) (st : settings) : settings :=
  Settings (enabled_groups st) (bilibili_cookie st) (max_height st) (max_filesize_mb st)
    n (path_mappings st).

Definition with_path_mappings (m : list (string * string)) (st : settings) : settings :=
  Settings (enabled_groups st) (bilibili_cookie st) (max_height st) (max_filesize_mb st)
    (max_duration_sec st) m.

(** [d[k] = v]: an existing key keeps its place, a new one goes last. *)
Fixpoint dict_set {A} (k : string) (v : A) (d : list (string * A)) : list (string * A) :=
  match d with
  | [] => [(k, v)]
  | (k', v') :: d' =>
      if bool_decide (k' = k) then (k, v) :: d' else (k', v') :: dict_set k v d'
  end.

(** [d.pop(k, None)] *)
Fixpoint dict_pop {A} (k : string) (d : list (string * A)) : list (string * A) :=
  match d with
  | [] => []
  | (k', v') :: d' => if bool_decide (k' = k) then d' else (k', v') :: dict_pop k d'
  end.

(** [k in d] *)
Definition dict_has {A} (k : string) (d : list (string * A)) : bool :=
  bool_decide (k ∈ d.*1).

(** [s.endswith(p)] *)
Definition py_endswith (p s : string) : bool :=
  String.prefix (string_of_list_ascii (rev (list_ascii_of_string p)))
                (string_of_list_ascii (rev (list_ascii_of_string s))).

(** [s[1:-1]] *)
Definition py_slice_inner (s : string) : string :=
  string_of_list_ascii (removelast (tail (list_ascii_of_string s))).

(** [sep.join(l)] *)
Definition py_join (sep : string) (l : list string) : string := String.concat sep l.

Definition CMD_LIST : list string := ["查看转换列表"; "查看列表"; "转换列表"]%string.
Definition CMD_CLEAR_COOKIE : list string := ["清除B站COOKIE"; "删除B站COOKIE"]%string.
Definition CMD_SHOW_PARAMS : list string := ["查看参数"; "参数"; "设置"]%string.
Definition CMD_LIST_MAPPINGS : list string := ["查看映射"; "映射列表"]%string.

Definition double_quote : string := String "034"%char EmptyString.
Definition single_quote : string := String "039"%char EmptyString.
Definition line_feed : string := String "010"%char EmptyString.

(** What a command handler did. [handled] is its return value, [None]
    when [bot.send] raised and the exception left the handler; [saved]
    lists the settings handed to [_save_state], and [replies] the texts
    handed to [bot.send], the one that raised included. *)
Record reaction := Reaction {
  handled : option bool;
  after : settings;
  saved : list settings;
  replies : list string;
}.

Section Commands.

(** [send_ok text]: [bot.send(event, Message(text))] returns normally.
    The patterns are given by what they capture on a full match, [None]
    when the text does not match: the group number [int(m.group(1))] for
    [CMD_ENABLE_RE] and [CMD_DISABLE_RE], the number for
    [CMD_SET_HEIGHT_RE], [CMD_SET_MAXSIZE_RE] and [CMD_SET_MAXDUR_RE],
    [m.group(1)] for [CMD_SET_COOKIE_RE] and [CMD_REMOVE_MAPPING_RE], both
    groups for [CMD_SET_MAPPING_RE]. [resolve_path p] is
    [str(Path(p).resolve())], [inl e] when it raises [e];
    [path_exists p] is [Path(p).exists()]. *)
Variable send_ok : string -> bool.
Variable enable_arg : string -> option Z.
Variable disable_arg : string -> option Z.
Variable set_cookie_arg : string -> option string.
Variable set_height_arg : string -> option Z.
Variable set_maxsize_arg : string -> option Z.
Variable set_maxdur_arg : string -> option Z.
Variable set_mapping_args : string -> option (string * string).
Variable remove_mapping_arg : string -> option string.
Variable resolve_path : string -> string + string.
Variable path_exists : string -> bool.

(** [await bot.send(event, Message(text)); return True] *)
Definition reply (st : settings) (text : string) : reaction :=
  Reaction (if send_ok text then Some true else None) st [] [text].

(** The settings become [st'], then [_save_state()], then the reply. *)
Definition save_and_reply (st' : settings) (text : string) : reaction :=
  Reaction (if send_ok text then Some true else None) st' [st'] [text].

(** [return False] *)
Definition unhandled (st : settings) : reaction := Reaction (Some false) st [] [].

(** [_handle_group_command(bot, event, text)] *)
Definition handle_group_command (st : settings) (text : string) : reaction :=
  match enable_arg text with
  | Some gid =>
      if bool_decide (gid ∈ enabled_groups st) then
        reply st ("ℹ️ 群 " +:+ pretty gid +:+ " 已开启转换")
      else
        save_and_reply (with_enabled_groups (enabled_groups st ∪ {[gid]}) st)
          ("✅ 已开启群 " +:+ pretty gid +:+ " 的B站视频转换")
  | None =>
      match disable_arg text with
      | Some gid =>
          if bool_decide (gid ∈ enabled_groups st) then
            save_and_reply (with_enabled_groups (enabled_groups st ∖ {[gid]}) st)
              ("🛑 已停止群 " +:+ pretty gid +:+ " 的B站视频转换")
          else reply st ("ℹ️ 群 " +:+ pretty gid +:+ " 未开启转换")
      | None =>
          if bool_decide (text ∈ CMD_LIST) then
            if bool_decide (enabled_groups st = ∅) then reply st "暂无开启转换的群"
            else
              let sorted_g := merge_sort Z.le (elements (enabled_groups st)) in
              reply st ("当前已开启转换的群：" +:+ py_join ", " (pretty <$> sorted_g))
          else unhandled st
      end
  end.

(** [h = int(m.group(1)); if h < 0: h = 0] *)
Definition clamp (n : Z) : Z := if n <? 0 then 0 else n.

(** [real] without the quotes around it. *)
Definition unquote_path (real : string) : string :=
  if (py_startswith double_quote real && py_endswith double_quote real)
     || (py_startswith single_quote real && py_endswith single_quote real)
  then py_strip (py_slice_inner real) else real.

(** [virt] with a leading slash. *)
Definition rooted (virt : string) : string :=
  if py_startswith "/" virt then virt else "/" +:+ virt.

Definition show_params (st : settings) : string :=
  "参数：清晰度<= " +:+
  (if py_truthy_int (max_height st) then pretty (max_height st) else "不限") +:+
  "；大小<= " +:+
  (if py_truthy_int (max_filesize_mb st) then pretty (max_filesize_mb st) +:+ "MB"
   else "不限") +:+
  "；最大时长<= " +:+
  (if py_truthy_int (max_duration_sec st) then pretty (max_duration_sec st) +:+ "秒"
   else "不限") +:+
  "；Cookie=" +:+
  (if py_truthy_str (bilibili_cookie st) then "已设置" else "未设置") +:+
  "；启用群数=" +:+ pretty (size (enabled_groups st)).

(** The branch of [CMD_SET_MAPPING_RE]. *)
Definition set_mapping (st : settings) (g1 g2 : string) : reaction :=
  let virt := rooted (py_strip g1) in
  let real := unquote_path (py_strip g2) in
  match resolve_path real with
  | inl e => reply st ("❌ 路径解析失败: " +:+ e)
  | inr real_p =>
      let st' := with_path_mappings (dict_set virt real_p (path_mappings st)) st in
      let done := "✅ 已映射 " +:+ real_p +:+ " -> " +:+ virt in
      if path_exists real_p then save_and_reply st' done
      else
        let warning :=
          "⚠️ 目标路径不存在: " +:+ real_p +:+ "，请确认路径或创建后重试" in
        if send_ok warning then
          Reaction (if send_ok done then Some true else None) st' [st'] [warning; done]
        else Reaction None st [] [warning]
  end.

(** [_handle_config_command(bot, event, text)] *)
Definition handle_config_command (st : settings) (text : string) : reaction :=
  match set_cookie_arg text with
  | Some c => save_and_reply (with_bilibili_cookie (py_strip c) st) "✅ 已设置B站 Cookie"
  | None =>
  if bool_decide (text ∈ CMD_CLEAR_COOKIE) then
    save_and_reply (with_bilibili_cookie EmptyString st) "🧹 已清除B站 Cookie"
  else
  match set_height_arg text with
  | Some n =>
      let h := clamp n in
      save_and_reply (with_max_height h st)
        ("⏱ 清晰度已设置为 " +:+
         (if h =? 0 then "不限制" else "<= " +:+ pretty h +:+ "p"))
  | None =>
  match set_maxsize_arg text with
  | Some n =>
      let lim := clamp n in
      save_and_reply (with_max_filesize_mb lim st)
        ("📦 文件大小限制为 " +:+
         (if lim =? 0 then "不限制" else "<= " +:+ pretty lim +:+ "MB"))
  | None =>
  match set_maxdur_arg text with
  | Some n =>
      let d := clamp n in
      save_and_reply (with_max_duration_sec d st)
        ("⏱ 最大时长已设置为 " +:+
         (if d =? 0 then "不限制" else "<= " +:+ pretty d +:+ " 秒"))
  | None =>
  if bool_decide (text ∈ CMD_SHOW_PARAMS) then reply st (show_params st)
  else
  match set_mapping_args text with
  | Some (g1, g2) => set_mapping st g1 g2
  | None =>
  match remove_mapping_arg text with
  | Some g1 =>
      let virt := rooted (py_strip g1) in
      if dict_has virt (path_mappings st) then
        save_and_reply (with_path_mappings (dict_pop virt (path_mappings st)) st)
          ("🗑 已删除映射 " +:+ virt)
      else reply st ("ℹ️ 未找到映射 " +:+ virt)
  | None =>
  if bool_decide (text ∈ CMD_LIST_MAPPINGS) then
    if bool_decide (path_mappings st = []) then reply st "暂无映射"
    else
      let lines := (fun e : string * string => e.1 +:+ " -> " +:+ e.2) <$> path_mappings st in
      reply st ("当前映射：" +:+ line_feed +:+ py_join line_feed lines)
  else unhandled st
  end end end end end end.

End Commands.

(** ** The message handler: [_bili2mp4_message_handler] *)

(** The event as the handler reads it: for a private message the sender
    ([int(user_id)], 0 when that fails) and the text (the stripped plain
    text, or [str(event.message)] when it cannot be had); for a group
    message the group ([int(group_id)], 0 when that fails) and the
    message. *)
Inductive incoming :=
| PrivateMessage (sender : Z) (text : string)
| GroupMessage (group_id : Z) (ev : event)
| OtherEvent.

(** What the handler did: the settings afterwards, the settings saved,
    the replies, the links in flight afterwards and the tasks created,
    each for a group and a link. *)
Record handling := Handling {
  settings_after : settings;
  settings_saved : list settings;
  replied : list string;
  processing_after : gset string;
  tasks : list (Z * string);
}.

(** The loop [for u in urls] that fills [_processing] and creates the
    tasks; no task runs before the handler returns. *)
Definition start_tasks (group_id : Z) (urls : list string) (processing : gset string)
  : gset string * list (Z * string) :=
  foldl (fun acc u =>
           if bool_decide (u ∈ acc.1) then acc
           else (acc.1 ∪ {[u]}, acc.2 ++ [(group_id, u)]))
        (processing, []) urls.

Section Handler.

Variable send_ok : string -> bool.
Variable enable_arg : string -> option Z.
Variable disable_arg : string -> option Z.
Variable set_cookie_arg : string -> option string.
Variable set_height_arg : string -> option Z.
Variable set_maxsize_arg : string -> option Z.
Variable set_maxdur_arg : string -> option Z.
Variable set_mapping_args : string -> option (string * string).
Variable remove_mapping_arg : string -> option string.
Variable resolve_path : string -> string + string.
Variable path_exists : string -> bool.
(** [extract] is [_extract_bili_urls_from_event]; [bili_super_admins] is
    the configured list. *)
Variable extract : event -> list string.
Variable bili_super_admins : list Z.

(** The handler once the plugin is initialised. An exception of
    [bot.send] ends it in the outer [except], which only logs. *)
Definition message_handler (st : settings) (processing : gset string) (inc : incoming)
  : handling :=
  match inc with
  | PrivateMessage sender text =>
      if bool_decide (sender ∈ bili_super_admins) then
        let r := handle_group_command send_ok enable_arg disable_arg st text in
        match handled r with
        | Some false =>
            let r2 :=
              handle_config_command send_ok set_cookie_arg set_height_arg set_maxsize_arg
                set_maxdur_arg set_mapping_args remove_mapping_arg resolve_path path_exists
                (after r) text in
            Handling (after r2) (saved r ++ saved r2) (replies r ++ replies r2) processing []
        | _ => Handling (after r) (saved r) (replies r) processing []
        end
      else Handling st [] [] processing []
  | GroupMessage group_id ev =>
      if bool_decide (group_id ∈ enabled_groups st) then
        let '(processing', created) := start_tasks group_id (extract ev) processing in
        Handling st [] [] processing' created
      else Handling st [] [] processing []
  | OtherEvent => Handling st [] [] processing []
  end.

End Handler.

(** *** Vocabulary for the commands' properties *)

(** A reaction that saves nothing and changes nothing, or saves exactly
    the settings it leaves. *)
Definition consistent (st : settings) (r : reaction) : Prop :=
  (saved r = [] /\ after r = st) \/ saved r = [after r].

(** Settings as the commands leave them: no negative limit, and every
    virtual root of a mapping starts with a slash and occurs once. *)
Definition well_formed (st : settings) : Prop :=
  0 <= max_height st /\ 0 <= max_filesize_mb st /\ 0 <= max_duration_sec st /\
  NoDup (path_mappings st).*1 /\
  Forall (fun virt => py_startswith "/" virt = true) (path_mappings st).*1.

(** ** Cookie file: [_ensure_cookiefile] *)

(** [s.strip(c)] for a one-character argument. *)
Definition py_strip_char (c : ascii) (s : string) : string :=
  string_of_list_ascii
    (rstrip_while (fun d => bool_decide (d = c))
       (lstrip_while (fun d => bool_decide (d = c)) (list_ascii_of_string s))).

(** [c in s] for a one-character [c]. *)
Definition py_contains_char (c : ascii) (s : string) : bool :=
  bool_decide (c ∈ list_ascii_of_string s).

(** [s.split(c, 1)] for an [s] that holds [c]: the text before and after
    the first [c]. *)
Definition py_split_once (c : ascii) (s : string) : string * string :=
  let '(k, rest) := span (fun d => negb (bool_decide (d = c))) (list_ascii_of_string s) in
  (string_of_list_ascii k, string_of_list_ascii (tail rest)).

(** One iteration of the loop over [cookie_string.split(";")]: the pair
    appended, if any. *)
Definition cookie_pair (part : string) : option (string * string) :=
  let part := py_strip part in
  if negb (py_contains_char "=" part) then None
  else
    let '(k, v) := py_split_once "=" part in
    if py_truthy_str k && py_truthy_str v then Some (py_strip k, py_strip v) else None.

Definition cookie_pairs (cookie_string : string) : list (string * string) :=
  omap cookie_pair (py_split_char ";" cookie_string).

Definition tab : string := String "009"%char EmptyString.

(** domain, include-subdomains flag, path, secure flag, expiry, name,
    value *)
Definition cookie_line (expiry : Z) (kv : string * string) : string :=
  ".bilibili.com" +:+ tab +:+ "TRUE" +:+ tab +:+ "/" +:+ tab +:+ "FALSE" +:+ tab +:+
  pretty expiry +:+ tab +:+ kv.1 +:+ tab +:+ kv.2.

Definition cookie_lines (expiry : Z) (pairs : list (string * string)) : list string :=
  ["# Netscape HTTP Cookie File"; "# Generated by nonebot_plugin_bili2mp4"; EmptyString]%string
  ++ (cookie_line expiry <$> pairs).

(** What opening the cookie file for writing and writing [text] to it
    does: [OpenRaises] leaves the file as it was, [WriteRaises partial]
    leaves [partial] in it. *)
Inductive write_outcome :=
| Written
| OpenRaises
| WriteRaises (partial : string).

Section CookieFile.

(** [COOKIE_FILE_PATH] as a [str], [None] before initialisation; [now]
    is [int(time.time())]; [cookie_locked] tells whether the operating
    system refuses the deletion of the cookie file. *)
Variable cookie_file_path : option string.
Variable now : Z.
Variable cookie_locked : bool.
Variable write : string -> write_outcome.

(** [_ensure_cookiefile(cookie_string)] on the cookie file [file] ([None]
    when there is none): the value returned and the file afterwards. *)
Definition ensure_cookiefile (cookie_string : string) (file : option string)
  : option string * option string :=
  match cookie_file_path with
  | None => (None, file)
  | Some path =>
      let cookie_string := py_strip_char ";" (py_strip cookie_string) in
      if negb (py_truthy_str cookie_string) then
        (None, match file with
               | Some _ => if cookie_locked then file else None
               | None => None
               end)
      else
        match cookie_pairs cookie_string with
        | [] => (None, file)
        | pairs =>
            let expiry := now + 180 * 24 * 3600 in
            let text := py_join line_feed (cookie_lines expiry pairs) +:+ line_feed in
            match write text with
            | Written => (Some path, Some text)
            | OpenRaises => (None, file)                  (* [except Exception] *)
            | WriteRaises partial => (None, Some partial) (* [except Exception] *)
            end
        end
  end.

End CookieFile.

(** *** Vocabulary for the cookie file's properties *)

Definition trimmed (s : string) : Prop := py_strip s = s.

(** A cookie as the file holds it: a name and a value that are not
    empty and have no white space around them, no [=] in the name. *)
Definition cookie_ok (kv : string * string) : Prop :=
  kv.1 <> EmptyString /\ kv.2 <> EmptyString /\
  trimmed kv.1 /\ trimmed kv.2 /\
  "="%char ∉ list_ascii_of_string kv.1.

(** The header form [name=value; name=value; ...] of a list of cookies. *)
Definition cookie_header (pairs : list (string * string)) : string :=
  py_join "; " ((fun kv : string * string => kv.1 +:+ "=" +:+ kv.2) <$> pairs).

(** [bounded p l]: neither end of [l] satisfies [p]. *)
Definition bounded (p : ascii -> bool) (l : list ascii) : Prop :=
  (forall c, head l = Some c -> p c = false) /\ (forall c, last l = Some c -> p c = false).

Definition semicolon_free (kv : string * string) : Prop :=
  (";"%char ∉ list_ascii_of_string kv.1) /\ (";"%char ∉ list_ascii_of_string kv.2).

(** One cookie of the header. *)
Definition cookie_item (kv : string * string) : string := kv.1 +:+ "=" +:+ kv.2.

(** ** Locating the downloaded file: [_locate_final_file] *)

(** [sub in s] for two [str]. *)
Fixpoint py_contains (sub s : string) : bool :=
  String.prefix sub s ||
  match s with
  | EmptyString => false
  | String _ s' => py_contains sub s'
  end.

(** What [_locate_final_file] does: it raises, returns [None], or returns
    a value found in the info dict or a path it has built. *)
Inductive located :=
| LocRaises
| LocNone
| LocFile (fp : pyval).

(** [files.sort(key=lambda p: p.stat().st_mtime, reverse=True)] on the
    files paired with their keys: the stable descending sort. *)
Fixpoint insert_newest (x : string * Q) (l : list (string * Q)) : list (string * Q) :=
  match l with
  | [] => [x]
  | y :: l' => if negb (Qle_bool y.2 x.2) then y :: insert_newest x l' else x :: l
  end.

Definition sort_newest (l : list (string * Q)) : list (string * Q) :=
  foldr insert_newest [] l.

Section Locate.

(** The operating system and the engine, as [_locate_final_file] sees
    them:
    - [path_exists v] is [os.path.exists(v)], [None] when it raises (a
      list or a dict is no path);
    - [prepare_filename] is [ydl.prepare_filename(info)], [None] when it
      raises; [splitext_root p] is [os.path.splitext(p)[0]];
    - [dirname] is [os.path.dirname], [getcwd] is [os.getcwd()], [None]
      when it raises; [listdir d] is [os.listdir(d)], [None] when it
      raises; [join_path d f] is [str(Path(d) / f)];
    - [mtime p] is [p.stat().st_mtime], [None] when [stat] raises. *)
Variable path_exists : pyval -> option bool.
Variable prepare_filename : option string.
Variable splitext_root : string -> string.
Variable dirname : string -> string.
Variable getcwd : option string.
Variable listdir : string -> option (list string).
Variable join_path : string -> string -> string.
Variable mtime : string -> option Q.

(** [fp and os.path.exists(fp)], [None] when it raises. *)
Definition usable (fp : pyval) : option bool :=
  if py_truthy fp then path_exists fp else Some false.

(** The loop [for it in arr]; [LocNone] when it ends without returning. *)
Fixpoint first_filepath (arr : list pyval) : located :=
  match arr with
  | [] => LocNone
  | PDict entries :: rest =>
      let fp := dict_get "filepath" entries PNone in
      match usable fp with
      | None => LocRaises
      | Some true => LocFile fp
      | Some false => first_filepath rest
      end
  | _ :: _ => LocRaises                              (* [it.get]: no such attribute *)
  end.

(** The loop over the keys whose value is searched when it is a list. *)
Fixpoint locate_in_lists (info : list (string * pyval)) (keys : list string) : located :=
  match keys with
  | [] => LocNone
  | key :: keys' =>
      match dict_get key info PNone with
      | PList arr =>
          match first_filepath arr with
          | LocNone => locate_in_lists info keys'
          | r => r
          end
      | _ => locate_in_lists info keys'
      end
  end.

(** The loop over the keys whose value is the path itself. *)
Fixpoint locate_in_fields (info : list (string * pyval)) (keys : list string) : located :=
  match keys with
  | [] => LocNone
  | key :: keys' =>
      let fp := dict_get key info PNone in
      match usable fp with
      | None => LocRaises
      | Some true => LocFile fp
      | Some false => locate_in_fields info keys'
      end
  end.

(** The last resort: the newest file of the directory whose name holds
    the video id. Every exception of the [try] block gives [None]. *)
Definition newest_with_id (vid : pyval) (dirpath : string) : option string :=
  match vid with
  | PStr id =>
      names ← listdir dirpath;
      let files := join_path dirpath <$> List.filter (py_contains id) names in
      keyed ← mapM (fun p => q ← mtime p; Some (p, q)) files;
      fst <$> head (sort_newest keyed)
  | _ => None                 (* [listdir] raises, lists nothing, or [vid in f] raises *)
  end.

(** [_locate_final_file(ydl, info)] *)
Definition locate_final_file (info : pyval) : located :=
  match info with
  | PDict entries =>
      match locate_in_lists entries ["requested_downloads"; "requested_formats"]%string with
      | LocNone =>
          match locate_in_fields entries ["filepath"; "_filename"]%string with
          | LocNone =>
              match prepare_filename with
              | None => LocRaises
              | Some base =>
                  let candidate := splitext_root base +:+ ".mp4" in
                  match path_exists (PStr candidate) with
                  | None => LocRaises
                  | Some true => LocFile (PStr candidate)
                  | Some false =>
                      let vid := py_or (dict_get "id" entries PNone) (PStr EmptyString) in
                      if py_truthy vid then
                        let d := dirname base in
                        match (if py_truthy_str d then Some d else getcwd) with
                        | None => LocRaises
                        | Some dirpath =>
                            match newest_with_id vid dirpath with
                            | Some p => LocFile (PStr p)
                            | None => LocNone
                            end
                        end
                      else LocNone
                  end
              end
          | r => r
          end
      | r => r
      end
  | _ => LocRaises                                   (* [info.get]: no such attribute *)
  end.

End Locate.

(** A URL splitter for the examples: scheme, [://], host up to the first
    [/], [?] or [#], path up to [?] or [#], query up to [#]. It never
    raises. *)
Definition ascii_urlparse (url : string) : option parsed_url :=
  let l := list_ascii_of_string url in
  let '(scheme, rest) := span (fun c => negb (bool_decide (c = ":"%char))) l in
  let after :=
    match skip_exact (list_ascii_of_string "://") rest with
    | Some r => Some r
    | None => None
    end in
  let is_delim c := bool_decide (c ∈ ["/"; "?"; "#"]%char) in
  let '(host, tail) :=
    match after with
    | Some r => span (fun c => negb (is_delim c)) r
    | None => ([], l)
    end in
  let '(path, tail) := span (fun c => negb (bool_decide (c ∈ ["?"; "#"]%char))) tail in
  let query :=
    match tail with
    | "?"%char :: q => (span (fun c => negb (bool_decide (c = "#"%char))) q).1
    | _ => []
    end in
  Some (ParsedUrl (py_lower (string_of_list_ascii host))
                  (string_of_list_ascii path) (string_of_list_ascii query)).



(** The settings before any command, a matcher for the patterns of the
    form keyword, optional white space, digits (on ASCII white space and
    digits), and a handler for the examples: every reply is delivered,
    only the three numeric commands below are recognised, paths resolve
    to themselves and exist, and 10001 is the only administrator. *)
Definition initial_settings : settings := Settings ∅ EmptyString 0 0 0 [].

Definition ascii_number_arg (keyword text : string) : option Z :=
  r ← skip_exact (list_ascii_of_string keyword) (list_ascii_of_string text);
  match lstrip_while py_isspace r with
  | [] => None
  | ds => if forallb py_isdigit ds then Some (py_int_digits (string_of_list_ascii ds)) else None
  end.

Definition sample_handler : settings -> gset string -> incoming -> handling :=
  message_handler (fun _ => true) (ascii_number_arg "转换") (ascii_number_arg "停止转换")
    (fun _ => None) (ascii_number_arg "设置清晰度") (fun _ => None) (fun _ => None)
    (fun _ => None) (fun _ => None) inr (fun _ => true) sample_extract [10001].

(** A file system for the examples: only the sample file exists. *)
Definition sample_exists (v : pyval) : option bool :=
  match v with
  | PStr p => Some (String.eqb p sample_path)
  | _ => None
  end.

(* ================================================================== *)
(** * Properties *)

Example bili_av_to_bv_170001 : bili_av_to_bv 170001 = Some "BV17x411w7KC"%string.
Proof. reflexivity. Qed.

Lemma seqZ_0_6 : seqZ 0 6 = [0; 1; 2; 3; 4; 5].
Proof. reflexivity. Qed.

Lemma bv_digit_range x i : 0 <= bv_digit x i < 58.
Proof. unfold bv_digit. apply Z.mod_pos_bound. lia. Qed.

Lemma py_index_in_range n k :
  0 <= k < Z.of_nat n -> py_index n k = Some (Z.to_nat k).
Proof.
  intros [H0 H1]. unfold py_index.
  destruct (Z.leb_spec 0 k); [|lia]. destruct (Z.ltb_spec k (Z.of_nat n)); [|lia].
  reflexivity.
Qed.

Lemma table_length : length table_chars = 58%nat.
Proof. reflexivity. Qed.

Lemma table_getitem k :
  0 <= k < 58 ->
  exists c, py_getitem table_chars k = Some c /\ c ∈ table_chars.
Proof.
  intros Hk. unfold py_getitem. rewrite py_index_in_range by (rewrite table_length; lia).
  simpl. destruct (lookup_lt_is_Some_2 table_chars (Z.to_nat k)) as [c Hc].
  { rewrite table_length. lia. }
  exists c. split; [exact Hc|]. eapply list_elem_of_lookup_2; eauto.
Qed.

Lemma bv_fill_shape x :
  exists c0 c1 c2 c3 c4 c5 : ascii,
    py_getitem table_chars (bv_digit x 0) = Some c0 /\
    py_getitem table_chars (bv_digit x 1) = Some c1 /\
    py_getitem table_chars (bv_digit x 2) = Some c2 /\
    py_getitem table_chars (bv_digit x 3) = Some c3 /\
    py_getitem table_chars (bv_digit x 4) = Some c4 /\
    py_getitem table_chars (bv_digit x 5) = Some c5 /\
    bv_fill x (seqZ 0 6) (list_ascii_of_string bv_template) =
      Some ["B"; "V"; "1"; c2; c4; "4"; c5; "1"; c3; "7"; c1; c0]%char.
Proof.
  destruct (table_getitem _ (bv_digit_range x 0)) as (c0 & H0 & _).
  destruct (table_getitem _ (bv_digit_range x 1)) as (c1 & H1 & _).
  destruct (table_getitem _ (bv_digit_range x 2)) as (c2 & H2 & _).
  destruct (table_getitem _ (bv_digit_range x 3)) as (c3 & H3 & _).
  destruct (table_getitem _ (bv_digit_range x 4)) as (c4 & H4 & _).
  destruct (table_getitem _ (bv_digit_range x 5)) as (c5 & H5 & _).
  exists c0, c1, c2, c3, c4, c5. repeat (split; [assumption|]).
  rewrite seqZ_0_6. cbn [bv_fill].
  rewrite H0, H1, H2, H3, H4, H5. reflexivity.
Qed.

Lemma bili_av_to_bv_shape aid :
  exists c0 c1 c2 c3 c4 c5 : ascii,
    let x := Z.lxor aid xor + add in
    py_getitem table_chars (bv_digit x 0) = Some c0 /\
    py_getitem table_chars (bv_digit x 1) = Some c1 /\
    py_getitem table_chars (bv_digit x 2) = Some c2 /\
    py_getitem table_chars (bv_digit x 3) = Some c3 /\
    py_getitem table_chars (bv_digit x 4) = Some c4 /\
    py_getitem table_chars (bv_digit x 5) = Some c5 /\
    bili_av_to_bv aid =
      Some (string_of_list_ascii
              ["B"; "V"; "1"; c2; c4; "4"; c5; "1"; c3; "7"; c1; c0]%char).
Proof.
  destruct (bv_fill_shape (Z.lxor aid xor + add))
    as (c0 & c1 & c2 & c3 & c4 & c5 & H0 & H1 & H2 & H3 & H4 & H5 & Hf).
  exists c0, c1, c2, c3, c4, c5. cbn zeta. repeat (split; [assumption|]).
  unfold bili_av_to_bv. rewrite Hf. reflexivity.
Qed.

(** *** Python primitives *)

Lemma py_isdigit_decimal c : c ∈ decimal_digits -> py_isdigit c = true.
Proof.
  unfold decimal_digits. cbn [list_ascii_of_string]. intros H.
  repeat (apply elem_of_cons in H as [->|H]; [reflexivity|]).
  by apply elem_of_nil in H.
Qed.

Lemma py_isdigit_not_space c : py_isdigit c = true -> py_isspace c = false.
Proof.
  unfold py_isdigit, py_isspace. generalize (nat_of_ascii c). intros n H.
  apply andb_true_iff in H as [H1 H2].
  apply Nat.leb_le in H1. apply Nat.leb_le in H2.
  apply orb_false_iff. split; apply andb_false_iff.
  - right. apply Nat.leb_gt. lia.
  - right. apply Nat.leb_gt. lia.
Qed.

Lemma lstrip_while_head p c l : p c = false -> lstrip_while p (c :: l) = c :: l.
Proof. intros H. cbn. by rewrite H. Qed.

Lemma rstrip_while_last p l c : p c = false -> rstrip_while p (l ++ [c]) = l ++ [c].
Proof.
  intros H. unfold rstrip_while. rewrite rev_app_distr. cbn [rev app].
  rewrite lstrip_while_head by assumption.
  change (c :: rev l) with ([c] ++ rev l). rewrite rev_app_distr, rev_involutive.
  reflexivity.
Qed.

Lemma py_strip_id c l d :
  py_isspace c = false -> py_isspace d = false ->
  py_strip (string_of_list_ascii (c :: l ++ [d])) = string_of_list_ascii (c :: l ++ [d]).
Proof.
  intros Hc Hd. unfold py_strip. rewrite list_ascii_of_string_of_list_ascii.
  rewrite lstrip_while_head by assumption.
  change (c :: l ++ [d]) with ((c :: l) ++ [d]).
  by rewrite rstrip_while_last.
Qed.

(** A bare legacy identifier has no surrounding white space to strip and is
    what the normaliser's [fullmatch] recognises. *)
Lemma bare_legacy_id_strip raw ds : bare_legacy_id raw ds -> py_strip raw = raw.
Proof.
  intros [a v ds' Ha Hv Hne Hds].
  assert (Hsp : py_isspace a = false).
  { repeat (apply elem_of_cons in Ha as [->|Ha]; [reflexivity|]). by apply elem_of_nil in Ha. }
  assert (Hdl : list_ascii_of_string ds' <> []) by (by destruct ds').
  destruct (exists_last Hdl) as (l & d & E). rewrite E in Hds.
  apply Forall_app in Hds as [_ Hd]. apply Forall_cons in Hd as [Hd _].
  replace (String a (String v ds')) with (string_of_list_ascii (a :: (v :: l) ++ [d])).
  - apply py_strip_id; [assumption|].
    by apply py_isdigit_not_space, py_isdigit_decimal.
  - cbn [app string_of_list_ascii]. by rewrite <- E, string_of_list_ascii_of_string.
Qed.

Lemma bare_legacy_id_fullmatch raw ds : bare_legacy_id raw ds -> fullmatch_av raw = Some ds.
Proof.
  intros [a v ds' Ha Hv Hne Hds]. cbn [fullmatch_av].
  assert (is_letter "a" a = true) as ->.
  { repeat (apply elem_of_cons in Ha as [->|Ha]; [reflexivity|]). by apply elem_of_nil in Ha. }
  assert (is_letter "v" v = true) as ->.
  { repeat (apply elem_of_cons in Hv as [->|Hv]; [reflexivity|]). by apply elem_of_nil in Hv. }
  assert (py_truthy_str ds' = true) as -> by (by destruct ds').
  assert (forallb py_isdigit (list_ascii_of_string ds') = true) as ->; [|reflexivity].
  apply forallb_forall. intros c Hc. apply py_isdigit_decimal.
  rewrite Forall_forall in Hds. apply Hds. by apply list_elem_of_In.
Qed.

Lemma digit_value_nonneg c : c ∈ decimal_digits -> 0 <= digit_value c.
Proof.
  unfold decimal_digits. cbn [list_ascii_of_string]. intros Hc.
  repeat (apply elem_of_cons in Hc as [->|Hc]; [by vm_compute|]).
  by apply elem_of_nil in Hc.
Qed.

Lemma fold_digits_nonneg l acc :
  0 <= acc -> Forall (fun c => c ∈ decimal_digits) l ->
  0 <= fold_left (fun acc c => 10 * acc + digit_value c) l acc.
Proof.
  revert acc. induction l as [|c l IH]; intros acc Hacc Hl; cbn [fold_left]; [assumption|].
  apply Forall_cons in Hl as [Hc Hl]. apply IH; [|assumption].
  pose proof (digit_value_nonneg c Hc). lia.
Qed.

Lemma py_int_digits_nonneg ds :
  Forall (fun c => c ∈ decimal_digits) (list_ascii_of_string ds) -> 0 <= py_int_digits ds.
Proof. intros H. apply fold_digits_nonneg; [lia | assumption]. Qed.

Lemma py_getitem_elem {A} (l : list A) k x : py_getitem l k = Some x -> x ∈ l.
Proof.
  unfold py_getitem. destruct (py_index (length l) k) as [i|]; [|done].
  cbn. apply list_elem_of_lookup_2.
Qed.

(** *** Identifier codec *)

(** C9. [encode] is deterministic (equal numeric ids give equal results),
    and for every non-negative numeric id its output is exactly 12
    characters long, with ['B'], ['V'], ['1'] at positions 0-2, ['4'] at
    position 5, ['1'] at position 7 and ['7'] at position 9, the other
    six positions (3, 4, 6, 8, 10, 11) holding characters of the 58-letter
    alphabet. *)
Theorem bili_av_to_bv_template (aid : Z) (Haid : 0 <= aid) :
  (forall aid' : Z, aid' = aid -> bili_av_to_bv aid' = bili_av_to_bv aid) /\
  exists bv : string,
    bili_av_to_bv aid = Some bv /\
    String.length bv = 12%nat /\
    String.get 0 bv = Some "B"%char /\
    String.get 1 bv = Some "V"%char /\
    String.get 2 bv = Some "1"%char /\
    String.get 5 bv = Some "4"%char /\
    String.get 7 bv = Some "1"%char /\
    String.get 9 bv = Some "7"%char /\
    (forall i : nat, i ∈ [3; 4; 6; 8; 10; 11]%nat ->
       exists c : ascii, String.get i bv = Some c /\ c ∈ table_chars).
Proof.
  split; [by intros ? -> |].
  destruct (bili_av_to_bv_shape aid)
    as (c0 & c1 & c2 & c3 & c4 & c5 & H0 & H1 & H2 & H3 & H4 & H5 & Hbv).
  eexists. split; [exact Hbv|]. cbn [string_of_list_ascii String.length String.get].
  repeat (split; [reflexivity|]).
  intros i Hi.
  repeat (apply elem_of_cons in Hi as [->|Hi];
          [eexists; split; [reflexivity | eauto using py_getitem_elem]|]).
  by apply elem_of_nil in Hi.
Qed.

Lemma bili_av_to_bv_template_witness :
  0 <= 170001 /\ bili_av_to_bv 170001 = Some "BV17x411w7KC"%string.
Proof.
  split; [lia|].
  destruct (bili_av_to_bv_template 170001 ltac:(lia)) as [_ (bv & Hbv & _)].
  rewrite Hbv. vm_compute in Hbv. congruence.
Defined.

(** C10. For every non-negative numeric id the encoder never returns
    absent: the transformed value [x] is non-negative, every digit
    [x // 58**i % 58] is a valid index into the 58-character alphabet, so
    the table lookup never raises; and for a bare legacy-id input the
    normaliser therefore never takes its fallback of returning the input
    unchanged. *)
Theorem bili_av_to_bv_never_absent :
  (forall aid : Z, 0 <= aid ->
     let x := Z.lxor aid xor + add in
     0 <= x /\
     (forall i : Z, 0 <= bv_digit x i < Z.of_nat (String.length table) /\
                    is_Some (py_getitem table_chars (bv_digit x i))) /\
     is_Some (bili_av_to_bv aid)) /\
  (forall expand_short_url extract_aid_from_url (raw ds : string),
     bare_legacy_id raw ds ->
     is_Some (bili_av_to_bv (py_int_digits ds)) /\
     normalize_bili_url expand_short_url extract_aid_from_url raw <> raw).
Proof.
  split.
  - intros aid Haid x. split; [|split].
    + assert (0 <= Z.lxor aid xor) by (apply Z.lxor_nonneg; unfold xor; lia).
      unfold x, add. lia.
    + intros i. pose proof (bv_digit_range x i) as Hr. split; [exact Hr|].
      destruct (table_getitem _ Hr) as (c & -> & _). by eexists.
    + destruct (bili_av_to_bv_shape aid) as (? & ? & ? & ? & ? & ? & H). cbn zeta in H.
      destruct H as (_ & _ & _ & _ & _ & _ & ->). by eexists.
  - intros expand extract raw ds Hraw.
    destruct (bili_av_to_bv_shape (py_int_digits ds))
      as (c0 & c1 & c2 & c3 & c4 & c5 & H). cbn zeta in H.
    destruct H as (_ & _ & _ & _ & _ & _ & Hbv).
    split; [rewrite Hbv; by eexists|].
    unfold normalize_bili_url.
    rewrite (bare_legacy_id_strip _ _ Hraw), (bare_legacy_id_fullmatch _ _ Hraw), Hbv.
    destruct Hraw as [a v ds' Ha Hv _ _]. cbn.
    intros [= E _]. subst a.
    repeat (apply elem_of_cons in Ha as [Ha|Ha]; [discriminate Ha|]).
    by apply elem_of_nil in Ha.
Qed.

Lemma bili_av_to_bv_never_absent_witness :
  0 <= 170001 /\ bare_legacy_id "av170001" "170001" /\
  is_Some (bili_av_to_bv 170001) /\
  normalize_bili_url id (fun _ => None) "av170001" <> "av170001"%string.
Proof.
  assert (Hb : bare_legacy_id "av170001" "170001").
  { constructor; [set_solver | set_solver | done |].
    unfold decimal_digits. cbn [list_ascii_of_string].
    repeat constructor. }
  destruct bili_av_to_bv_never_absent as [Henc Hnorm].
  split; [lia|]. split; [exact Hb|]. split.
  - apply (Henc 170001). lia.
  - apply (Hnorm id (fun _ => None) _ _ Hb).
Defined.

(** *** Link normaliser *)



(** *** Ranking of the renditions *)

















(** *** The selection loop *)

Lemma py_truthy_int_nonzero n : n <> 0 -> py_truthy_int n = true.
Proof. intros H. unfold py_truthy_int. by destruct (Z.eqb_spec n 0). Qed.

Lemma over_height_exceeds L f h :
  0 < L -> height f = Some h -> L < h -> over_height L f = true.
Proof.
  intros HL Hh Hlt. unfold over_height. rewrite Hh. cbn.
  rewrite !py_truthy_int_nonzero by lia. cbn. by apply Z.ltb_lt.
Qed.

Section SelectorFacts.

Context (engine : string -> download_outcome) (title : string).
Context (height_limit size_limit_mb : Z).

Local Abbreviation select_loop := (select_loop engine title height_limit size_limit_mb).
Local Abbreviation prechecked := (prechecked height_limit size_limit_mb).
Local Abbreviation fits := (fits engine height_limit size_limit_mb).
Local Abbreviation recorded_failure := (recorded_failure engine height_limit size_limit_mb).
Local Abbreviation recorded_failures := (recorded_failures engine height_limit size_limit_mb).
Local Abbreviation disk_after_failure := (disk_after_failure engine height_limit size_limit_mb).
Local Abbreviation disk_after_failures := (disk_after_failures engine height_limit size_limit_mb).
Local Abbreviation last_failure := (last_failure engine height_limit size_limit_mb).

(** One iteration on a rendition that fits returns at once. *)
Lemma select_loop_fit f rest err w p :
  fits f = Some p ->
  select_loop (f :: rest) err w =
    (Selected p title, World (disk w ∪ {[p]}) (attempts w ++ [f])).
Proof.
  unfold fits, prechecked, oversized. cbn [select_loop].
  destruct (over_height height_limit f); [done|].
  destruct (over_size_estimate size_limit_mb f); [done|]. cbn [negb andb].
  destruct (engine (format_id f)) as [e| |q a]; [done|done|].
  destruct (py_truthy_int size_limit_mb); cbn [andb]; [|by intros [= ->]].
  destruct (st_size a) as [sz|]; [|by intros [= ->]].
  destruct (exceeds_mb sz size_limit_mb); [done|by intros [= ->]].
Qed.

(** One iteration on a rendition that does not fit moves on to the next
    candidate, with the failure (if any) recorded. *)
Lemma select_loop_unfit f rest err w :
  fits f = None ->
  select_loop (f :: rest) err w =
    select_loop rest
      (match recorded_failure f with Some e => Some e | None => err end)
      (World (disk_after_failure f (disk w))
             (attempts w ++ List.filter prechecked [f])).
Proof.
  unfold fits, recorded_failure, disk_after_failure, prechecked, oversized.
  cbn [select_loop List.filter]. destruct w as [d att]. cbn [disk attempts].
  destruct (over_height height_limit f); cbn [negb andb]; [by rewrite app_nil_r|].
  destruct (over_size_estimate size_limit_mb f); cbn [negb andb]; [by rewrite app_nil_r|].
  destruct (engine (format_id f)) as [e| |q a]; [done|done|].
  destruct (py_truthy_int size_limit_mb); cbn [andb]; [|done].
  destruct (st_size a) as [sz|]; [|done].
  destruct (exceeds_mb sz size_limit_mb); done.
Qed.

Lemma last_failure_cons f l err :
  last_failure (f :: l) err =
  last_failure l (match recorded_failure f with Some e => Some e | None => err end).
Proof.
  unfold last_failure, recorded_failures. cbn [omap list_omap].
  destruct (recorded_failure f) as [e|]; [|done].
  rewrite last_cons. by destruct (last _).
Qed.

(** A run of renditions none of which fits is traversed to its end. *)
Lemma select_loop_all_unfit l rest err w :
  Forall (fun g => fits g = None) l ->
  select_loop (l ++ rest) err w =
    select_loop rest (last_failure l err)
      (World (disk_after_failures l (disk w)) (attempts w ++ List.filter prechecked l)).
Proof.
  intros Hl. revert err w. induction Hl as [|f l Hf Hl IH]; intros err w.
  - destruct w. cbn. by rewrite app_nil_r.
  - cbn [app]. rewrite select_loop_unfit by exact Hf. rewrite IH.
    rewrite last_failure_cons. cbn [disk attempts disk_after_failures foldl].
    f_equal. f_equal. rewrite <- app_assoc. f_equal.
    cbn [List.filter]. by destruct (prechecked f).
Qed.

(** First fit: the loop returns the first rendition that fits, having
    requested exactly the pre-checked renditions up to it. *)
Lemma select_loop_first_fit pre f post p err w :
  Forall (fun g => fits g = None) pre ->
  fits f = Some p ->
  select_loop (pre ++ f :: post) err w =
    (Selected p title,
     World (disk_after_failures pre (disk w) ∪ {[p]})
           (attempts w ++ List.filter prechecked pre ++ [f])).
Proof.
  intros Hpre Hf. rewrite select_loop_all_unfit by exact Hpre.
  rewrite (select_loop_fit _ _ _ _ _ Hf). cbn [disk attempts].
  by rewrite <- app_assoc.
Qed.

(** Exhaustion: when no rendition fits the loop raises, with the latest
    recorded failure or the generic detail. *)
Lemma select_loop_exhausted l err w :
  Forall (fun g => fits g = None) l ->
  select_loop l err w =
    (RuntimeError (default err_no_candidate (last_failure l err)),
     World (disk_after_failures l (disk w)) (attempts w ++ List.filter prechecked l)).
Proof.
  intros Hl. rewrite <- (app_nil_r l) at 1. rewrite select_loop_all_unfit by exact Hl.
  cbn [select_loop]. by destruct (last_failure l err).
Qed.

(** Every candidate list either has a first rendition that fits or has
    none at all. *)
Lemma first_fit_split l :
  Forall (fun g => fits g = None) l \/
  exists pre f post p,
    l = pre ++ f :: post /\ Forall (fun g => fits g = None) pre /\ fits f = Some p.
Proof.
  induction l as [|g l IH]; [by left|].
  destruct (fits g) as [p|] eqn:Hg.
  - right. exists [], g, l, p. by repeat split.
  - destruct IH as [IH|(pre & f & post & p & -> & Hpre & Hf)].
    + left. by constructor.
    + right. exists (g :: pre), f, post, p. repeat split; [|done]. by constructor.
Qed.

Lemma fits_prechecked f p : fits f = Some p -> prechecked f = true.
Proof. unfold fits. by destruct (prechecked f). Qed.

(** The renditions requested are the pre-checked ones of an initial
    segment of the candidate list, in the order of that list. *)
Lemma select_loop_attempts l err w :
  exists k : nat,
    attempts (select_loop l err w).2 =
      attempts w ++ List.filter prechecked (take k l).
Proof.
  destruct (first_fit_split l) as [Hl|(pre & f & post & p & -> & Hpre & Hf)].
  - exists (length l). rewrite select_loop_exhausted by exact Hl.
    by rewrite firstn_all.
  - exists (S (length pre)). rewrite (select_loop_first_fit _ _ _ _ _ _ Hpre Hf).
    cbn [snd attempts]. f_equal.
    replace (take (S (length pre)) (pre ++ f :: post)) with (pre ++ [f]).
    + rewrite List.filter_app. cbn [List.filter]. by rewrite (fits_prechecked _ _ Hf).
    + change (f :: post) with ([f] ++ post). rewrite app_assoc.
      rewrite take_app_length'; [done|]. rewrite length_app. cbn. lia.
Qed.



End SelectorFacts.

(** *** Rendition selector *)

Example candidates_ranked :
  candidates [r360; a30280; r1080; r720] = [r1080; r720; r360].
Proof. reflexivity. Qed.

(** No limits: the 1080 rendition is requested first and returned. *)
Example select_unconstrained :
  download_with_ytdlp true (inr sample_info) (sample_engine false) 0 0 ∅ =
    (Selected sample_path "clip", World {[ sample_path ]} [r1080]).
Proof. reflexivity. Qed.

(** A 10 MiB limit: the 30 MiB and 12 MiB files are deleted after
    download, the 4 MiB one is returned. *)
Example select_under_size_limit :
  download_with_ytdlp true (inr sample_info) (sample_engine false) 0 10 ∅ =
    (Selected sample_path "clip", World {[ sample_path ]} [r1080; r720; r360]).
Proof. reflexivity. Qed.

(** A 1 MiB limit and a file that cannot be deleted: the run fails and
    the file stays. *)
Example select_exhausted_locked :
  download_with_ytdlp true (inr sample_info) (sample_engine true) 0 1 ∅ =
    (RuntimeError err_file_too_large, World {[ sample_path ]} [r1080; r720; r360]).
Proof. reflexivity. Qed.

Example select_exhausted :
  download_with_ytdlp true (inr sample_info) (sample_engine false) 0 1 ∅ =
    (RuntimeError err_file_too_large, World ∅ [r1080; r720; r360]).
Proof. reflexivity. Qed.



(** C3. For every configured height limit [L > 0], [select] never
    requests retrieval of a rendition whose declared height exceeds [L];
    in particular, with [L = 720] and renditions of declared heights 360,
    720 and 1080, the 1080 rendition is never requested. *)
Theorem height_limit_respected
    (engine : string -> download_outcome) (info : info_dict)
    (L size_limit_mb : Z) (d : gset string) (HL : 0 < L) :
  (forall f h,
     f ∈ attempts (download_with_ytdlp true (inr info) engine L size_limit_mb d).2 ->
     height f = Some h -> h <= L) /\
  (forall (t : option string) (f1 f2 f3 : format),
     height f1 = Some 360 -> height f2 = Some 720 -> height f3 = Some 1080 ->
     f3 ∉ attempts (download_with_ytdlp true (inr (InfoDict t (Some [f1; f2; f3])))
                      engine 720 size_limit_mb d).2).
Proof.
  assert (Hgen : forall L' info', 0 < L' -> forall f h,
    f ∈ attempts (download_with_ytdlp true (inr info') engine L' size_limit_mb d).2 ->
    height f = Some h -> h <= L').
  { intros L' info' HL' f h. unfold download_with_ytdlp. cbn [negb].
    destruct (select_loop_attempts engine (video_title info') L' size_limit_mb
                (candidates (default [] (info_formats info'))) None (World d []))
      as [k ->].
    cbn [attempts app]. rewrite list_elem_of_In, filter_In.
    intros [_ Hp] Hh. destruct (Z.le_gt_cases h L') as [|Hlt]; [done|].
    unfold prechecked in Hp. by rewrite (over_height_exceeds _ _ _ HL' Hh Hlt) in Hp. }
  split; [by apply Hgen|].
  intros t f1 f2 f3 _ _ H3 Hin.
  pose proof (Hgen 720 _ ltac:(lia) _ _ Hin H3). lia.
Qed.

Lemma height_limit_respected_witness :
  0 < 720 /\
  r1080 ∉ attempts (download_with_ytdlp true (inr (InfoDict None (Some [r360; r720; r1080])))
                     (sample_engine false) 720 0 ∅).2.
Proof.
  split; [lia|].
  destruct (height_limit_respected (sample_engine false) sample_info 720 0 ∅ ltac:(lia))
    as [_ H].
  by apply H.
Defined.









(** *** Post-fetch validator *)

(** On an existing file the verdict depends only on the tool's outcome
    and, with a height limit, on the height read from its output. *)
Lemma check_video_file_existing probe locked max_height path d :
  path ∈ d ->
  check_video_file probe locked max_height path d =
    match probe path with
    | ProbeRaises => (false, d)
    | ProbeExit rc out =>
        if rc =? 0 then
          if py_truthy_int max_height then
            match probed_height out with
            | Some h =>
                if max_height <? h
                then (false, if locked path then d else d ∖ {[path]})
                else (true, d)
            | None => (true, d)
            end
          else (true, d)
        else (true, d)
    end.
Proof.
  intros Hp. unfold check_video_file, probed_height.
  rewrite bool_decide_eq_true_2 by exact Hp. cbn [negb].
  destruct (probe path) as [|rc out]; [done|].
  destruct (rc =? 0); [|done].
  destruct (py_split_char "," (py_strip out)) as [|w [|h [|x l]]];
    try by destruct (py_truthy_int max_height).
  destruct (py_truthy_int max_height); [|done].
  destruct (py_int h) as [hv|]; [|done].
  destruct (max_height <? hv); [|done]. by destruct (locked path).
Qed.




(** *** Path remapping *)

Section RemapFacts.

Context (resolve : string -> option string).

Lemma remap_loop_none mappings path :
  Forall (fun e => entry_matches resolve path e = false) mappings ->
  remap_loop resolve mappings path = None.
Proof.
  induction 1 as [|[virt real] l He Hl IH]; [done|]. cbn [remap_loop].
  unfold entry_matches in He. cbn [snd] in He.
  destruct (resolve real); [|done]. destruct (resolve path); [|done].
  by rewrite He.
Qed.

Lemma remap_loop_skip pre rest path :
  Forall (fun e => entry_matches resolve path e = false) pre ->
  remap_loop resolve (pre ++ rest) path = remap_loop resolve rest path.
Proof.
  induction 1 as [|[virt real] l He Hl IH]; [done|]. cbn [remap_loop app].
  unfold entry_matches in He. cbn [snd] in He.
  destruct (resolve real); [|done]. destruct (resolve path); [|done].
  by rewrite He.
Qed.

Lemma remap_loop_split mappings path :
  Forall (fun e => entry_matches resolve path e = false) mappings \/
  exists pre e post,
    mappings = pre ++ e :: post /\
    Forall (fun e' => entry_matches resolve path e' = false) pre /\
    entry_matches resolve path e = true.
Proof.
  induction mappings as [|e l IH]; [by left|].
  destruct (entry_matches resolve path e) eqn:He.
  - right. by exists [], e, l.
  - destruct IH as [IH|(pre & e' & post & -> & Hpre & He')].
    + left. by constructor.
    + right. exists (e :: pre), e', post. repeat split; [|done]. by constructor.
Qed.

End RemapFacts.

(** C5, as the code has it. Before a local file path is handed to the
    outbound transport it is translated by the path-remap table: for
    every file path and every table, the entry applied is the first one,
    in the table's iteration order, whose resolved real-path prefix is a
    prefix of the resolved file path; entries after it are not consulted,
    whatever the length of their prefix. Without a matching entry the
    path is sent as it is. *)
Theorem remap_first_match
    (resolve : string -> option string)
    (mappings : list (string * string)) (path : string) :
  (forall pre e post,
     mappings = pre ++ e :: post ->
     Forall (fun e' => entry_matches resolve path e' = false) pre ->
     entry_matches resolve path e = true ->
     exists real_p p_resolved,
       resolve e.2 = Some real_p /\ resolve path = Some p_resolved /\
       remap_loop resolve mappings path = Some (e, remapped e.1 real_p p_resolved) /\
       send_path resolve mappings path = remapped e.1 real_p p_resolved) /\
  (Forall (fun e' => entry_matches resolve path e' = false) mappings ->
     send_path resolve mappings path = path) /\
  (forall e sp,
     remap_loop resolve mappings path = Some (e, sp) ->
     exists pre post,
       mappings = pre ++ e :: post /\
       Forall (fun e' => entry_matches resolve path e' = false) pre /\
       entry_matches resolve path e = true).
Proof.
  assert (Hfirst : forall pre e post,
     Forall (fun e' => entry_matches resolve path e' = false) pre ->
     entry_matches resolve path e = true ->
     exists real_p p_resolved,
       resolve e.2 = Some real_p /\ resolve path = Some p_resolved /\
       remap_loop resolve (pre ++ e :: post) path =
         Some (e, remapped e.1 real_p p_resolved)).
  { intros pre [virt real] post Hpre He. rewrite remap_loop_skip by exact Hpre.
    unfold entry_matches in He. cbn [remap_loop fst snd] in *.
    destruct (resolve real) as [real_p|]; [|done].
    destruct (resolve path) as [p_resolved|]; [|done].
    exists real_p, p_resolved. by rewrite He. }
  split; [|split].
  - intros pre e post -> Hpre He.
    destruct (Hfirst pre e post Hpre He) as (real_p & p_resolved & Hr & Hp & Hl).
    exists real_p, p_resolved. unfold send_path. by rewrite Hl.
  - intros Hall. unfold send_path. by rewrite remap_loop_none.
  - intros e sp Hl.
    destruct (remap_loop_split resolve mappings path)
      as [Hall|(pre & e' & post & -> & Hpre & He')].
    + by rewrite remap_loop_none in Hl.
    + destruct (Hfirst pre e' post Hpre He') as (real_p & p_resolved & _ & _ & Hl').
      rewrite Hl' in Hl. injection Hl as <- _. by exists pre, post.
Qed.

Lemma remap_first_match_witness :
  let table := [("/v", "/data"); ("/clips", "/data/clips")]%string in
  entry_matches Some "/data/clips/a.mp4" ("/v", "/data")%string = true /\
  send_path Some table "/data/clips/a.mp4" = "/v/clips/a.mp4"%string.
Proof.
  intros table.
  assert (He : entry_matches Some "/data/clips/a.mp4" ("/v", "/data")%string = true)
    by reflexivity.
  split; [exact He|].
  destruct (remap_first_match Some table "/data/clips/a.mp4") as [H _].
  destruct (H [] ("/v", "/data")%string [("/clips", "/data/clips")%string]
              eq_refl (Forall_nil_2 _) He) as (rp & pp & [= <-] & [= <-] & _ & ->).
  reflexivity.
Defined.

(** C5 as stated fails: with the table [/v -> /data], [/clips ->
    /data/clips] both entries match [/data/clips/a.mp4], the second with
    the longer prefix, and the first is the one applied. *)
Lemma remap_not_longest_prefix :
  let table := [("/v", "/data"); ("/clips", "/data/clips")]%string in
  let path := "/data/clips/a.mp4"%string in
  ~ (forall e sp,
       remap_loop Some table path = Some (e, sp) ->
       forall e', e' ∈ table -> entry_matches Some path e' = true ->
                  (prefix_length Some e' <= prefix_length Some e)%nat).
Proof.
  intros table path H.
  specialize (H ("/v", "/data")%string "/v/clips/a.mp4"%string eq_refl
                ("/clips", "/data/clips")%string).
  cbn in H. assert (11 <= 5)%nat; [|lia].
  apply H; [set_solver|reflexivity].
Qed.

(** *** Link extractor *)

Lemma elem_of_add_new urls v u : u ∈ add_new urls v <-> u ∈ urls \/ u = v.
Proof.
  unfold add_new. case_bool_decide as Hv.
  - split; [by left|]. by intros [?| ->].
  - rewrite elem_of_app, list_elem_of_singleton. done.
Qed.

Lemma extending_id : extending (fun urls => urls).
Proof. intros urls u. split; [by left|]. intros [?|H]; [done|]. by apply elem_of_nil in H. Qed.

Lemma extending_foldl {A} (body : list string -> A -> list string) (xs : list A) :
  (forall x, extending (fun urls => body urls x)) ->
  extending (fun urls => foldl body urls xs).
Proof.
  intros Hb. induction xs as [|x xs IH]; [apply extending_id|].
  intros urls u. cbn [foldl]. rewrite (IH (body urls x)), (IH (body [] x)).
  rewrite (Hb x urls). tauto.
Qed.

Lemma extending_add_new v : extending (fun urls => add_new urls v).
Proof.
  intros urls u. rewrite !elem_of_add_new. split; [tauto|].
  intros [?|[H|?]]; [tauto| |tauto]. by apply elem_of_nil in H.
Qed.

Lemma extending_add_all us : extending (fun urls => add_all urls us).
Proof. apply extending_foldl. intros v. apply extending_add_new. Qed.

Lemma elem_of_add_all urls us u : u ∈ add_all urls us <-> u ∈ urls \/ u ∈ us.
Proof.
  revert urls. induction us as [|v us IH]; intros urls; cbn [add_all foldl].
  - split; [by left|]. intros [?|H]; [done|]. by apply elem_of_nil in H.
  - fold (add_all (add_new urls v) us). rewrite IH, elem_of_add_new, elem_of_cons. tauto.
Qed.

Lemma extending_compose F G : extending F -> extending G -> extending (fun urls => G (F urls)).
Proof.
  intros HF HG urls u. rewrite (HG (F urls)), (HG (F [])), (HF urls). tauto.
Qed.

Section ExtractorFacts.

Context (findall_bili : string -> list string).
Context (urlparse_query : string -> option string).
Context (parse_qs : string -> list (string * list string)).
Context (unquote : string -> string).
Context (json_loads : string -> option pyval).
Context (seg_str : segment -> string).
Context (findall_av findall_av_url : string -> list string).

Local Abbreviation forwarded_urls := (forwarded_urls findall_bili urlparse_query parse_qs unquote).
Local Abbreviation find_urls_in_text :=
  (find_urls_in_text findall_bili urlparse_query parse_qs unquote).
Local Abbreviation json_leaf_urls :=
  (json_leaf_urls findall_bili urlparse_query parse_qs unquote json_loads).
Local Abbreviation segment_payload := (segment_payload seg_str).
Local Abbreviation scan_segment :=
  (scan_segment findall_bili urlparse_query parse_qs unquote json_loads seg_str).
Local Abbreviation scan_segments :=
  (scan_segments findall_bili urlparse_query parse_qs unquote json_loads seg_str).
Local Abbreviation segment_candidates :=
  (segment_candidates findall_bili urlparse_query parse_qs unquote json_loads seg_str).
Local Abbreviation scan_legacy_ids := (scan_legacy_ids findall_av findall_av_url).
Local Abbreviation extract_bili_urls_from_event :=
  (extract_bili_urls_from_event findall_bili urlparse_query parse_qs unquote
     json_loads seg_str findall_av findall_av_url).


(** The URL finder raises exactly on a payload that is not textual. *)
Lemma find_urls_in_text_textual v :
  textual v = true -> is_Some (find_urls_in_text v).
Proof.
  unfold find_urls_in_text, py_or, textual.
  destruct v as [|b|n|s|items|entries]; cbn [py_truthy negb].
  - by eexists.
  - intros ->%negb_true_iff. by eexists.
  - intros ->%negb_true_iff. by eexists.
  - intros _. destruct (py_truthy_str s); by eexists.
  - destruct items; [by eexists|done].
  - destruct entries; [by eexists|done].
Qed.

Lemma find_urls_in_text_not_textual v :
  textual v = false -> find_urls_in_text v = None.
Proof.
  unfold find_urls_in_text, py_or, textual.
  destruct v as [|b|n|s|items|entries]; cbn [py_truthy negb].
  - done.
  - by intros ->%negb_false_iff.
  - by intros ->%negb_false_iff.
  - done.
  - by destruct items.
  - by destruct entries.
Qed.


Lemma extending_json_leaf_urls raw : extending (json_leaf_urls raw).
Proof.
  unfold json_leaf_urls. destruct raw as [| | |r| |]; try apply extending_id.
  destruct (json_loads r) as [obj|]; [|apply extending_id].
  apply extending_foldl. intros s. destruct (find_urls_in_text (PStr s)).
  - apply extending_add_all.
  - apply extending_id.
Qed.

(** One iteration fails exactly when the payload is not textual, whatever
    has been collected so far; otherwise it extends the list with the
    segment's own candidates. *)
Lemma scan_segment_textual seg urls :
  textual (segment_payload seg) = true ->
  exists urls',
    scan_segment seg urls = Some urls' /\
    forall u, u ∈ urls' <-> u ∈ urls \/ u ∈ segment_candidates seg.
Proof.
  intros Ht. destruct (find_urls_in_text_textual _ Ht) as [us Hus].
  unfold segment_candidates, scan_segment. rewrite Hus. cbn [mbind option_bind].
  destruct (bool_decide (seg_type seg = "json"%string)); eexists; (split; [done|]);
    intros u; cbn [default].
  - pose proof (extending_compose _ _ (extending_add_all us)
                  (extending_json_leaf_urls (segment_payload seg))) as H.
    apply (H urls u).
  - apply (extending_add_all us urls u).
Qed.

Lemma scan_segment_not_textual seg urls :
  textual (segment_payload seg) = false -> scan_segment seg urls = None.
Proof.
  intros Ht. unfold scan_segment.
  by rewrite (find_urls_in_text_not_textual _ Ht).
Qed.



Lemma scan_segments_complete segs urls :
  Forall (fun seg => textual (segment_payload seg) = true) segs ->
  (scan_segments segs urls).2 = true.
Proof.
  intros Hs. revert urls. induction Hs as [|s segs Hs Hsegs IH]; intros urls; [done|].
  cbn [scan_segments].
  destruct (scan_segment_textual s urls Hs) as (urls' & -> & _). apply IH.
Qed.



End ExtractorFacts.

Example extract_card_and_text :
  sample_extract
    (Event [json_segment (PStr sample_card);
            text_segment "look https://www.bilibili.com/video/av170001/ av170001"]
           (Some "look https://www.bilibili.com/video/av170001/ av170001"%string)) =
  ["https://b23.tv/Ab12?share=1"; "https://www.bilibili.com/video/av170001/";
   "av170001"]%string.
Proof. reflexivity. Qed.

Example extract_forwarded_link :
  sample_extract
    (Event [text_segment "https://q.example/?url=https%3A%2F%2Fb23.tv%2Fq1"] None) =
  ["https://b23.tv/q1"]%string.
Proof. reflexivity. Qed.




(* ================================================================== *)
(** * Further properties *)

(** *** Identifier codec: collisions *)

Lemma table_NoDup : NoDup table_chars.
Proof. apply (bool_decide_unpack _). by vm_compute. Qed.

Lemma table_getitem_inj k1 k2 c :
  0 <= k1 < 58 -> 0 <= k2 < 58 ->
  py_getitem table_chars k1 = Some c -> py_getitem table_chars k2 = Some c -> k1 = k2.
Proof.
  intros H1 H2. unfold py_getitem.
  rewrite !py_index_in_range by (rewrite table_length; lia). cbn.
  intros E1 E2. pose proof (NoDup_lookup _ _ _ _ table_NoDup E1 E2). lia.
Qed.

Lemma bv_digit_mod x i :
  0 <= i < 6 -> bv_digit (x mod bv_modulus) i = bv_digit x i.
Proof.
  intros Hi. unfold bv_digit, bv_modulus.
  rewrite (Z.div_mod x (58 ^ 6)) at 2 by lia.
  replace (58 ^ 6) with (58 ^ i * (58 * 58 ^ (5 - i))) at 2.
  2:{ rewrite <- Z.pow_succ_r, <- Z.pow_add_r by lia. f_equal. lia. }
  rewrite <- Z.mul_assoc, (Z.mul_comm (58 ^ i)), Z.div_add_l by (apply Z.pow_nonzero; lia).
  rewrite <- Z.mul_assoc, (Z.mul_comm 58), Z.add_comm, Z_mod_plus_full. reflexivity.
Qed.

Lemma bv_digits_sum x :
  x mod bv_modulus =
    bv_digit x 0 + 58 * (bv_digit x 1 + 58 * (bv_digit x 2 + 58 * (bv_digit x 3
      + 58 * (bv_digit x 4 + 58 * bv_digit x 5)))).
Proof.
  rewrite <- !(bv_digit_mod x) by lia.
  pose proof (Z.mod_pos_bound x bv_modulus ltac:(unfold bv_modulus; lia)) as Hr.
  generalize dependent (x mod bv_modulus). intros r Hr. unfold bv_digit, bv_modulus in *.
  change (58 ^ 0) with 1. change (58 ^ 1) with 58.
  rewrite Z.div_1_r.
  replace (r / 58 ^ 2) with (r / 58 / 58) by (rewrite Z.div_div by lia; f_equal).
  replace (r / 58 ^ 3) with (r / 58 / 58 / 58) by (rewrite !Z.div_div by lia; f_equal).
  replace (r / 58 ^ 4) with (r / 58 / 58 / 58 / 58) by (rewrite !Z.div_div by lia; f_equal).
  replace (r / 58 ^ 5) with (r / 58 / 58 / 58 / 58 / 58) by (rewrite !Z.div_div by lia; f_equal).
  assert (r / 58 / 58 / 58 / 58 / 58 < 58).
  { repeat (apply Z.div_lt_upper_bound; [lia|]). lia. }
  assert (0 <= r / 58 / 58 / 58 / 58 / 58) by (repeat apply Z.div_pos; lia).
  rewrite (Z.mod_small (r / 58 / 58 / 58 / 58 / 58)) by lia.
  pose proof (Z.div_mod r 58 ltac:(lia)).
  pose proof (Z.div_mod (r / 58) 58 ltac:(lia)).
  pose proof (Z.div_mod (r / 58 / 58) 58 ltac:(lia)).
  pose proof (Z.div_mod (r / 58 / 58 / 58) 58 ltac:(lia)).
  pose proof (Z.div_mod (r / 58 / 58 / 58 / 58) 58 ltac:(lia)).
  lia.
Qed.

Lemma bv_digits_eq_iff x y :
  (forall i, i ∈ [0; 1; 2; 3; 4; 5] -> bv_digit x i = bv_digit y i) <->
  x mod bv_modulus = y mod bv_modulus.
Proof.
  split.
  - intros H. rewrite !bv_digits_sum.
    rewrite (H 0), (H 1), (H 2), (H 3), (H 4), (H 5) by set_solver. reflexivity.
  - intros H i Hi. rewrite <- (bv_digit_mod x), <- (bv_digit_mod y), H; [done| |].
    all: repeat (apply elem_of_cons in Hi as [->|Hi]; [lia|]); by apply elem_of_nil in Hi.
Qed.

(** Two identifiers have the same encoding exactly when their digits
    agree. *)
Lemma bili_av_to_bv_eq_digits a b :
  bili_av_to_bv a = bili_av_to_bv b <->
  (forall i, i ∈ [0; 1; 2; 3; 4; 5] ->
     bv_digit (Z.lxor a xor + add) i = bv_digit (Z.lxor b xor + add) i).
Proof.
  destruct (bili_av_to_bv_shape a) as (a0 & a1 & a2 & a3 & a4 & a5 & Ha). cbn zeta in Ha.
  destruct Ha as (A0 & A1 & A2 & A3 & A4 & A5 & ->).
  destruct (bili_av_to_bv_shape b) as (b0 & b1 & b2 & b3 & b4 & b5 & Hb). cbn zeta in Hb.
  destruct Hb as (B0 & B1 & B2 & B3 & B4 & B5 & ->).
  split.
  - intros [= -> -> -> -> -> ->] i Hi.
    repeat (apply elem_of_cons in Hi as [->|Hi];
            [eapply table_getitem_inj; eauto using bv_digit_range|]).
    by apply elem_of_nil in Hi.
  - intros H.
    rewrite (H 0), (H 1), (H 2), (H 3), (H 4), (H 5) in * by set_solver.
    congruence.
Qed.

(** X1. Two numeric ids get the same alphanumeric id exactly when their
    transformed values [(aid ^ xor) + add] agree modulo [58 ** 6]: the six
    base-58 digits are all the encoder keeps, so it wraps around beyond
    that. *)
Theorem bili_av_to_bv_collision (a b : Z) :
  bili_av_to_bv a = bili_av_to_bv b <->
  (Z.lxor a xor + add) mod bv_modulus = (Z.lxor b xor + add) mod bv_modulus.
Proof. by rewrite bili_av_to_bv_eq_digits, bv_digits_eq_iff. Qed.

Lemma lxor_bound a : 0 <= a < 2 ^ 34 -> 0 <= Z.lxor a xor < 2 ^ 34.
Proof.
  intros [H0 H1]. split; [apply Z.lxor_nonneg; unfold xor; lia|].
  destruct (Z.eq_dec (Z.lxor a xor) 0) as [->|Hne]; [lia|].
  assert (0 < Z.lxor a xor) by (pose proof (proj2 (Z.lxor_nonneg a xor)); unfold xor in *; lia).
  apply Z.log2_lt_pow2; [lia|].
  eapply Z.le_lt_trans; [apply Z.log2_lxor; unfold xor; lia|].
  apply Z.max_lub_lt.
  - destruct (Z.eq_dec a 0) as [->|]; [done|]. apply Z.log2_lt_pow2; lia.
  - by vm_compute.
Qed.

(** X2. On the ids below [2 ** 34] the encoder is injective: distinct
    numeric ids never share an alphanumeric id. *)
Theorem bili_av_to_bv_injective (a b : Z)
    (Ha : 0 <= a < 2 ^ 34) (Hb : 0 <= b < 2 ^ 34) :
  bili_av_to_bv a = bili_av_to_bv b -> a = b.
Proof.
  rewrite bili_av_to_bv_eq_digits, bv_digits_eq_iff.
  pose proof (lxor_bound a Ha). pose proof (lxor_bound b Hb).
  unfold bv_modulus, add. rewrite !Z.mod_small by lia. intros E.
  assert (E' : Z.lxor a xor = Z.lxor b xor) by lia.
  rewrite <- (Z.lxor_0_r a), <- (Z.lxor_0_r b), <- (Z.lxor_nilpotent xor).
  by rewrite <- !Z.lxor_assoc, E'.
Qed.

Lemma bili_av_to_bv_injective_witness :
  0 <= 170001 < 2 ^ 34 /\ 0 <= 2 < 2 ^ 34 /\
  (bili_av_to_bv 170001 = bili_av_to_bv 2 -> 170001 = 2).
Proof.
  split; [lia|]. split; [lia|]. apply bili_av_to_bv_injective; lia.
Defined.

(** The first wrap-around: the id [38339504704] shares the encoding of
    the id [0]. *)
Example bili_av_to_bv_wraps :
  bili_av_to_bv 38339504704 = bili_av_to_bv 0 /\
  bili_av_to_bv 0 = Some "BV1xx411c7mX"%string.
Proof. split; reflexivity. Qed.

(** *** [_walk_strings] *)

Lemma pyval_nested_ind (P : pyval -> Prop) :
  P PNone -> (forall b, P (PBool b)) -> (forall n, P (PNum n)) -> (forall s, P (PStr s)) ->
  (forall items, Forall P items -> P (PList items)) ->
  (forall entries, Forall (fun kv => P kv.2) entries -> P (PDict entries)) ->
  forall v, P v.
Proof.
  intros HN HB HZ HS HL HD. fix IH 1. intros [|b|n|s|items|entries].
  - exact HN.
  - apply HB.
  - apply HZ.
  - apply HS.
  - apply HL. induction items as [|v items IHitems]; constructor; [apply IH|exact IHitems].
  - apply HD. induction entries as [|[k v] entries IHentries]; constructor;
      [apply IH|exact IHentries].
Qed.

(** X3. [_walk_strings] returns exactly the string leaves of a decoded
    payload: a string it returns sits in the value itself, in a list item
    or in a dict value at some depth, and every such string is returned;
    dict keys, numbers, booleans and [None] contribute nothing. *)
Theorem walk_strings_leaves (obj : pyval) (s : string) :
  s ∈ walk_strings obj <-> string_leaf s obj.
Proof.
  split.
  - revert s. induction obj as [|b|n|s'|items IH|entries IH] using pyval_nested_ind;
      intros s; cbn [walk_strings]; try (by intros ?%elem_of_nil).
    + intros ->%list_elem_of_singleton. constructor.
    + rewrite list_elem_of_In, in_flat_map. intros (v & Hv & Hs).
      apply list_elem_of_In in Hv, Hs. rewrite Forall_forall in IH.
      eapply leaf_item; [exact Hv|]. by apply IH.
    + rewrite list_elem_of_In, in_flat_map. intros ([k v] & Hv & Hs).
      apply list_elem_of_In in Hv, Hs. rewrite Forall_forall in IH.
      eapply leaf_value; [exact Hv|]. by apply (IH (k, v)).
  - induction 1 as [|items v Hv _ IH|entries k v Hv _ IH]; cbn [walk_strings].
    + by left.
    + rewrite list_elem_of_In, in_flat_map. exists v. by rewrite <- !list_elem_of_In.
    + rewrite list_elem_of_In, in_flat_map. exists (k, v). by rewrite <- !list_elem_of_In.
Qed.

(** *** Link extractor: duplicates, order, sources *)

Lemma elem_of_foldl_extending {A} (body : list string -> A -> list string) xs urls u :
  (forall x, extending (fun urls => body urls x)) ->
  u ∈ foldl body urls xs <-> u ∈ urls \/ exists x, x ∈ xs /\ u ∈ body [] x.
Proof.
  intros Hb. revert urls. induction xs as [|x xs IH]; intros urls; cbn [foldl].
  - split; [by left|]. intros [?|(x & Hx & _)]; [done|]. by apply elem_of_nil in Hx.
  - rewrite IH, (Hb x urls). split.
    + intros [[?|?]|(y & Hy & ?)]; [by left| |].
      * right. exists x. split; [by left|done].
      * right. exists y. split; [by right|done].
    + intros [?|(y & [->|Hy]%elem_of_cons & ?)]; [by left; left|by left; right|].
      right. by exists y.
Qed.

Lemma keeps_nodup_add_new v : keeps_nodup (fun urls => add_new urls v).
Proof.
  intros urls H. unfold add_new. case_bool_decide as Hv; [done|].
  apply NoDup_app. split; [done|]. split; [|apply NoDup_singleton].
  intros x Hx ->%list_elem_of_singleton. done.
Qed.

Lemma keeps_nodup_foldl {A} (body : list string -> A -> list string) (xs : list A) :
  (forall x, keeps_nodup (fun urls => body urls x)) ->
  keeps_nodup (fun urls => foldl body urls xs).
Proof.
  intros Hb. induction xs as [|x xs IH]; intros urls H; cbn [foldl]; [done|].
  apply IH. by apply Hb.
Qed.

Lemma keeps_nodup_add_all us : keeps_nodup (fun urls => add_all urls us).
Proof. apply keeps_nodup_foldl. intros v. apply keeps_nodup_add_new. Qed.

Lemma appending_add_new v : appending (fun urls => add_new urls v).
Proof.
  intros urls. unfold add_new. case_bool_decide; [done|]. by apply prefix_app_r.
Qed.

Lemma appending_foldl {A} (body : list string -> A -> list string) (xs : list A) :
  (forall x, appending (fun urls => body urls x)) ->
  appending (fun urls => foldl body urls xs).
Proof.
  intros Hb. induction xs as [|x xs IH]; intros urls; cbn [foldl]; [done|].
  etrans; [apply (Hb x)|apply IH].
Qed.

Lemma appending_add_all us : appending (fun urls => add_all urls us).
Proof. apply appending_foldl. intros v. apply appending_add_new. Qed.

Lemma keeps_nodup_foldl_add_new {A} (f : A -> string) (xs : list A) :
  keeps_nodup (fun urls => foldl (fun urls m => add_new urls (f m)) urls xs).
Proof. apply keeps_nodup_foldl. intros m. apply keeps_nodup_add_new. Qed.

Lemma appending_foldl_add_new {A} (f : A -> string) (xs : list A) :
  appending (fun urls => foldl (fun urls m => add_new urls (f m)) urls xs).
Proof. apply appending_foldl. intros m. apply appending_add_new. Qed.

Section ExtractorOrder.

Context (findall_bili : string -> list string).
Context (urlparse_query : string -> option string).
Context (parse_qs : string -> list (string * list string)).
Context (unquote : string -> string).
Context (json_loads : string -> option pyval).
Context (seg_str : segment -> string).
Context (findall_av findall_av_url : string -> list string).

Local Abbreviation forwarded_urls := (forwarded_urls findall_bili urlparse_query parse_qs unquote).
Local Abbreviation find_urls_in_text :=
  (find_urls_in_text findall_bili urlparse_query parse_qs unquote).
Local Abbreviation json_leaf_urls :=
  (json_leaf_urls findall_bili urlparse_query parse_qs unquote json_loads).
Local Abbreviation scan_segment :=
  (scan_segment findall_bili urlparse_query parse_qs unquote json_loads seg_str).
Local Abbreviation scan_segments :=
  (scan_segments findall_bili urlparse_query parse_qs unquote json_loads seg_str).
Local Abbreviation segment_candidates :=
  (segment_candidates findall_bili urlparse_query parse_qs unquote json_loads seg_str).
Local Abbreviation scan_legacy_ids := (scan_legacy_ids findall_av findall_av_url).

Lemma forwarded_urls_steps s :
  keeps_nodup (forwarded_urls s) /\ appending (forwarded_urls s).
Proof.
  unfold forwarded_urls. destruct (urlparse_query s) as [q|]; [|by split; intros ?].
  destruct (py_truthy_str q); [|by split; intros ?]. split.
  - apply keeps_nodup_foldl. intros key. apply keeps_nodup_foldl. intros v.
    apply keeps_nodup_add_all.
  - apply appending_foldl. intros key. apply appending_foldl. intros v.
    apply appending_add_all.
Qed.

Lemma find_urls_in_text_nodup v us : find_urls_in_text v = Some us -> NoDup us.
Proof.
  unfold find_urls_in_text. destruct (py_or v (PStr EmptyString)) as [| | |t| |]; try done.
  assert (H : NoDup (add_all [] (findall_bili t))) by (apply keeps_nodup_add_all, NoDup_nil_2).
  destruct v; intros [= <-]; try done. by apply forwarded_urls_steps.
Qed.

Lemma elem_of_forwarded_urls s urls u :
  u ∈ forwarded_urls s urls <->
  u ∈ urls \/
  exists query key v,
    urlparse_query s = Some query /\ query <> EmptyString /\
    key ∈ forwarded_keys /\ v ∈ dict_get key (parse_qs query) [] /\
    u ∈ findall_bili (unquote v).
Proof.
  unfold forwarded_urls. destruct (urlparse_query s) as [q|].
  2:{ split; [by left|]. by intros [?|(? & ? & ? & ? & _)]. }
  destruct q as [|c q]; cbn [py_truthy_str].
  { split; [by left|]. by intros [?|(? & ? & ? & [= <-] & ? & _)]. }
  rewrite elem_of_foldl_extending.
  2:{ intros key. apply extending_foldl. intros v. apply extending_add_all. }
  apply or_iff_compat_l. split.
  - intros (key & Hkey & Hu). apply elem_of_foldl_extending in Hu.
    2:{ intros v. apply extending_add_all. }
    destruct Hu as [Hu|(v & Hv & Hu)]; [by apply elem_of_nil in Hu|].
    apply elem_of_add_all in Hu as [Hu|Hu]; [by apply elem_of_nil in Hu|].
    by exists (String c q), key, v.
  - intros (query & key & v & [= <-] & _ & Hkey & Hv & Hu). exists key. split; [done|].
    apply elem_of_foldl_extending; [intros w; apply extending_add_all|].
    right. exists v. split; [done|]. apply elem_of_add_all. by right.
Qed.

Lemma json_leaf_urls_steps raw :
  keeps_nodup (json_leaf_urls raw) /\ appending (json_leaf_urls raw).
Proof.
  unfold json_leaf_urls. destruct raw as [| | |r| |]; try (by split; intros ?).
  destruct (json_loads r) as [obj|]; [|by split; intros ?]. split.
  - apply keeps_nodup_foldl. intros s. destruct (find_urls_in_text (PStr s)); [|by intros ?].
    apply keeps_nodup_add_all.
  - apply appending_foldl. intros s. destruct (find_urls_in_text (PStr s)); [|by intros ?].
    apply appending_add_all.
Qed.

Lemma scan_segment_steps seg urls urls' :
  scan_segment seg urls = Some urls' ->
  (NoDup urls -> NoDup urls') /\ urls `prefix_of` urls'.
Proof.
  unfold scan_segment.
  destruct (find_urls_in_text (segment_payload seg_str seg)) as [us|]; [|done].
  cbn [mbind option_bind].
  destruct (bool_decide (seg_type seg = "json"%string)); intros [= <-].
  - split.
    + intros H. by apply json_leaf_urls_steps, keeps_nodup_add_all.
    + etrans; [apply appending_add_all|apply json_leaf_urls_steps].
  - split; [apply keeps_nodup_add_all|apply appending_add_all].
Qed.

Lemma scan_segments_steps segs urls :
  (NoDup urls -> NoDup (scan_segments segs urls).1) /\
  urls `prefix_of` (scan_segments segs urls).1.
Proof.
  revert urls. induction segs as [|seg segs IH]; intros urls; [done|].
  cbn [scan_segments].
  destruct (scan_segment seg urls) as [urls'|] eqn:Hs; [|done].
  destruct (scan_segment_steps _ _ _ Hs) as [Hn Hp]. destruct (IH urls') as [IHn IHp].
  split; [auto|by etrans].
Qed.

Lemma scan_segments_app pre post urls :
  (scan_segments pre urls).1 `prefix_of` (scan_segments (pre ++ post) urls).1.
Proof.
  revert urls. induction pre as [|seg pre IH]; intros urls.
  - apply scan_segments_steps.
  - cbn [app scan_segments]. destruct (scan_segment seg urls); [apply IH|done].
Qed.

Lemma scan_legacy_ids_steps full_text :
  keeps_nodup (scan_legacy_ids full_text) /\ appending (scan_legacy_ids full_text).
Proof.
  unfold scan_legacy_ids. split.
  - intros urls H. by apply keeps_nodup_foldl_add_new, keeps_nodup_foldl_add_new.
  - intros urls.
    etrans; [|apply (appending_foldl_add_new
                       (fun m => "https://www.bilibili.com/video/av" +:+ m +:+ "/"))].
    apply (appending_foldl_add_new (fun m => "av" +:+ m)).
Qed.

Lemma elem_of_segment_candidates seg u :
  u ∈ segment_candidates seg -> exists t, u ∈ findall_bili t.
Proof.
  assert (Hfind : forall v us, find_urls_in_text v = Some us -> u ∈ us ->
                               exists t, u ∈ findall_bili t).
  { intros v us. unfold find_urls_in_text.
    destruct (py_or v (PStr EmptyString)) as [| | |t| |]; try done.
    assert (Hb : u ∈ add_all [] (findall_bili t) -> exists t, u ∈ findall_bili t).
    { intros [H|H]%elem_of_add_all; [by apply elem_of_nil in H|by exists t]. }
    destruct v; intros [= <-]; try done.
    intros [H|(? & ? & w & _ & _ & _ & _ & H)]%elem_of_forwarded_urls; [auto|].
    by eexists. }
  unfold segment_candidates, scan_segment.
  destruct (find_urls_in_text (segment_payload seg_str seg)) as [us|] eqn:Hus;
    cbn [mbind option_bind default]; [|by intros ?%elem_of_nil].
  assert (Hus' : u ∈ add_all [] us -> exists t, u ∈ findall_bili t).
  { intros [H|H]%elem_of_add_all; [by apply elem_of_nil in H|by eapply Hfind]. }
  destruct (bool_decide (seg_type seg = "json"%string)); cbn [default]; [|exact Hus'].
  unfold json_leaf_urls. destruct (segment_payload seg_str seg) as [| | |r| |]; try exact Hus'.
  destruct (json_loads r) as [obj|]; [|exact Hus'].
  intros [H|(leaf & _ & H)]%elem_of_foldl_extending; [auto| |].
  - destruct (find_urls_in_text (PStr leaf)) as [ls|] eqn:Hl; [|by apply elem_of_nil in H].
    apply elem_of_add_all in H as [H|H]; [by apply elem_of_nil in H|by eapply Hfind].
  - intros leaf. destruct (find_urls_in_text (PStr leaf)); [apply extending_add_all|apply extending_id].
Qed.

Lemma elem_of_scan_segments segs urls u :
  u ∈ (scan_segments segs urls).1 ->
  u ∈ urls \/ exists seg, seg ∈ segs /\ u ∈ segment_candidates seg.
Proof.
  revert urls. induction segs as [|seg segs IH]; intros urls; [by left|].
  cbn [scan_segments].
  destruct (textual (segment_payload seg_str seg)) eqn:Ht.
  - destruct (scan_segment_textual findall_bili urlparse_query parse_qs unquote
                json_loads seg_str seg urls Ht) as (urls' & -> & Hin).
    intros [H|(seg' & Hseg' & H)]%IH.
    + apply Hin in H as [H|H]; [by left|]. right. exists seg. split; [by left|done].
    + right. exists seg'. split; [by right|done].
  - rewrite (scan_segment_not_textual findall_bili urlparse_query parse_qs unquote
               json_loads seg_str _ _ Ht). by left.
Qed.

End ExtractorOrder.

(** X4. For a text [s], [_find_urls_in_text] returns without duplicates
    exactly the links the pattern finds in [s] itself and the links it
    finds, after percent-decoding, in the values of the query parameters
    [url], [qqdocurl], [jumpUrl] and [webpageUrl] of [s]; no other
    parameter is looked at, and a text whose URL parsing raises or whose
    query is empty contributes only the direct matches. *)
Theorem find_urls_in_text_links
    (findall_bili : string -> list string)
    (urlparse_query : string -> option string)
    (parse_qs : string -> list (string * list string))
    (unquote : string -> string) (s : string) :
  exists us,
    find_urls_in_text findall_bili urlparse_query parse_qs unquote (PStr s) = Some us /\
    NoDup us /\
    forall u,
      u ∈ us <->
      u ∈ findall_bili s \/
      exists query key v,
        urlparse_query s = Some query /\ query <> EmptyString /\
        key ∈ ["url"; "qqdocurl"; "jumpUrl"; "webpageUrl"]%string /\
        v ∈ dict_get key (parse_qs query) [] /\
        u ∈ findall_bili (unquote v).
Proof.
  assert (Hs : find_urls_in_text findall_bili urlparse_query parse_qs unquote (PStr s) =
               Some (forwarded_urls findall_bili urlparse_query parse_qs unquote s
                       (add_all [] (findall_bili s)))).
  { unfold find_urls_in_text, py_or. cbn [py_truthy]. by destruct s. }
  eexists. split; [exact Hs|]. split; [by eapply find_urls_in_text_nodup|].
  intros u. rewrite elem_of_forwarded_urls, elem_of_add_all.
  split; [|tauto]. intros [[H|H]|H]; [by apply elem_of_nil in H|tauto|tauto].
Qed.

(** X5. The extractor never returns the same candidate twice, whatever
    the message and however often a link occurs in it. *)
Theorem extract_no_duplicates
    (findall_bili : string -> list string)
    (urlparse_query : string -> option string)
    (parse_qs : string -> list (string * list string))
    (unquote : string -> string)
    (json_loads : string -> option pyval)
    (seg_str : segment -> string)
    (findall_av findall_av_url : string -> list string) (ev : event) :
  NoDup (extract_bili_urls_from_event findall_bili urlparse_query parse_qs unquote
           json_loads seg_str findall_av findall_av_url ev).
Proof.
  unfold extract_bili_urls_from_event.
  pose proof (proj1 (scan_segments_steps findall_bili urlparse_query parse_qs unquote
                       json_loads seg_str (message ev) []) (NoDup_nil_2)) as H.
  destruct (scan_segments _ _ _ _ _ _ (message ev) []) as [urls [|]]; cbn [fst] in H; [|done].
  by apply scan_legacy_ids_steps.
Qed.

(** X6. Every candidate the extractor returns is a match of the link
    pattern in some text, or [av<digits>] for digits the bare legacy
    pattern found in the plain-text rendering, or the rebuilt
    [https://www.bilibili.com/video/av<digits>/] for digits the legacy URL
    pattern found there: nothing else is ever put in the list. *)
Theorem extract_sources
    (findall_bili : string -> list string)
    (urlparse_query : string -> option string)
    (parse_qs : string -> list (string * list string))
    (unquote : string -> string)
    (json_loads : string -> option pyval)
    (seg_str : segment -> string)
    (findall_av findall_av_url : string -> list string) (ev : event) (u : string) :
  u ∈ extract_bili_urls_from_event findall_bili urlparse_query parse_qs unquote
        json_loads seg_str findall_av findall_av_url ev ->
  (exists t, u ∈ findall_bili t) \/
  (exists m, m ∈ findall_av (default EmptyString (plaintext ev)) /\ u = "av" +:+ m) \/
  (exists m, m ∈ findall_av_url (default EmptyString (plaintext ev)) /\
             u = "https://www.bilibili.com/video/av" +:+ m +:+ "/").
Proof.
  assert (Hscan : u ∈ (scan_segments findall_bili urlparse_query parse_qs unquote
                         json_loads seg_str (message ev) []).1 ->
                  exists t, u ∈ findall_bili t).
  { intros [H|(seg & _ & H)]%elem_of_scan_segments; [by apply elem_of_nil in H|].
    by eapply elem_of_segment_candidates. }
  unfold extract_bili_urls_from_event.
  destruct (scan_segments _ _ _ _ _ _ (message ev) []) as [urls [|]]; cbn [fst] in Hscan;
    [|by left; auto].
  unfold scan_legacy_ids.
  intros [H|(m & Hm & H)]%elem_of_foldl_extending; [| |intros m; apply extending_add_new].
  - apply elem_of_foldl_extending in H as [H|(m & Hm & H)]; [by left; auto| |].
    + right. left. exists m. split; [done|].
      apply elem_of_add_new in H as [H|H]; [by apply elem_of_nil in H|done].
    + intros m. apply extending_add_new.
  - right. right. exists m. split; [done|].
    apply elem_of_add_new in H as [H|H]; [by apply elem_of_nil in H|done].
Qed.

Lemma extract_sources_witness :
  let ev := Event [text_segment "old http://www.bilibili.com/video/av170001/?p=2 and av2"]
                  (Some "old http://www.bilibili.com/video/av170001/?p=2 and av2"%string) in
  let u := "av2"%string in
  u ∈ extract_bili_urls_from_event ascii_findall_bili ascii_urlparse_query ascii_parse_qs
        ascii_unquote sample_json_loads sample_seg_str ascii_findall_av ascii_findall_av_url ev /\
  ((exists t, u ∈ ascii_findall_bili t) \/
   (exists m, m ∈ ascii_findall_av (default EmptyString (plaintext ev)) /\ u = "av" +:+ m) \/
   (exists m, m ∈ ascii_findall_av_url (default EmptyString (plaintext ev)) /\
              u = "https://www.bilibili.com/video/av" +:+ m +:+ "/")).
Proof.
  intros ev u.
  assert (H : u ∈ extract_bili_urls_from_event ascii_findall_bili ascii_urlparse_query
                    ascii_parse_qs ascii_unquote sample_json_loads sample_seg_str
                    ascii_findall_av ascii_findall_av_url ev)
    by (vm_compute; set_solver).
  split; [exact H|].
  exact (extract_sources ascii_findall_bili ascii_urlparse_query ascii_parse_qs
           ascii_unquote sample_json_loads sample_seg_str ascii_findall_av
           ascii_findall_av_url ev u H).
Defined.

(** X7. Candidates keep first-seen order: what the segment loop has
    collected from the first segments of a message stays at the front of
    the result, in the same order, whatever segments and plain text
    follow. *)
Theorem extract_first_seen_order
    (findall_bili : string -> list string)
    (urlparse_query : string -> option string)
    (parse_qs : string -> list (string * list string))
    (unquote : string -> string)
    (json_loads : string -> option pyval)
    (seg_str : segment -> string)
    (findall_av findall_av_url : string -> list string)
    (pre post : list segment) (pt : option string) :
  (scan_segments findall_bili urlparse_query parse_qs unquote json_loads seg_str pre []).1
    `prefix_of`
  extract_bili_urls_from_event findall_bili urlparse_query parse_qs unquote
    json_loads seg_str findall_av findall_av_url (Event (pre ++ post) pt).
Proof.
  etrans; [apply scan_segments_app with (post := post)|].
  unfold extract_bili_urls_from_event. cbn [message plaintext].
  destruct (scan_segments _ _ _ _ _ _ (pre ++ post) []) as [urls [|]]; cbn [fst]; [|done].
  apply scan_legacy_ids_steps.
Qed.

(** X8. When every segment payload is textual, every run of digits the
    bare [av<digits>] pattern finds in the plain-text rendering yields the
    candidate [av<digits>], and every run the legacy URL pattern finds
    yields [https://www.bilibili.com/video/av<digits>/], rebuilt with the
    canonical host and a trailing slash. *)
Theorem extract_legacy_forms
    (findall_bili : string -> list string)
    (urlparse_query : string -> option string)
    (parse_qs : string -> list (string * list string))
    (unquote : string -> string)
    (json_loads : string -> option pyval)
    (seg_str : segment -> string)
    (findall_av findall_av_url : string -> list string)
    (segs : list segment) (full_text : string) :
  let result :=
    extract_bili_urls_from_event findall_bili urlparse_query parse_qs unquote
      json_loads seg_str findall_av findall_av_url (Event segs (Some full_text)) in
  Forall (fun seg => textual (segment_payload seg_str seg) = true) segs ->
  (forall m, m ∈ findall_av full_text -> ("av" +:+ m) ∈ result) /\
  (forall m, m ∈ findall_av_url full_text ->
             ("https://www.bilibili.com/video/av" +:+ m +:+ "/") ∈ result).
Proof.
  intros result Hsegs. subst result. unfold extract_bili_urls_from_event.
  cbn [message plaintext default].
  pose proof (scan_segments_complete findall_bili urlparse_query parse_qs unquote
                json_loads seg_str segs [] Hsegs) as Hc.
  destruct (scan_segments _ _ _ _ _ _ segs []) as [urls ok]. cbn [snd] in Hc. subst ok.
  unfold scan_legacy_ids. split; intros m Hm.
  - apply (extending_foldl _ _ (fun m => extending_add_new _)). left.
    apply elem_of_foldl_extending; [intros w; apply extending_add_new|].
    right. exists m. split; [done|]. apply elem_of_add_new. by right.
  - apply elem_of_foldl_extending; [intros w; apply extending_add_new|].
    right. exists m. split; [done|]. apply elem_of_add_new. by right.
Qed.

Lemma extract_legacy_forms_witness :
  Forall (fun seg => textual (segment_payload sample_seg_str seg) = true)
         [text_segment "old http://www.bilibili.com/video/av170001/?p=2 and av2"] /\
  ("av" +:+ "170001") ∈
    extract_bili_urls_from_event ascii_findall_bili ascii_urlparse_query ascii_parse_qs
      ascii_unquote sample_json_loads sample_seg_str ascii_findall_av ascii_findall_av_url
      (Event [text_segment "old http://www.bilibili.com/video/av170001/?p=2 and av2"]
             (Some "old http://www.bilibili.com/video/av170001/?p=2 and av2"%string)).
Proof.
  assert (Hs : Forall (fun seg => textual (segment_payload sample_seg_str seg) = true)
                 [text_segment "old http://www.bilibili.com/video/av170001/?p=2 and av2"])
    by (by repeat constructor).
  split; [exact Hs|].
  refine (proj1 (extract_legacy_forms ascii_findall_bili ascii_urlparse_query ascii_parse_qs
              ascii_unquote sample_json_loads sample_seg_str
              ascii_findall_av ascii_findall_av_url _ _ Hs) "170001"%string _).
  vm_compute. set_solver.
Defined.

(** *** Rendition selector: ranking ties, the returned file *)



Lemma video_title_nonempty info : video_title info <> EmptyString.
Proof.
  unfold video_title, default_title. destruct (info_title info) as [[|c t]|]; done.
Qed.

Lemma download_selected_inv
    (installed : bool) (query : string + info_dict) (engine : string -> download_outcome)
    (height_limit size_limit_mb : Z) (d : gset string) (p t : string) (w : world) :
  download_with_ytdlp installed query engine height_limit size_limit_mb d = (Selected p t, w) ->
  p ∈ disk w /\
  t <> EmptyString /\
  exists f a,
    last (attempts w) = Some f /\
    engine (format_id f) = DlFile p a /\
    (0 < height_limit -> forall h, height f = Some h -> h <= height_limit) /\
    (0 < size_limit_mb -> forall sz, st_size a = Some sz -> sz <= size_limit_mb * (1024 * 1024)).
Proof.
  unfold download_with_ytdlp. destruct installed; cbn [negb]; [|done].
  destruct query as [e|info]; [done|].
  destruct (first_fit_split engine height_limit size_limit_mb
              (candidates (default [] (info_formats info))))
    as [Hl|(pre & f & post & p' & -> & Hpre & Hf)].
  { by rewrite (select_loop_exhausted _ _ _ _ _ _ _ Hl). }
  rewrite (select_loop_first_fit _ _ _ _ _ _ _ _ _ _ Hpre Hf). intros [= -> <- <-].
  cbn [disk attempts app]. split; [set_solver|]. split; [apply video_title_nonempty|].
  unfold fits in Hf. destruct (prechecked height_limit size_limit_mb f) eqn:Hp; [|done].
  destruct (engine (format_id f)) as [| |q a] eqn:He; [done|done|].
  destruct (oversized size_limit_mb a) eqn:Ho; [done|]. injection Hf as ->.
  exists f, a. split; [by rewrite last_snoc|]. split; [done|]. split.
  - intros HL h Hh. destruct (Z.le_gt_cases h height_limit) as [|Hlt]; [done|].
    unfold prechecked in Hp. by rewrite (over_height_exceeds _ _ _ HL Hh Hlt) in Hp.
  - intros HS sz Hsz. unfold oversized in Ho. rewrite Hsz, py_truthy_int_nonzero in Ho by lia.
    cbn [andb] in Ho. unfold exceeds_mb in Ho. apply Z.ltb_ge in Ho. lia.
Qed.



(** *** Post-fetch validator: what it leaves alone *)

(** X11. [validate] never touches a file other than the one it is asked
    about, never creates a file, and leaves an accepted file in place: the
    only change it ever makes to the disk is the deletion of a file it
    rejects for its height. *)
Theorem check_video_file_frame
    (probe : string -> probe_outcome) (locked : string -> bool)
    (max_height : Z) (path : string) (d : gset string) :
  let r := check_video_file probe locked max_height path d in
  (forall q, q <> path -> q ∈ r.2 <-> q ∈ d) /\
  r.2 ⊆ d /\
  (r.1 = true -> r.2 = d).
Proof.
  intros r. subst r. destruct (decide (path ∈ d)) as [Hp|Hp].
  - rewrite (check_video_file_existing _ _ _ _ _ Hp).
    destruct (probe path) as [|rc out]; [by split; [|split]|].
    destruct (rc =? 0); [|by split; [|split]].
    destruct (py_truthy_int max_height); [|by split; [|split]].
    destruct (probed_height out) as [h|]; [|by split; [|split]].
    destruct (max_height <? h); [|by split; [|split]].
    destruct (locked path); cbn [fst snd]; [by split; [|split]|].
    split; [|split]; [set_solver|set_solver|done].
  - unfold check_video_file. rewrite bool_decide_eq_false_2 by exact Hp. by split; [|split].
Qed.

(** *** URL helpers *)

Example ascii_urlparse_sample :
  ascii_urlparse "https://www.Bilibili.com/video/av170001/?aid=5&p=2#t" =
    Some (ParsedUrl "www.bilibili.com" "/video/av170001/" "aid=5&p=2").
Proof. reflexivity. Qed.

Example extract_aid_path_first :
  extract_aid_from_url ascii_urlparse ascii_parse_qs
    "https://www.bilibili.com/video/av170001/?aid=5" = Some 170001.
Proof. reflexivity. Qed.

Example extract_aid_query :
  extract_aid_from_url ascii_urlparse ascii_parse_qs
    "https://www.bilibili.com/player.html?aid=x&avid=av99" = Some 99.
Proof. reflexivity. Qed.

Example extract_bvid_query_first :
  extract_bvid_from_url ascii_urlparse ascii_parse_qs
    "https://www.bilibili.com/video/BV17x411w7KC?bvid=BV1xx411c7mD" = Some "BV1xx411c7mD"%string.
Proof. reflexivity. Qed.

Lemma span_fst_forall p l : Forall (fun c => p c = true) (span p l).1.
Proof.
  induction l as [|c l IH]; cbn [span]; [constructor|].
  destruct (p c) eqn:Hc; [|constructor].
  destruct (span p l) as [run rest]. cbn [fst] in *. by constructor.
Qed.









Lemma search_video_bv_from_shape l found :
  search_video_bv_from l = Some found ->
  exists run, found = list_ascii_of_string "BV" ++ run /\ run <> [] /\
              Forall (fun c => py_isalnum c = true) run.
Proof.
  revert found. induction l as [|c l IH]; intros found; [done|]. cbn [search_video_bv_from].
  destruct (skip_exact (list_ascii_of_string "/video/BV") (c :: l)) as [r|];
    cbn [mbind option_bind]; [|apply IH].
  pose proof (span_fst_forall py_isalnum r) as Hr.
  destruct (span py_isalnum r) as [[|d run] rest]; [apply IH|]. intros [= <-].
  exists (d :: run). by repeat split.
Qed.

Lemma search_video_bv_shape path bv :
  search_video_bv path = Some bv ->
  exists run, bv = "BV" +:+ string_of_list_ascii run /\ run <> [] /\
              Forall (fun c => py_isalnum c = true) run.
Proof.
  unfold search_video_bv.
  destruct (search_video_bv_from (list_ascii_of_string path)) as [found|] eqn:H; [|done].
  intros [= <-]. destruct (search_video_bv_from_shape _ _ H) as (run & -> & Hne & Hrun).
  exists run. by repeat split.
Qed.

(** X13. [_extract_bvid_from_url] prefers the query string to the path:
    the first value of [bvid] (or, failing that, of [bvids]) is returned as
    it stands, whatever the path holds; only without such a parameter is
    the path searched, and what is taken from it is [BV] followed by one
    or more ASCII letters or digits. A URL that cannot be parsed yields
    nothing. *)
Theorem extract_bvid_from_url_result
    (urlparse : string -> option parsed_url)
    (parse_qs : string -> list (string * list string)) (url : string) :
  (forall parsed v0 vals,
     urlparse url = Some parsed ->
     dict_get "bvid" (parse_qs (url_query parsed)) [] = v0 :: vals ->
     extract_bvid_from_url urlparse parse_qs url = Some v0) /\
  (forall parsed v0 vals,
     urlparse url = Some parsed ->
     dict_get "bvid" (parse_qs (url_query parsed)) [] = [] ->
     dict_get "bvids" (parse_qs (url_query parsed)) [] = v0 :: vals ->
     extract_bvid_from_url urlparse parse_qs url = Some v0) /\
  (forall parsed bv,
     urlparse url = Some parsed ->
     dict_get "bvid" (parse_qs (url_query parsed)) [] = [] ->
     dict_get "bvids" (parse_qs (url_query parsed)) [] = [] ->
     extract_bvid_from_url urlparse parse_qs url = Some bv ->
     exists run, bv = "BV" +:+ string_of_list_ascii run /\ run <> [] /\
                 Forall (fun c => py_isalnum c = true) run) /\
  (urlparse url = None -> extract_bvid_from_url urlparse parse_qs url = None).
Proof.
  unfold extract_bvid_from_url. repeat split.
  - by intros parsed v0 vals -> ->.
  - by intros parsed v0 vals -> -> ->.
  - intros parsed bv -> -> ->. apply search_video_bv_shape.
  - by intros ->.
Qed.

Lemma extract_bvid_from_url_result_witness :
  let url := "https://www.bilibili.com/video/BV17x411w7KC?bvid=BV1xx411c7mD"%string in
  ascii_urlparse url =
    Some (ParsedUrl "www.bilibili.com" "/video/BV17x411w7KC" "bvid=BV1xx411c7mD") /\
  extract_bvid_from_url ascii_urlparse ascii_parse_qs url = Some "BV1xx411c7mD"%string.
Proof.
  intros url. split; [reflexivity|].
  destruct (extract_bvid_from_url_result ascii_urlparse ascii_parse_qs url) as [H _].
  by eapply H.
Defined.


(** X14. [_expand_short_url] makes no request at all unless the host is
    [b23.tv] or [www.b23.tv] (in any case) and then returns the URL as it
    is; otherwise it requests only that URL, with [HEAD] first and [GET]
    only after [HEAD] raised; it returns the final location of the request
    that succeeded when that is non-empty, and the URL itself in every
    other case. *)
Theorem expand_short_url_requests
    (urlparse : string -> option parsed_url)
    (request : http_method -> string -> option string) (u : string) :
  let r := expand_short_url urlparse request u in
  (forall parsed, urlparse u = Some parsed ->
                  is_short_link_host (url_hostname parsed) = false -> r = (u, [])) /\
  (urlparse u = None -> r = (u, [])) /\
  (r.2 = [] \/ r.2 = [(HEAD, u)] \/
   (r.2 = [(HEAD, u); (GET, u)] /\ request HEAD u = None)) /\
  (r.1 = u \/
   exists m final, (m, u) ∈ r.2 /\ request m u = Some final /\
                   final <> EmptyString /\ r.1 = final).
Proof.
  intros r. subst r. unfold expand_short_url. split; [|split; [|split]].
  - by intros parsed -> ->.
  - by intros ->.
  - destruct (urlparse u) as [parsed|]; [|by left].
    destruct (is_short_link_host (url_hostname parsed)); [|by left]. cbn [negb].
    destruct (request HEAD u); [by right; left|].
    destruct (request GET u); by right; right.
  - assert (Hf : forall m final (log : list (http_method * string)), (m, u) ∈ log -> request m u = Some final ->
                   final_or final u = u \/
                   exists m' final', (m', u) ∈ log /\ request m' u = Some final' /\
                                     final' <> EmptyString /\ final_or final u = final').
    { intros m final log Hin Hreq. unfold final_or. destruct final as [|c final]; [by left|].
      right. by exists m, (String c final). }
    destruct (urlparse u) as [parsed|]; [|by left].
    destruct (is_short_link_host (url_hostname parsed)); [|by left]. cbn [negb fst snd].
    destruct (request HEAD u) as [final|] eqn:Hh.
    { apply (Hf HEAD); [by left|done]. }
    destruct (request GET u) as [final|] eqn:Hg; [|by left].
    apply (Hf GET); [set_solver|done].
Qed.

Lemma expand_short_url_requests_witness :
  let u := "https://www.bilibili.com/video/BV17x411w7KC"%string in
  ascii_urlparse u = Some (ParsedUrl "www.bilibili.com" "/video/BV17x411w7KC" EmptyString) /\
  is_short_link_host "www.bilibili.com" = false /\
  expand_short_url ascii_urlparse (fun _ _ => None) u = (u, []).
Proof.
  intros u. split; [reflexivity|]. split; [reflexivity|].
  destruct (expand_short_url_requests ascii_urlparse (fun _ _ => None) u) as [H _].
  by eapply H.
Defined.

(** *** The normaliser over the URL helpers *)





Lemma video_url_http bv : http_like (video_url bv) = true.
Proof. reflexivity. Qed.

Lemma video_url_not_bare bv : fullmatch_av (video_url bv) = None.
Proof. reflexivity. Qed.

Lemma skip_video_bv rest :
  search_video_av_from (list_ascii_of_string "/video/BV" ++ rest) = search_video_av_from rest.
Proof. reflexivity. Qed.

Lemma table_chars_alnum c : c ∈ table_chars -> py_isalnum c = true.
Proof.
  assert (H : forallb py_isalnum table_chars = true) by (vm_compute; reflexivity).
  rewrite forallb_forall in H. intros Hc. by apply H, list_elem_of_In.
Qed.

Lemma py_isalnum_plain c :
  py_isalnum c = true ->
  py_isspace c = false /\ bool_decide (py_lower_char c = "/"%char) = false.
Proof.
  assert (H : forallb (fun n => let c := ascii_of_nat n in
                         implb (py_isalnum c)
                               (negb (py_isspace c) &&
                                negb (bool_decide (py_lower_char c = "/"%char))))
                      (seq 0 256) = true) by (vm_compute; reflexivity).
  rewrite forallb_forall in H. specialize (H (nat_of_ascii c)).
  rewrite ascii_nat_embedding in H. cbn zeta in H. intros Hc. rewrite Hc in H.
  cbn [implb] in H. rewrite andb_true_iff, !negb_true_iff in H. apply H.
  apply in_seq. pose proof (nat_ascii_bounded c). lia.
Qed.

Lemma search_video_av_from_alnum l :
  Forall (fun c => py_isalnum c = true) l -> search_video_av_from l = None.
Proof.
  induction 1 as [|c l Hc _ IH]; [done|]. cbn [search_video_av_from].
  replace (skip_string "/video/av" (c :: l)) with (@None (list ascii)); [exact IH|].
  unfold skip_string. cbn [list_ascii_of_string skip_literal].
  by rewrite (proj2 (py_isalnum_plain c Hc)).
Qed.

(** The 12 characters of an encoded id. *)
Lemma bili_av_to_bv_chars aid bv :
  bili_av_to_bv aid = Some bv ->
  exists mid z, bv = string_of_list_ascii (list_ascii_of_string "BV" ++ mid ++ [z]) /\
                Forall (fun c => py_isalnum c = true) (mid ++ [z]).
Proof.
  destruct (bili_av_to_bv_shape aid) as (c0 & c1 & c2 & c3 & c4 & c5 & H). cbn zeta in H.
  destruct H as (H0 & H1 & H2 & H3 & H4 & H5 & ->). intros [= <-].
  exists ["1"; c2; c4; "4"; c5; "1"; c3; "7"; c1]%char, c0. split; [reflexivity|].
  apply py_getitem_elem, table_chars_alnum in H0, H1, H2, H3, H4, H5.
  by repeat constructor.
Qed.

Lemma video_url_strip aid bv : bili_av_to_bv aid = Some bv -> py_strip (video_url bv) = video_url bv.
Proof.
  intros (mid & z & -> & Hall)%bili_av_to_bv_chars.
  apply Forall_app in Hall as [_ Hz]. apply Forall_cons in Hz as [Hz _].
  apply (py_strip_id "h"
           (list_ascii_of_string "ttps://www.bilibili.com/video/BV" ++ mid) z);
    [reflexivity|]. apply (py_isalnum_plain z Hz).
Qed.

Lemma video_path_no_legacy_id aid bv :
  bili_av_to_bv aid = Some bv -> search_video_av ("/video/" +:+ bv) = None.
Proof.
  intros (mid & z & -> & Hall)%bili_av_to_bv_chars. unfold search_video_av.
  change (list_ascii_of_string _)
    with (list_ascii_of_string "/video/BV" ++
          list_ascii_of_string (string_of_list_ascii (mid ++ [z]))).
  rewrite list_ascii_of_string_of_list_ascii, skip_video_bv.
  by rewrite search_video_av_from_alnum.
Qed.

(** X16. A canonical URL built by the normaliser is a fixed point of it,
    and normalising it again makes no network request: with [urlparse]
    splitting [https://www.bilibili.com/video/<bv>] into its host and path
    (or raising) and [parse_qs] finding nothing in an empty query, the
    encoded id is never read back as a legacy numeric id. Hence
    normalising twice gives what normalising once gives, for every input
    that is rewritten to a canonical URL. *)
Theorem normalize_canonical_fixed
    (urlparse : string -> option parsed_url)
    (parse_qs : string -> list (string * list string))
    (request : http_method -> string -> option string) (aid : Z) (bv : string) :
  bili_av_to_bv aid = Some bv ->
  (forall p, urlparse (video_url bv) = Some p ->
             url_hostname p = "www.bilibili.com"%string /\
             url_path p = "/video/" +:+ bv /\ url_query p = EmptyString) ->
  parse_qs EmptyString = [] ->
  normalize urlparse parse_qs request (video_url bv) = video_url bv /\
  (expand_short_url urlparse request (video_url bv)).2 = [].
Proof.
  intros Hbv Hparse Hqs.
  assert (He : expand_short_url urlparse request (video_url bv) = (video_url bv, [])).
  { unfold expand_short_url. destruct (urlparse (video_url bv)) as [p|] eqn:Hp; [|done].
    destruct (Hparse p eq_refl) as (-> & _ & _). reflexivity. }
  assert (Ha : extract_aid_from_url urlparse parse_qs (video_url bv) = None).
  { unfold extract_aid_from_url. destruct (urlparse (video_url bv)) as [p|] eqn:Hp; [|done].
    destruct (Hparse p eq_refl) as (_ & -> & ->).
    by rewrite (video_path_no_legacy_id _ _ Hbv), Hqs. }
  split; [|by rewrite He].
  unfold normalize, normalize_bili_url.
  rewrite (video_url_strip _ _ Hbv), video_url_not_bare.
  pose proof (video_url_http bv) as Hh. unfold http_like in Hh. rewrite Hh. cbn [negb].
  rewrite He. cbn [fst]. by rewrite Ha.
Qed.

Lemma normalize_canonical_fixed_witness :
  let bv := "BV17x411w7KC"%string in
  bili_av_to_bv 170001 = Some bv /\
  ascii_parse_qs EmptyString = [] /\
  normalize ascii_urlparse ascii_parse_qs (fun _ _ => None) (video_url bv) = video_url bv.
Proof.
  intros bv. split; [reflexivity|]. split; [reflexivity|].
  refine (proj1 (normalize_canonical_fixed ascii_urlparse ascii_parse_qs (fun _ _ => None)
                   170001 bv eq_refl _ eq_refl)).
  intros p [= <-]. by repeat split.
Defined.


(** *** Duration probe *)

(** X18. [_get_bili_duration_seconds] returns a duration only after a
    successful request for the API URL of a non-empty id found in the
    normalised link, when the body decodes to a dict whose [code] equals
    zero ([0], [False] or [0.0]) and whose [data] is a dict holding an
    [int] duration, a [bool] counting as one. Without such an id in the
    link it returns [None] whatever the API would answer: no request is
    made. *)
Theorem get_bili_duration_seconds_result
    (urlparse : string -> option parsed_url)
    (parse_qs : string -> list (string * list string))
    (request : http_method -> string -> option string)
    (fetch : string -> option string) (json_loads : string -> option json)
    (url : string) :
  let bvid := extract_bvid_from_url urlparse parse_qs
                (normalize urlparse parse_qs request url) in
  (bvid = None \/ bvid = Some EmptyString ->
   forall fetch' json_loads',
     get_bili_duration_seconds urlparse parse_qs request fetch' json_loads' url = None) /\
  (forall dur,
     get_bili_duration_seconds urlparse parse_qs request fetch json_loads url = Some dur ->
     exists id raw entries d,
       bvid = Some id /\ id <> EmptyString /\
       fetch (api_url id) = Some raw /\
       json_loads raw = Some (JDict entries) /\
       dict_get "code" entries JNull ∈ [JInt 0; JBool false; JFloat true] /\
       dict_get "data" entries JNull = JDict d /\
       (dict_get "duration" d JNull = JInt dur \/
        exists b, dict_get "duration" d JNull = JBool b /\ dur = Z.b2z b)).
Proof.
  intros bvid. subst bvid. unfold get_bili_duration_seconds. split.
  - by intros [-> | ->].
  - intros dur.
    destruct (extract_bvid_from_url _ _ _) as [id|]; [|done].
    destruct id as [|c id]; [done|]. cbn [py_truthy_str].
    destruct (fetch _) as [raw|] eqn:Hf; [|done]. cbn [mbind option_bind].
    destruct (json_loads raw) as [data|] eqn:Hj; [|done]. cbn [mbind option_bind].
    unfold response_duration. destruct data as [| | | | | |entries]; try done.
    destruct (json_is_zero _) eqn:Hz; [|done]. cbn [negb].
    destruct (dict_get "data" entries JNull) as [|b|n|zero|str|items|d] eqn:Hd;
      cbn [json_truthy]; try done.
    + intros H. exfalso. revert H. by destruct b.
    + intros H. exfalso. revert H. by destruct (py_truthy_int n).
    + intros H. exfalso. revert H. by destruct zero.
    + intros H. exfalso. revert H. by destruct (py_truthy_str str).
    + intros H. exfalso. revert H. by destruct items.
    + intros H. exists (String c id), raw, entries, d.
      split; [done|]. split; [done|]. split; [done|]. split; [done|]. split.
      { destruct (dict_get "code" entries JNull) as [|b|n|z|str|items|es]; try done;
          cbn in Hz.
        - destruct b; [done|]. set_solver.
        - apply Z.eqb_eq in Hz as ->. set_solver.
        - subst z. set_solver. }
      split; [done|]. revert H.
      assert (Hd' : (if match d with [] => false | _ => true end then JDict d else JDict [])
                    = JDict d) by (by destruct d).
      rewrite Hd'. destruct (dict_get "duration" d JNull) as [|b|n|z|str|items|es]; try done.
      * intros [= <-]. right. by exists b.
      * intros [= <-]. by left.
Qed.

(** *** The whole pipeline *)



Lemma check_video_file_disk probe locked max_height path d :
  let r := check_video_file probe locked max_height path d in
  r.2 = d \/ (r.1 = false /\ r.2 = d ∖ {[path]}).
Proof.
  intros r. subst r. destruct (decide (path ∈ d)) as [Hp|Hp].
  - rewrite (check_video_file_existing _ _ _ _ _ Hp).
    destruct (probe path) as [|rc out]; [by left|].
    destruct (rc =? 0); [|by left].
    destruct (py_truthy_int max_height); [|by left].
    destruct (probed_height out) as [h|]; [|by left].
    destruct (max_height <? h); [|by left].
    destruct (locked path); cbn [fst snd]; [by left|by right].
  - unfold check_video_file. rewrite bool_decide_eq_false_2 by exact Hp. by left.
Qed.

Section PipelineFacts.

Context (urlparse : string -> option parsed_url).
Context (parse_qs : string -> list (string * list string)).
Context (request : http_method -> string -> option string).
Context (fetch : string -> option string) (json_loads : string -> option json).
Context (installed : bool) (query : string -> string + info_dict).
Context (engine : string -> string -> download_outcome).
Context (probe : string -> probe_outcome) (locked : string -> bool).
Context (resolve : string -> option string).
Context (max_duration_sec max_height max_filesize_mb : Z).
Context (path_mappings : list (string * string)).

Local Abbreviation normalize := (normalize urlparse parse_qs request).
Local Abbreviation final_url := (final_url urlparse request).
Local Abbreviation too_long :=
  (too_long urlparse parse_qs request fetch json_loads max_duration_sec).
Local Abbreviation download :=
  (download urlparse request installed query engine max_height max_filesize_mb).
Local Abbreviation pipeline :=
  (download_and_send urlparse parse_qs request fetch json_loads installed query engine
     probe locked resolve max_duration_sec max_height max_filesize_mb path_mappings).

(** The run after a download that returned a file. *)
Lemma download_and_send_selected group_id url d p t w :
  too_long (normalize url) = false ->
  download (normalize url) d = (Selected p t, w) ->
  pipeline group_id url d =
    match probe p with
    | ProbeRaises => Run (attempts w) [] (disk w)
    | ProbeExit rc out =>
        if (rc =? 0) && py_truthy_int max_height &&
           match probed_height out with Some h => max_height <? h | None => false end
        then Run (attempts w) [] (if locked p then disk w else disk w ∖ {[p]})
        else Run (attempts w)
                 [SentMessage group_id (send_path resolve path_mappings p) (caption t)]
                 (if locked p then disk w else disk w ∖ {[p]})
    end.
Proof.
  intros Hlong Hdl. unfold download_and_send. rewrite Hlong.
  unfold download in Hdl |- *. rewrite Hdl.
  destruct (download_selected_inv _ _ _ _ _ _ _ _ _ Hdl) as (Hp & _).
  rewrite (check_video_file_existing _ _ _ _ _ Hp).
  assert (Hsend : forall d0, p ∈ d0 ->
            send_video_with_timeout resolve path_mappings locked group_id p t d0 =
              ([SentMessage group_id (send_path resolve path_mappings p) (caption t)],
               if locked p then d0 else d0 ∖ {[p]})).
  { intros d0 H0. unfold send_video_with_timeout. by rewrite bool_decide_eq_true_2. }
  destruct (probe p) as [|rc out]; [done|].
  destruct (rc =? 0); cbn [andb]; [|by rewrite Hsend].
  destruct (py_truthy_int max_height); cbn [andb]; [|by rewrite Hsend].
  destruct (probed_height out) as [h|]; [|by rewrite Hsend].
  destruct (max_height <? h); [done|by rewrite Hsend].
Qed.

(** X19. The duration gate. With no positive limit the duration is not
    even asked for; with a positive limit a video known to be longer is
    neither downloaded nor sent and the disk is left as it was; and when
    the duration is unknown or within the limit the run is exactly the
    run without a limit, so the limit is not enforced on a video whose
    duration cannot be determined. *)
Theorem duration_gate (group_id : Z) (url : string) (d : gset string) :
  let dur := get_bili_duration_seconds urlparse parse_qs request fetch json_loads
               (normalize url) in
  let unlimited :=
    download_and_send urlparse parse_qs request fetch json_loads installed query engine
      probe locked resolve 0 max_height max_filesize_mb path_mappings group_id url d in
  (max_duration_sec <= 0 ->
   forall fetch' json_loads',
     download_and_send urlparse parse_qs request fetch' json_loads' installed query engine
       probe locked resolve max_duration_sec max_height max_filesize_mb path_mappings
       group_id url d = unlimited) /\
  (0 < max_duration_sec -> (exists n, dur = Some n /\ max_duration_sec < n) ->
   pipeline group_id url d = Run [] [] d) /\
  (0 < max_duration_sec -> (dur = None \/ exists n, dur = Some n /\ n <= max_duration_sec) ->
   pipeline group_id url d = unlimited).
Proof.
  intros dur unlimited. subst dur unlimited. unfold download_and_send, too_long.
  split; [|split].
  - intros Hle fetch' json_loads'.
    replace (py_truthy_int max_duration_sec && (0 <? max_duration_sec)) with false; [done|].
    symmetry. apply andb_false_iff. right. apply Z.ltb_ge. lia.
  - intros Hpos (n & -> & Hn).
    rewrite py_truthy_int_nonzero by lia.
    replace (0 <? max_duration_sec) with true by (symmetry; apply Z.ltb_lt; lia).
    cbn [andb]. by replace (max_duration_sec <? n) with true by (symmetry; apply Z.ltb_lt; lia).
  - intros Hpos Hdur.
    rewrite py_truthy_int_nonzero by lia.
    replace (0 <? max_duration_sec) with true by (symmetry; apply Z.ltb_lt; lia).
    cbn [andb]. destruct Hdur as [-> | (n & -> & Hn)]; [done|].
    by replace (max_duration_sec <? n) with false by (symmetry; apply Z.ltb_ge; lia).
Qed.


(** X21. What becomes of the file a download returned: after the run
    it is still on disk exactly when the inspection tool could not be run
    or the operating system refused the deletion; in the first case the
    file is not sent either, so it stays in the download directory. *)
Theorem downloaded_file_fate
    (group_id : Z) (url : string) (d : gset string) (p t : string) (w : world) :
  too_long (normalize url) = false ->
  download (normalize url) d = (Selected p t, w) ->
  (p ∈ run_disk (pipeline group_id url d) <-> probe p = ProbeRaises \/ locked p = true) /\
  (probe p = ProbeRaises -> run_sent (pipeline group_id url d) = []).
Proof.
  intros Hlong Hdl. rewrite (download_and_send_selected _ _ _ _ _ _ Hlong Hdl).
  unfold download in Hdl.
  destruct (download_selected_inv _ _ _ _ _ _ _ _ _ Hdl) as (Hp & _).
  destruct (probe p) as [|rc out].
  { cbn [run_disk run_sent]. split; [|done]. split; [by left|done]. }
  split; [|done].
  assert (H : p ∈ (if locked p then disk w else disk w ∖ {[p]}) <->
              ProbeExit rc out = ProbeRaises \/ locked p = true).
  { destruct (locked p); [split; [by right|done]|]. split; [set_solver|by intros [|]]. }
  by destruct (_ && _).
Qed.


End PipelineFacts.


Lemma downloaded_file_fate_witness :
  run_sent (download_and_send ascii_urlparse ascii_parse_qs (fun _ _ => None) (fun _ => None)
              (fun _ => None) true (fun _ => inr sample_info) (fun _ => sample_engine false)
              (fun _ => ProbeRaises) (fun _ => false) (fun p => Some p) 0 720 20
              [] 42 "https://www.bilibili.com/video/BV17x411w7KC" ∅) = [].
Proof.
  refine (proj2 (downloaded_file_fate ascii_urlparse ascii_parse_qs (fun _ _ => None)
                   (fun _ => None) (fun _ => None) true (fun _ => inr sample_info)
                   (fun _ => sample_engine false) (fun _ => ProbeRaises) (fun _ => false)
                   (fun p => Some p) 0 720 20 [] 42
                   "https://www.bilibili.com/video/BV17x411w7KC" ∅
                   sample_path "clip" (World {[ sample_path ]} [r720]) _ _) _);
    reflexivity.
Defined.


(** *** Administrator commands and the message handler *)

Lemma dict_set_keys {A} (k : string) (v : A) (d : list (string * A)) :
  (dict_set k v d).*1 = if dict_has k d then d.*1 else d.*1 ++ [k].
Proof.
  unfold dict_has. induction d as [|[k' v'] d IH]; [done|]. cbn [dict_set fmap list_fmap fst].
  destruct (decide (k' = k)) as [->|Hne].
  - rewrite bool_decide_eq_true_2 by done. cbn [fmap list_fmap fst].
    rewrite bool_decide_eq_true_2; [done|]. by left.
  - rewrite bool_decide_eq_false_2 by done. cbn [fmap list_fmap fst]. rewrite IH.
    destruct (decide (k ∈ d.*1)) as [Hin|Hnin].
    + rewrite !bool_decide_eq_true_2; [done| |done]. by right.
    + rewrite !bool_decide_eq_false_2; [done| |done].
      intros [?|?]%elem_of_cons; congruence.
Qed.

Lemma dict_set_new {A} (k : string) (v : A) (d : list (string * A)) :
  dict_has k d = false -> dict_set k v d = d ++ [(k, v)].
Proof.
  unfold dict_has. induction d as [|[k' v'] d IH]; [done|]. cbn [dict_set fmap list_fmap fst].
  intros H%bool_decide_eq_false_1. rewrite not_elem_of_cons in H. destruct H as [Hne Hnin].
  rewrite bool_decide_eq_false_2 by congruence. cbn [app]. f_equal. apply IH.
  by apply bool_decide_eq_false_2.
Qed.

Lemma dict_pop_keys_sublist {A} (k : string) (d : list (string * A)) :
  (dict_pop k d).*1 `sublist_of` d.*1.
Proof.
  induction d as [|[k' v'] d IH]; [done|]. cbn [dict_pop].
  destruct (bool_decide (k' = k)); cbn [fmap list_fmap fst].
  - by apply sublist_cons.
  - by apply sublist_skip.
Qed.

Lemma rooted_startswith virt : py_startswith "/" (rooted virt) = true.
Proof.
  unfold rooted. destruct (py_startswith "/" virt) eqn:E; [exact E|]. by destruct virt.
Qed.

Lemma well_formed_dict_set st virt real_p :
  well_formed st ->
  well_formed (with_path_mappings (dict_set (rooted virt) real_p (path_mappings st)) st).
Proof.
  intros (? & ? & ? & Hnd & Hall). unfold well_formed. cbn.
  do 3 (split; [done|]). rewrite dict_set_keys. unfold dict_has. case_bool_decide; [done|].
  split.
  - apply NoDup_app. split; [done|]. split; [|apply NoDup_singleton].
    intros x Hx ->%list_elem_of_singleton. done.
  - apply Forall_app. split; [done|]. constructor; [apply rooted_startswith|constructor].
Qed.

Lemma well_formed_dict_pop st virt :
  well_formed st -> well_formed (with_path_mappings (dict_pop virt (path_mappings st)) st).
Proof.
  intros (? & ? & ? & Hnd & Hall). unfold well_formed. cbn.
  do 3 (split; [done|]). pose proof (dict_pop_keys_sublist virt (path_mappings st)) as Hs.
  split; [by eapply sublist_NoDup|].
  apply Forall_forall. intros x Hx. rewrite Forall_forall in Hall. apply Hall.
  by eapply elem_of_sublist.
Qed.

Lemma clamp_nonneg n : 0 <= clamp n.
Proof. unfold clamp. destruct (Z.ltb_spec n 0); lia. Qed.

Section CommandFacts.

Context (send_ok : string -> bool).
Context (enable_arg disable_arg : string -> option Z).
Context (set_cookie_arg : string -> option string).
Context (set_height_arg set_maxsize_arg set_maxdur_arg : string -> option Z).
Context (set_mapping_args : string -> option (string * string)).
Context (remove_mapping_arg : string -> option string).
Context (resolve_path : string -> string + string) (path_exists : string -> bool).

Local Abbreviation handle_group_command :=
  (handle_group_command send_ok enable_arg disable_arg).
Local Abbreviation handle_config_command :=
  (handle_config_command send_ok set_cookie_arg set_height_arg set_maxsize_arg
     set_maxdur_arg set_mapping_args remove_mapping_arg resolve_path path_exists).

Lemma consistent_reply st text : consistent st (reply send_ok st text).
Proof. by left. Qed.

Lemma consistent_save_and_reply st st' text : consistent st (save_and_reply send_ok st' text).
Proof. by right. Qed.

Lemma consistent_unhandled st : consistent st (unhandled st).
Proof. by left. Qed.

Lemma handle_group_command_consistent st text : consistent st (handle_group_command st text).
Proof.
  unfold handle_group_command.
  repeat (case_match || case_bool_decide);
    auto using consistent_reply, consistent_save_and_reply, consistent_unhandled.
Qed.

Lemma set_mapping_consistent st g1 g2 :
  consistent st (set_mapping send_ok resolve_path path_exists st g1 g2).
Proof.
  unfold set_mapping. repeat case_match;
    auto using consistent_reply, consistent_save_and_reply; by (left + right).
Qed.

Lemma handle_config_command_consistent st text : consistent st (handle_config_command st text).
Proof.
  unfold handle_config_command.
  repeat (case_match || case_bool_decide);
    auto using consistent_reply, consistent_save_and_reply, consistent_unhandled,
               set_mapping_consistent.
Qed.

(** A group command that reports [False] has done nothing. *)
Lemma handle_group_command_unhandled st text :
  handled (handle_group_command st text) = Some false ->
  handle_group_command st text = unhandled st.
Proof.
  unfold handle_group_command, reply, save_and_reply.
  repeat (case_match || case_bool_decide); cbn [handled]; done.
Qed.

Lemma well_formed_group st text :
  well_formed st -> well_formed (after (handle_group_command st text)).
Proof.
  intros Hwf. unfold handle_group_command, reply, save_and_reply, unhandled.
  repeat (case_match || case_bool_decide); cbn [after]; done.
Qed.

Lemma well_formed_set_mapping st g1 g2 :
  well_formed st -> well_formed (after (set_mapping send_ok resolve_path path_exists st g1 g2)).
Proof.
  intros Hwf. unfold set_mapping, reply, save_and_reply.
  repeat case_match; cbn [after]; auto using well_formed_dict_set.
Qed.

Lemma well_formed_config st text :
  well_formed st -> well_formed (after (handle_config_command st text)).
Proof.
  intros Hwf. pose proof Hwf as (? & ? & ? & ? & ?).
  unfold handle_config_command, reply, save_and_reply, unhandled.
  repeat (case_match || case_bool_decide); cbn [after];
    auto using well_formed_dict_pop, well_formed_set_mapping;
    unfold well_formed; cbn; auto using clamp_nonneg.
Qed.

End CommandFacts.

Section GroupCommandFacts.

Context (send_ok : string -> bool) (enable_arg disable_arg : string -> option Z).

Local Abbreviation handle_group_command :=
  (handle_group_command send_ok enable_arg disable_arg).

(** X25. Enabling a group makes it enabled; enabling it again changes
    and saves nothing and only reports that it is enabled; disabling it
    afterwards makes it disabled, and gives back the settings from before
    when the group was not enabled then. *)
Theorem enable_disable_round_trip (st : settings) (on off : string) (gid : Z) :
  enable_arg on = Some gid ->
  enable_arg off = None -> disable_arg off = Some gid ->
  let st1 := after (handle_group_command st on) in
  gid ∈ enabled_groups st1 /\
  handle_group_command st1 on =
    reply send_ok st1 ("ℹ️ 群 " +:+ pretty gid +:+ " 已开启转换") /\
  (gid ∉ enabled_groups (after (handle_group_command st1 off))) /\
  (gid ∉ enabled_groups st -> after (handle_group_command st1 off) = st).
Proof.
  intros Hon Hoff1 Hoff2 st1.
  assert (Hst1 : st1 = if bool_decide (gid ∈ enabled_groups st) then st
                       else with_enabled_groups (enabled_groups st ∪ {[gid]}) st).
  { subst st1. unfold handle_group_command. rewrite Hon. by case_bool_decide. }
  assert (Hin : gid ∈ enabled_groups st1).
  { rewrite Hst1. case_bool_decide; [done|]. cbn. set_solver. }
  split; [exact Hin|]. split.
  { unfold handle_group_command. rewrite Hon. by rewrite bool_decide_eq_true_2. }
  unfold handle_group_command. rewrite Hoff1, Hoff2.
  rewrite bool_decide_eq_true_2 by exact Hin. cbn [save_and_reply after].
  split; [cbn; set_solver|]. intros Hnot. rewrite Hst1.
  rewrite bool_decide_eq_false_2 by exact Hnot. destruct st as [E c h sz du m].
  unfold with_enabled_groups. cbn in *. f_equal. set_solver.
Qed.

End GroupCommandFacts.

Lemma remap_loop_app resolve pre post path :
  remap_loop resolve (pre ++ post) path =
    match remap_loop resolve pre path with
    | Some r => Some r
    | None => remap_loop resolve post path
    end.
Proof.
  induction pre as [|[virt real] pre IH]; [done|]. cbn [app remap_loop].
  destruct (resolve real) as [real_p|]; [|exact IH].
  destruct (resolve path) as [p_resolved|]; [|exact IH].
  by destruct (py_startswith real_p p_resolved).
Qed.

(** X26. A mapping command that succeeds keeps the order of the
    mappings when its virtual root is already mapped, and otherwise puts
    the new mapping last: a file that an older mapping matches is still
    sent under that older mapping, and the new one applies only to files
    that no older mapping matches. *)
Theorem new_mapping_consulted_last
    (send_ok : string -> bool) (resolve_path : string -> string + string)
    (path_exists : string -> bool) (resolve : string -> option string)
    (st : settings) (g1 g2 real_p path : string) :
  let virt := rooted (py_strip g1) in
  let r := set_mapping send_ok resolve_path path_exists st g1 g2 in
  resolve_path (unquote_path (py_strip g2)) = inr real_p ->
  handled r = Some true ->
  (dict_has virt (path_mappings st) = true ->
   (path_mappings (after r)).*1 = (path_mappings st).*1) /\
  (dict_has virt (path_mappings st) = false ->
   path_mappings (after r) = path_mappings st ++ [(virt, real_p)] /\
   send_path resolve (path_mappings (after r)) path =
     match remap_loop resolve (path_mappings st) path with
     | Some (_, sp) => sp
     | None => send_path resolve [(virt, real_p)] path
     end).
Proof.
  intros virt r Hres Hok. subst r.
  assert (Hm : path_mappings (after (set_mapping send_ok resolve_path path_exists st g1 g2)) =
               dict_set virt real_p (path_mappings st)).
  { revert Hok. unfold set_mapping. rewrite Hres. fold virt.
    destruct (path_exists real_p); [done|]. by destruct (send_ok _). }
  rewrite Hm. split.
  - intros Hhas. by rewrite dict_set_keys, Hhas.
  - intros Hnew. rewrite (dict_set_new _ _ _ Hnew). split; [done|].
    unfold send_path. rewrite remap_loop_app.
    by destruct (remap_loop resolve (path_mappings st) path) as [[e sp]|].
Qed.

Lemma start_tasks_spec (group_id : Z) (urls : list string) (processing : gset string)
    (created : list (Z * string)) :
  exists new,
    foldl (fun acc u =>
             if bool_decide (u ∈ acc.1) then acc
             else (acc.1 ∪ {[u]}, acc.2 ++ [(group_id, u)]))
          (processing, created) urls
    = (processing ∪ list_to_set urls, created ++ new) /\
    NoDup new /\
    new.*2 `sublist_of` urls /\
    forall g u, (g, u) ∈ new <-> g = group_id /\ u ∈ urls /\ u ∉ processing.
Proof.
  revert processing created. induction urls as [|u urls IH]; intros processing created.
  { exists []. cbn. rewrite app_nil_r. split; [f_equal; set_solver|].
    split; [constructor|]. split; [done|]. intros g u. set_solver. }
  cbn [foldl fst snd]. case_bool_decide as Hu.
  - destruct (IH processing created) as (new & -> & Hnd & Hsub & Hin). exists new.
    split; [f_equal; set_solver|]. split; [done|]. split; [by apply sublist_cons|].
    intros g x. rewrite Hin. set_solver.
  - destruct (IH (processing ∪ {[u]}) (created ++ [(group_id, u)]))
      as (new & -> & Hnd & Hsub & Hin).
    exists ((group_id, u) :: new). split; [f_equal; [set_solver|by rewrite <- app_assoc]|].
    split; [|split].
    + constructor; [|done]. rewrite Hin. set_solver.
    + cbn. by apply sublist_skip.
    + intros g x. rewrite elem_of_cons, Hin. split.
      * intros [[= -> ->]|(-> & Hx & Hnx)]; set_solver.
      * intros (-> & Hx & Hnx). destruct (decide (x = u)) as [->|Hne]; [by left|].
        right. set_solver.
Qed.

Section HandlerFacts.

Context (send_ok : string -> bool).
Context (enable_arg disable_arg : string -> option Z).
Context (set_cookie_arg : string -> option string).
Context (set_height_arg set_maxsize_arg set_maxdur_arg : string -> option Z).
Context (set_mapping_args : string -> option (string * string)).
Context (remove_mapping_arg : string -> option string).
Context (resolve_path : string -> string + string) (path_exists : string -> bool).
Context (extract : event -> list string) (bili_super_admins : list Z).

Local Abbreviation message_handler :=
  (message_handler send_ok enable_arg disable_arg set_cookie_arg set_height_arg
     set_maxsize_arg set_maxdur_arg set_mapping_args remove_mapping_arg resolve_path
     path_exists extract bili_super_admins).

(** X23. Whatever message arrives, the handler either leaves the
    settings as they were and saves nothing, or saves exactly once, and
    what it saves are the settings as it leaves them: no change of the
    settings goes unsaved, even when the reply that follows cannot be
    delivered. *)
Theorem settings_saved_when_changed
    (st : settings) (processing : gset string) (inc : incoming) :
  let h := message_handler st processing inc in
  (settings_saved h = [] /\ settings_after h = st) \/
  settings_saved h = [settings_after h].
Proof.
  intros h. subst h. unfold message_handler.
  destruct inc as [sender text|group_id ev|]; [| |by left].
  - case_bool_decide; [|by left].
    pose proof (handle_group_command_consistent send_ok enable_arg disable_arg st text) as Hg.
    destruct (handled _) as [[|]|] eqn:Hh; cbn; [exact Hg| |exact Hg].
    rewrite (handle_group_command_unhandled _ _ _ _ _ Hh). cbn [unhandled after saved app].
    apply handle_config_command_consistent.
  - case_bool_decide; [|by left]. destruct (start_tasks _ _ _). by left.
Qed.

(** X24. The commands keep the settings well formed: no limit becomes
    negative, every virtual root of a mapping starts with a slash, and no
    virtual root is mapped twice. *)
Theorem settings_stay_well_formed
    (st : settings) (processing : gset string) (inc : incoming) :
  well_formed st -> well_formed (settings_after (message_handler st processing inc)).
Proof.
  intros Hwf. unfold message_handler.
  destruct inc as [sender text|group_id ev|]; [| |done].
  - case_bool_decide; [|done].
    destruct (handled _) as [[|]|] eqn:Hh; cbn; [by apply well_formed_group| |
                                                  by apply well_formed_group].
    rewrite (handle_group_command_unhandled _ _ _ _ _ Hh). cbn [unhandled after].
    by apply well_formed_config.
  - case_bool_decide; [|done]. by destruct (start_tasks _ _ _).
Qed.

(** X27. A private message never starts a download and never touches
    the links in flight, and from a sender who is not an administrator it
    changes and saves no setting and gets no reply; a message that is not
    private never changes or saves a setting and gets no reply; a group
    message in a group that is not enabled starts nothing. *)
Theorem handler_access_control
    (st : settings) (processing : gset string) (inc : incoming) :
  let h := message_handler st processing inc in
  (forall sender text, inc = PrivateMessage sender text ->
     tasks h = [] /\ processing_after h = processing /\
     (sender ∉ bili_super_admins ->
      settings_after h = st /\ settings_saved h = [] /\ replied h = [])) /\
  ((forall sender text, inc <> PrivateMessage sender text) ->
   settings_after h = st /\ settings_saved h = [] /\ replied h = []) /\
  (forall group_id ev, inc = GroupMessage group_id ev ->
     group_id ∉ enabled_groups st -> tasks h = [] /\ processing_after h = processing).
Proof.
  intros h. subst h. unfold message_handler. split; [|split].
  - intros sender text ->. case_bool_decide.
    + by destruct (handled _) as [[|]|].
    + done.
  - intros Hnp. destruct inc as [sender text|group_id ev|]; [by destruct (Hnp sender text)| |done].
    case_bool_decide; [|done]. by destruct (start_tasks _ _ _).
  - intros group_id ev -> Hno. by rewrite bool_decide_eq_false_2.
Qed.

(** X28. In an enabled group the handler creates one task for each
    extracted link that is not already in flight, in the order of
    extraction and never two for the same link, each for the group of the
    message; afterwards every extracted link is in flight. *)
Theorem tasks_for_new_links
    (st : settings) (processing : gset string) (group_id : Z) (ev : event) :
  group_id ∈ enabled_groups st ->
  let h := message_handler st processing (GroupMessage group_id ev) in
  processing_after h = processing ∪ list_to_set (extract ev) /\
  NoDup (tasks h) /\
  (tasks h).*2 `sublist_of` extract ev /\
  forall g u, (g, u) ∈ tasks h <-> g = group_id /\ u ∈ extract ev /\ u ∉ processing.
Proof.
  intros Hon h. subst h. unfold message_handler.
  rewrite bool_decide_eq_true_2 by exact Hon. unfold start_tasks.
  destruct (start_tasks_spec group_id (extract ev) processing []) as (new & -> & H).
  cbn [tasks processing_after app]. split; [done|exact H].
Qed.

End HandlerFacts.

Lemma enable_disable_round_trip_witness :
  ascii_number_arg "转换" "转换 42" = Some 42 /\
  ascii_number_arg "转换" "停止转换42" = None /\
  ascii_number_arg "停止转换" "停止转换42" = Some 42 /\
  after (handle_group_command (fun _ => true) (ascii_number_arg "转换")
           (ascii_number_arg "停止转换")
           (after (handle_group_command (fun _ => true) (ascii_number_arg "转换")
                     (ascii_number_arg "停止转换") initial_settings "转换 42"))
           "停止转换42") = initial_settings.
Proof.
  assert (H1 : ascii_number_arg "转换" "转换 42" = Some 42) by reflexivity.
  assert (H2 : ascii_number_arg "转换" "停止转换42" = None) by reflexivity.
  assert (H3 : ascii_number_arg "停止转换" "停止转换42" = Some 42) by reflexivity.
  do 3 (split; [assumption|]).
  destruct (enable_disable_round_trip (fun _ => true) (ascii_number_arg "转换")
              (ascii_number_arg "停止转换") initial_settings _ _ 42 H1 H2 H3)
    as (_ & _ & _ & H).
  apply H. apply not_elem_of_empty.
Defined.

Lemma new_mapping_consulted_last_witness :
  let st := with_path_mappings [("/old", "/data")]%string initial_settings in
  let r := set_mapping (fun _ => true) inr (fun _ => true) st "bilivideo" "/data/downloads" in
  handled r = Some true /\
  path_mappings (after r) =
    [("/old", "/data"); ("/bilivideo", "/data/downloads")]%string.
Proof.
  intros st r. split; [reflexivity|].
  destruct (new_mapping_consulted_last (fun _ => true) inr (fun _ => true) Some st
              "bilivideo" "/data/downloads" "/data/downloads" sample_path
              eq_refl eq_refl) as [_ H].
  exact (proj1 (H eq_refl)).
Defined.

Lemma settings_stay_well_formed_witness :
  well_formed initial_settings /\
  well_formed (settings_after
                 (sample_handler initial_settings ∅ (PrivateMessage 10001 "设置清晰度720"))).
Proof.
  assert (H : well_formed initial_settings).
  { unfold well_formed. cbn. repeat split; (lia || constructor). }
  split; [exact H|]. by apply settings_stay_well_formed.
Defined.

Lemma tasks_for_new_links_witness :
  let st := with_enabled_groups {[ 42 ]} initial_settings in
  let ev := Event [text_segment "https://b23.tv/abc and https://b23.tv/xyz"]
                  (Some "https://b23.tv/abc and https://b23.tv/xyz"%string) in
  42 ∈ enabled_groups st /\
  processing_after (sample_handler st {[ "https://b23.tv/abc"%string ]} (GroupMessage 42 ev)) =
    {[ "https://b23.tv/abc"%string ]} ∪ list_to_set (sample_extract ev).
Proof.
  intros st ev.
  assert (H : 42 ∈ enabled_groups st) by (cbn; set_solver).
  split; [exact H|].
  exact (proj1 (tasks_for_new_links (fun _ => true) (ascii_number_arg "转换")
                  (ascii_number_arg "停止转换") (fun _ => None)
                  (ascii_number_arg "设置清晰度") (fun _ => None) (fun _ => None)
                  (fun _ => None) (fun _ => None) inr (fun _ => true) sample_extract [10001]
                  st {[ "https://b23.tv/abc"%string ]} 42 ev H)).
Defined.

Example sample_handler_starts_one_task :
  tasks (sample_handler (with_enabled_groups {[ 42 ]} initial_settings)
           {[ "https://b23.tv/abc"%string ]}
           (GroupMessage 42
              (Event [text_segment "https://b23.tv/abc and https://b23.tv/xyz"]
                     (Some "https://b23.tv/abc and https://b23.tv/xyz"%string)))) =
    [(42, "https://b23.tv/xyz"%string)].
Proof. vm_compute. reflexivity. Qed.

Example sample_handler_sets_height :
  max_height (settings_after
                (sample_handler initial_settings ∅ (PrivateMessage 10001 "设置清晰度720"))) = 720.
Proof. vm_compute. reflexivity. Qed.

(** *** Cookie file *)

Lemma lstrip_while_split p l :
  exists pre, l = pre ++ lstrip_while p l /\ Forall (fun c => p c = true) pre /\
              forall c, head (lstrip_while p l) = Some c -> p c = false.
Proof.
  induction l as [|a l (pre & IH & Hpre & Hhd)]; [by exists []|]. cbn [lstrip_while].
  destruct (p a) eqn:Ha.
  - exists (a :: pre). cbn [app]. split; [by rewrite <- IH|]. split; [by constructor|done].
  - exists []. split; [done|]. split; [constructor|]. by intros c [= <-].
Qed.

Lemma last_rev {A} (l : list A) : last (rev l) = head l.
Proof. destruct l as [|a l]; [done|]. cbn [rev head]. by rewrite last_snoc. Qed.

Lemma rstrip_while_split p l :
  exists suf, l = rstrip_while p l ++ suf /\ Forall (fun c => p c = true) suf /\
              forall c, last (rstrip_while p l) = Some c -> p c = false.
Proof.
  unfold rstrip_while. destruct (lstrip_while_split p (rev l)) as (pre & E & Hpre & Hhd).
  exists (rev pre). split; [|split].
  - rewrite <- rev_app_distr, <- E. by rewrite rev_involutive.
  - by apply Forall_rev.
  - intros c. rewrite last_rev. apply Hhd.
Qed.

Lemma lstrip_while_id p l :
  (forall c, head l = Some c -> p c = false) -> lstrip_while p l = l.
Proof. destruct l as [|a l]; [done|]. intros H. cbn. by rewrite (H a). Qed.

Lemma rstrip_while_id p l :
  (forall c, last l = Some c -> p c = false) -> rstrip_while p l = l.
Proof.
  intros H. destruct l as [|a l] using rev_ind; [done|].
  apply rstrip_while_last. apply H. by rewrite last_snoc.
Qed.

Lemma strip_fixed p l : bounded p l -> rstrip_while p (lstrip_while p l) = l.
Proof. intros [Hh Hl]. by rewrite lstrip_while_id, rstrip_while_id. Qed.

Lemma head_app_ne {A} (l1 l2 : list A) : l1 <> [] -> head (l1 ++ l2) = head l1.
Proof. by destruct l1. Qed.

Lemma last_app_ne {A} (l1 l2 : list A) : l2 <> [] -> last (l1 ++ l2) = last l2.
Proof.
  intros H. destruct l2 as [|a l2] using rev_ind; [done|].
  by rewrite app_assoc, !last_snoc.
Qed.

Lemma strip_bounded p l : bounded p (rstrip_while p (lstrip_while p l)).
Proof.
  destruct (lstrip_while_split p l) as (pre & _ & _ & Hhd).
  destruct (rstrip_while_split p (lstrip_while p l)) as (suf & E & _ & Hla).
  split; [|exact Hla]. intros c Hc. apply Hhd. rewrite E.
  rewrite head_app_ne; [done|]. intros E0. by rewrite E0 in Hc.
Qed.

Lemma strip_elem p l c : c ∈ rstrip_while p (lstrip_while p l) -> c ∈ l.
Proof.
  destruct (lstrip_while_split p l) as (pre & E1 & _).
  destruct (rstrip_while_split p (lstrip_while p l)) as (suf & E2 & _).
  intros Hc. rewrite E1, E2. set_solver.
Qed.

Lemma trimmed_bounded s : trimmed s <-> bounded py_isspace (list_ascii_of_string s).
Proof.
  unfold trimmed, py_strip. split.
  - intros E. rewrite <- E at 1. rewrite list_ascii_of_string_of_list_ascii.
    apply strip_bounded.
  - intros H. by rewrite (strip_fixed _ _ H), string_of_list_ascii_of_string.
Qed.

Lemma py_strip_trimmed s : trimmed (py_strip s).
Proof.
  apply trimmed_bounded. unfold py_strip. rewrite list_ascii_of_string_of_list_ascii.
  apply strip_bounded.
Qed.

Lemma span_split (p : ascii -> bool) l :
  l = (span p l).1 ++ (span p l).2 /\
  Forall (fun c => p c = true) (span p l).1 /\
  forall c, head (span p l).2 = Some c -> p c = false.
Proof.
  induction l as [|a l (E & Hall & Hhd)]; [by repeat split|]. cbn [span].
  destruct (p a) eqn:Ha.
  - destruct (span p l) as [run rest]. cbn [fst snd app] in *. split; [by f_equal|].
    split; [by constructor|done].
  - cbn [fst snd]. split; [done|]. split; [constructor|]. by intros c [= <-].
Qed.

Lemma strip_nonempty p l c :
  c ∈ l -> p c = false -> rstrip_while p (lstrip_while p l) <> [].
Proof.
  intros Hc Hp.
  destruct (lstrip_while_split p l) as (pre & E1 & Hpre & _).
  destruct (rstrip_while_split p (lstrip_while p l)) as (suf & E2 & Hsuf & _).
  intros E0. rewrite E0 in E2. cbn [app] in E2. rewrite E2 in E1. rewrite E1 in Hc.
  rewrite Forall_forall in Hpre, Hsuf.
  apply elem_of_app in Hc as [Hc|Hc]; [apply Hpre in Hc|apply Hsuf in Hc]; congruence.
Qed.

Lemma py_strip_list s :
  list_ascii_of_string (py_strip s) =
  rstrip_while py_isspace (lstrip_while py_isspace (list_ascii_of_string s)).
Proof. unfold py_strip. by rewrite list_ascii_of_string_of_list_ascii. Qed.

Lemma string_nonempty l : l <> [] -> string_of_list_ascii l <> EmptyString.
Proof. by destruct l. Qed.

Lemma list_nonempty s : s <> EmptyString -> list_ascii_of_string s <> [].
Proof. by destruct s. Qed.

Lemma head_elem {A} (l : list A) c : head l = Some c -> c ∈ l.
Proof. destruct l; [done|]. intros [= ->]. by left. Qed.

Lemma last_elem {A} (l : list A) c : last l = Some c -> c ∈ l.
Proof.
  destruct l as [|a l] using rev_ind; [done|]. rewrite last_snoc. intros [= ->].
  apply elem_of_app. right. by left.
Qed.

Lemma head_is_Some {A} (l : list A) : l <> [] -> exists c, head l = Some c.
Proof. destruct l; [done|]. by eexists. Qed.

Lemma last_is_Some' {A} (l : list A) : l <> [] -> exists c, last l = Some c.
Proof. destruct l as [|a l] using rev_ind; [done|]. rewrite last_snoc. by eexists. Qed.

(** What one part of the cookie string contributes. *)
Lemma cookie_pair_ok part kv :
  cookie_pair part = Some kv ->
  cookie_ok kv /\
  forall c, c ∈ list_ascii_of_string kv.1 \/ c ∈ list_ascii_of_string kv.2 ->
            c ∈ list_ascii_of_string part.
Proof.
  unfold cookie_pair, py_contains_char, py_split_once.
  pose proof (strip_bounded py_isspace (list_ascii_of_string part)) as [Hhd Hla].
  assert (Hsub : forall c, c ∈ list_ascii_of_string (py_strip part) ->
                           c ∈ list_ascii_of_string part).
  { intros c. rewrite py_strip_list. apply strip_elem. }
  rewrite <- py_strip_list in Hhd, Hla.
  generalize dependent (list_ascii_of_string (py_strip part)). intros L Hhd Hla Hsub.
  case_bool_decide as Heq; cbn [negb]; [|done].
  destruct (span_split (fun d => negb (bool_decide (d = "="%char))) L) as (E & Hk0 & Hrest).
  destruct (span _ L) as [k0 rest]. cbn [fst snd] in *.
  assert (Hnk : "="%char ∉ k0).
  { intros Hin. rewrite Forall_forall in Hk0. apply Hk0 in Hin.
    by rewrite bool_decide_eq_true_2 in Hin. }
  destruct rest as [|e v0].
  { rewrite app_nil_r in E. by subst. }
  assert (e = "="%char) as ->.
  { specialize (Hrest e eq_refl). apply negb_false_iff in Hrest.
    by apply bool_decide_eq_true_1 in Hrest. }
  cbn [tail]. destruct k0 as [|a k0]; [done|]. destruct v0 as [|b v0] using rev_ind.
  { by cbn. }
  clear IHv0.
  assert (py_truthy_str (string_of_list_ascii (v0 ++ [b])) = true) as ->.
  { by destruct v0. }
  cbn [string_of_list_ascii py_truthy_str andb]. intros [= <-]. cbn [fst snd].
  change (String a (string_of_list_ascii k0)) with (string_of_list_ascii (a :: k0)).
  assert (Ha : py_isspace a = false) by (apply Hhd; by rewrite E).
  assert (Hb : py_isspace b = false).
  { apply Hla. rewrite E. change (a :: k0) with ([a] ++ k0).
    rewrite !app_comm_cons, !app_assoc. by rewrite last_snoc. }
  split.
  - unfold cookie_ok. cbn [fst snd]. split; [|split; [|split; [|split]]].
    + intros E0. apply (f_equal list_ascii_of_string) in E0.
      rewrite py_strip_list, list_ascii_of_string_of_list_ascii in E0.
      revert E0. apply (strip_nonempty _ _ a); [by left|done].
    + intros E0. apply (f_equal list_ascii_of_string) in E0.
      rewrite py_strip_list, list_ascii_of_string_of_list_ascii in E0.
      revert E0. apply (strip_nonempty _ _ b); [|done]. apply elem_of_app. right. by left.
    + apply py_strip_trimmed.
    + apply py_strip_trimmed.
    + rewrite py_strip_list, list_ascii_of_string_of_list_ascii. intros Hin.
      by apply strip_elem in Hin.
  - intros c Hc. apply Hsub. rewrite E.
    rewrite !py_strip_list, !list_ascii_of_string_of_list_ascii in Hc.
    destruct Hc as [Hc%strip_elem|Hc%strip_elem]; set_solver.
Qed.

Lemma list_ascii_of_string_app s1 s2 :
  list_ascii_of_string (s1 +:+ s2) = list_ascii_of_string s1 ++ list_ascii_of_string s2.
Proof.
  induction s1 as [|a s1 IH]; [done|].
  change (String a s1 +:+ s2) with (String a (s1 +:+ s2)).
  cbn [list_ascii_of_string app]. by rewrite IH.
Qed.

Lemma py_split_char_plain c s :
  c ∉ list_ascii_of_string s -> py_split_char c s = [s].
Proof.
  induction s as [|a s IH]; [done|]. cbn [list_ascii_of_string py_split_char].
  intros [Hne Hs]%not_elem_of_cons. rewrite bool_decide_eq_false_2 by congruence.
  by rewrite IH.
Qed.

Lemma py_split_char_app c s rest :
  c ∉ list_ascii_of_string s ->
  py_split_char c (s +:+ String c rest) = s :: py_split_char c rest.
Proof.
  induction s as [|a s IH]; cbn [list_ascii_of_string].
  - intros _. change (EmptyString +:+ String c rest) with (String c rest).
    cbn [py_split_char]. by rewrite bool_decide_eq_true_2.
  - intros [Hne Hs]%not_elem_of_cons.
    change (String a s +:+ String c rest) with (String a (s +:+ String c rest)).
    cbn [py_split_char]. rewrite bool_decide_eq_false_2 by congruence. by rewrite IH.
Qed.

Lemma cookie_item_plain kv :
  semicolon_free kv -> ";"%char ∉ list_ascii_of_string (cookie_item kv).
Proof.
  intros [H1 H2]. unfold cookie_item. rewrite !list_ascii_of_string_app. cbn.
  rewrite elem_of_app, elem_of_cons. intros [?|[?|?]]; done.
Qed.

(** The parts [split] cuts the header into: the first item, and every
    further item after a space. *)
Lemma cookie_header_split kv pairs :
  Forall semicolon_free (kv :: pairs) ->
  py_split_char ";" (cookie_header (kv :: pairs)) =
    cookie_item kv :: ((fun kv' => " " +:+ cookie_item kv') <$> pairs).
Proof.
  revert kv. induction pairs as [|kv' pairs IH]; intros kv Hall.
  - apply Forall_cons in Hall as [Hkv _]. unfold cookie_header, py_join. cbn.
    by apply py_split_char_plain, cookie_item_plain.
  - apply Forall_cons in Hall as [Hkv Hall].
    change (cookie_header (kv :: kv' :: pairs))
      with (cookie_item kv +:+ String ";" (" " +:+ cookie_header (kv' :: pairs))).
    rewrite py_split_char_app by (by apply cookie_item_plain).
    cbn [fmap list_fmap]. f_equal.
    change (" " +:+ cookie_header (kv' :: pairs))
      with (String " " (cookie_header (kv' :: pairs))).
    cbn [py_split_char]. rewrite bool_decide_eq_false_2 by done.
    by rewrite (IH kv' Hall).
Qed.

Lemma span_app_stop (p : ascii -> bool) l c rest :
  Forall (fun d => p d = true) l -> p c = false -> span p (l ++ c :: rest) = (l, c :: rest).
Proof.
  intros Hl Hc. induction Hl as [|a l Ha _ IH]; cbn [app span]; [by rewrite Hc|].
  by rewrite Ha, IH.
Qed.

Lemma cookie_item_bounded p kv :
  kv.1 <> EmptyString -> kv.2 <> EmptyString ->
  bounded p (list_ascii_of_string kv.1) -> bounded p (list_ascii_of_string kv.2) ->
  bounded p (list_ascii_of_string (cookie_item kv)).
Proof.
  intros Hk Hv [Hk1 _] [_ Hv2]. unfold cookie_item. rewrite !list_ascii_of_string_app.
  apply list_nonempty in Hk, Hv. split; intros c.
  - rewrite head_app_ne by done. apply Hk1.
  - rewrite last_app_ne; [|by destruct (list_ascii_of_string kv.1)].
    cbn [list_ascii_of_string app]. rewrite last_cons.
    destruct (last (list_ascii_of_string kv.2)) as [z|] eqn:Hz.
    + intros [= <-]. by apply Hv2.
    + apply last_is_Some' in Hv as [z' Hz']. congruence.
Qed.

Lemma cookie_pair_item kv :
  cookie_ok kv -> cookie_pair (cookie_item kv) = Some kv.
Proof.
  intros (Hk & Hv & Hkt & Hvt & Hne). unfold cookie_pair.
  assert (Hs : py_strip (cookie_item kv) = cookie_item kv).
  { apply trimmed_bounded. apply cookie_item_bounded; [done|done| |]; by apply trimmed_bounded. }
  rewrite Hs. unfold py_contains_char, py_split_once, cookie_item in *.
  rewrite !list_ascii_of_string_app. cbn [list_ascii_of_string app].
  rewrite bool_decide_eq_true_2 by set_solver. cbn [negb].
  rewrite span_app_stop; [|apply Forall_forall; intros d Hd|done].
  2: { apply negb_true_iff, bool_decide_eq_false_2. by intros ->. }
  cbn [tail]. rewrite !string_of_list_ascii_of_string.
  destruct kv as [k v]. cbn [fst snd] in *. unfold trimmed in *. rewrite Hkt, Hvt.
  by destruct k, v.
Qed.

Lemma cookie_pair_space s : cookie_pair (" " +:+ s) = cookie_pair s.
Proof. reflexivity. Qed.

Lemma cookie_pairs_header pairs :
  Forall cookie_ok pairs -> Forall semicolon_free pairs ->
  cookie_pairs (cookie_header pairs) = pairs.
Proof.
  intros Hok Hsf. destruct pairs as [|kv pairs]; [done|].
  unfold cookie_pairs. rewrite (cookie_header_split _ _ Hsf).
  apply Forall_cons in Hok as [Hkv Hok]. cbn [omap list_omap].
  rewrite (cookie_pair_item _ Hkv). f_equal. clear Hsf.
  induction Hok as [|kv' pairs Hkv' _ IH]; [done|]. cbn [fmap list_fmap omap list_omap].
  by rewrite cookie_pair_space, (cookie_pair_item _ Hkv'), IH.
Qed.

Lemma cookie_pairs_ok s : Forall cookie_ok (cookie_pairs s).
Proof.
  apply Forall_forall. intros kv (part & _ & Hp)%list_elem_of_omap.
  by apply cookie_pair_ok in Hp as [? _].
Qed.

Lemma bounded_absent c l : c ∉ l -> bounded (fun d => bool_decide (d = c)) l.
Proof.
  intros Hc. split; intros d Hd; apply bool_decide_eq_false_2; intros ->;
    [apply head_elem in Hd|apply last_elem in Hd]; done.
Qed.

Lemma cookie_header_cons kv kv' pairs :
  cookie_header (kv :: kv' :: pairs) =
  cookie_item kv +:+ String ";" (String " " (cookie_header (kv' :: pairs))).
Proof. reflexivity. Qed.

Lemma cookie_header_bounded p pairs :
  pairs <> [] ->
  Forall (fun kv => kv.1 <> EmptyString /\ kv.2 <> EmptyString /\
                    bounded p (list_ascii_of_string kv.1) /\
                    bounded p (list_ascii_of_string kv.2)) pairs ->
  list_ascii_of_string (cookie_header pairs) <> [] /\
  bounded p (list_ascii_of_string (cookie_header pairs)).
Proof.
  intros Hne Hall. induction Hall as [|kv pairs (Hk & Hv & Hkb & Hvb) Hall IH]; [done|].
  assert (Hitem : list_ascii_of_string (cookie_item kv) <> []).
  { unfold cookie_item. rewrite list_ascii_of_string_app.
    apply list_nonempty in Hk. by destruct (list_ascii_of_string kv.1). }
  pose proof (cookie_item_bounded p kv Hk Hv Hkb Hvb) as [Hh Hl].
  destruct pairs as [|kv' pairs]; [by split|].
  destruct IH as [IHne [_ IHl]]; [done|].
  rewrite cookie_header_cons, list_ascii_of_string_app. cbn [list_ascii_of_string].
  split; [by destruct (list_ascii_of_string (cookie_item kv))|]. split; intros c.
  - rewrite head_app_ne by done. apply Hh.
  - rewrite last_app_ne by done. rewrite !last_cons.
    destruct (last (list_ascii_of_string (cookie_header (kv' :: pairs)))) as [z|] eqn:Hz.
    + intros [= <-]. by apply IHl.
    + apply last_is_Some' in IHne as [z' Hz']. congruence.
Qed.

(** X29. The cookie file. Every cookie taken from the cookie string
    has a name and a value that are not empty and have no white space
    around them, and no [=] in the name. A path is returned only when the
    file was written, and the file then holds the three header lines and
    one line per cookie, all expiring 180 days from now. A cookie string
    that is blank once stripped of white space and semicolons removes an
    existing file unless its deletion is refused; a string that is not
    blank but yields no cookie returns nothing and leaves the file, stale
    or not, as it was. *)
Theorem ensure_cookiefile_result
    (cookie_file_path : option string) (now : Z) (cookie_locked : bool)
    (write : string -> write_outcome) (cookie : string) (file : option string) :
  let text := py_strip_char ";" (py_strip cookie) in
  let r := ensure_cookiefile cookie_file_path now cookie_locked write cookie file in
  Forall cookie_ok (cookie_pairs text) /\
  (forall path, r.1 = Some path ->
     cookie_file_path = Some path /\ cookie_pairs text <> [] /\
     r.2 = Some (py_join line_feed
                   (cookie_lines (now + 180 * 24 * 3600) (cookie_pairs text)) +:+ line_feed)) /\
  (cookie_file_path <> None -> text = EmptyString ->
   r = (None, if cookie_locked then file else None)) /\
  (text <> EmptyString -> cookie_pairs text = [] -> r = (None, file)).
Proof.
  intros text r. subst text r. unfold ensure_cookiefile.
  split; [apply cookie_pairs_ok|]. split; [|split].
  - intros path. destruct cookie_file_path as [p|]; [|done].
    destruct (py_truthy_str _); cbn [negb]; [|done].
    destruct (cookie_pairs _) as [|kv pairs] eqn:Hp; [done|].
    destruct (write _); [|done|done]. cbn [fst snd]. by intros [= ->].
  - intros Hpath ->. destruct cookie_file_path as [p|]; [|done]. cbn.
    by destruct file, cookie_locked.
  - intros Hne ->. destruct cookie_file_path as [p|]; [|done].
    by destruct (py_strip_char _ _).
Qed.

(** X30. Round trip of the header form: for cookies with non-empty,
    trimmed names and values, no [=] in a name and no semicolon anywhere,
    the string [name=value; name=value; ...] is read back as exactly those
    cookies in that order, and the file written holds one line for each
    of them. *)
Theorem cookie_header_round_trip
    (path : string) (now : Z) (cookie_locked : bool) (file : option string)
    (pairs : list (string * string)) :
  pairs <> [] -> Forall cookie_ok pairs -> Forall semicolon_free pairs ->
  cookie_pairs (cookie_header pairs) = pairs /\
  ensure_cookiefile (Some path) now cookie_locked (fun _ => Written)
    (cookie_header pairs) file =
    (Some path,
     Some (py_join line_feed (cookie_lines (now + 180 * 24 * 3600) pairs) +:+ line_feed)).
Proof.
  intros Hne Hok Hsf. split; [by apply cookie_pairs_header|]. unfold ensure_cookiefile.
  assert (Hsp : py_strip (cookie_header pairs) = cookie_header pairs).
  { apply trimmed_bounded. apply cookie_header_bounded; [done|].
    eapply Forall_impl; [exact Hok|]. intros kv (? & ? & ? & ? & _).
    repeat split; try done; by apply trimmed_bounded. }
  assert (Hsc : py_strip_char ";" (cookie_header pairs) = cookie_header pairs).
  { unfold py_strip_char. rewrite strip_fixed; [apply string_of_list_ascii_of_string|].
    apply cookie_header_bounded; [done|].
    rewrite Forall_forall in Hok, Hsf. apply Forall_forall. intros kv Hkv.
    destruct (Hok kv Hkv) as (? & ? & _). destruct (Hsf kv Hkv) as [? ?].
    repeat split; try done; by apply bounded_absent. }
  rewrite Hsp, Hsc.
  assert (py_truthy_str (cookie_header pairs) = true) as ->.
  { destruct (cookie_header_bounded py_isspace pairs Hne) as [H _].
    - eapply Forall_impl; [exact Hok|]. intros kv (? & ? & ? & ? & _).
      repeat split; try done; by apply trimmed_bounded.
    - by destruct (cookie_header pairs). }
  cbn [negb]. rewrite (cookie_pairs_header _ Hok Hsf). by destruct pairs.
Qed.

Lemma cookie_header_round_trip_witness :
  let pairs := [("SESSDATA", "abc%2C1"); ("bili_jct", "x=y")]%string in
  Forall cookie_ok pairs /\ Forall semicolon_free pairs /\
  cookie_pairs (cookie_header pairs) = pairs.
Proof.
  intros pairs.
  assert (Hok : Forall cookie_ok pairs).
  { repeat constructor; cbn; try done; set_solver. }
  assert (Hsf : Forall semicolon_free pairs).
  { repeat constructor; cbn; set_solver. }
  split; [exact Hok|]. split; [exact Hsf|].
  exact (proj1 (cookie_header_round_trip "/data/bili_cookies.txt" 0 false None pairs
                  ltac:(done) Hok Hsf)).
Defined.

Example cookie_pairs_sample :
  cookie_pairs "SESSDATA=abc%2C1; bili_jct = x=y ;junk; =v; k=;DedeUserID=7" =
    [("SESSDATA", "abc%2C1"); ("bili_jct", "x=y"); ("DedeUserID", "7")]%string.
Proof. reflexivity. Qed.

(** *** Locating the downloaded file *)

Lemma insert_newest_head x l m :
  head (insert_newest x l) = Some m ->
  m ∈ x :: l /\ (x.2 <= m.2)%Q /\ forall h, head l = Some h -> (h.2 <= m.2)%Q.
Proof.
  destruct l as [|y l]; cbn [insert_newest head].
  - intros [= <-]. split; [by left|]. split; [apply Qle_refl|done].
  - destruct (Qle_bool y.2 x.2) eqn:E; cbn [negb head]; intros [= <-].
    + split; [by left|]. split; [apply Qle_refl|]. intros h [= <-]. by apply Qle_bool_iff.
    + split; [right; by left|]. split; [|intros h [= <-]; apply Qle_refl].
      apply Qlt_le_weak, Qnot_le_lt. intros H%Qle_bool_iff. congruence.
Qed.

Lemma insert_newest_elem x l y : y ∈ insert_newest x l <-> y = x \/ y ∈ l.
Proof.
  induction l as [|z l IH]; cbn [insert_newest]; [set_solver|].
  destruct (negb _); [|set_solver]. rewrite !elem_of_cons, IH. tauto.
Qed.

Lemma sort_newest_elem l y : y ∈ sort_newest l <-> y ∈ l.
Proof.
  induction l as [|x l IH]; [done|]. unfold sort_newest in *. cbn [foldr].
  rewrite insert_newest_elem, IH. set_solver.
Qed.

Lemma insert_newest_sorted x l :
  (forall h, head l = Some h -> forall y, y ∈ l -> (y.2 <= h.2)%Q) ->
  forall m, head (insert_newest x l) = Some m ->
            forall y, y ∈ insert_newest x l -> (y.2 <= m.2)%Q.
Proof.
  intros Hl m Hm y Hy. apply insert_newest_elem in Hy.
  destruct (insert_newest_head _ _ _ Hm) as (Hin & Hx & Hh).
  destruct Hy as [->|Hy]; [done|].
  destruct l as [|h l]; [by apply elem_of_nil in Hy|].
  eapply Qle_trans; [by apply (Hl h eq_refl)|by apply Hh].
Qed.

(** The file sorted first is one of the files and none is newer. *)
Lemma sort_newest_head l m :
  head (sort_newest l) = Some m -> m ∈ l /\ forall y, y ∈ l -> (y.2 <= m.2)%Q.
Proof.
  intros Hm. split; [apply sort_newest_elem; by apply head_elem|].
  intros y Hy. apply sort_newest_elem in Hy. revert m Hm y Hy.
  induction l as [|x l IH]; [done|]. unfold sort_newest in *. cbn [foldr].
  apply insert_newest_sorted. intros h Hh y Hy. by eapply IH.
Qed.

Section LocateFacts.

Context (path_exists : pyval -> option bool) (prepare_filename : option string).
Context (splitext_root dirname : string -> string) (getcwd : option string).
Context (listdir : string -> option (list string)).
Context (join_path : string -> string -> string) (mtime : string -> option Q).

Local Abbreviation usable := (usable path_exists).
Local Abbreviation first_filepath := (first_filepath path_exists).
Local Abbreviation locate_in_lists := (locate_in_lists path_exists).
Local Abbreviation locate_in_fields := (locate_in_fields path_exists).
Local Abbreviation newest_with_id := (newest_with_id listdir join_path mtime).
Local Abbreviation locate_final_file :=
  (locate_final_file path_exists prepare_filename splitext_root dirname getcwd listdir
     join_path mtime).

Lemma usable_true fp : usable fp = Some true -> py_truthy fp = true /\ path_exists fp = Some true.
Proof. unfold usable. by destruct (py_truthy fp). Qed.

Lemma first_filepath_found arr fp :
  first_filepath arr = LocFile fp -> py_truthy fp = true /\ path_exists fp = Some true.
Proof.
  induction arr as [|it arr IH]; [done|]. cbn [first_filepath].
  destruct it as [|b|n|str|items|entries]; try done.
  destruct (usable _) as [[|]|] eqn:Hu; [|exact IH|done].
  intros [= <-]. by apply usable_true.
Qed.

Lemma locate_in_lists_found info keys fp :
  locate_in_lists info keys = LocFile fp -> py_truthy fp = true /\ path_exists fp = Some true.
Proof.
  induction keys as [|key keys IH]; [done|]. cbn [locate_in_lists].
  destruct (dict_get key info PNone) as [|b|n|str|arr|entries]; try exact IH.
  destruct (first_filepath arr) as [| |fp'] eqn:Hf; [done|exact IH|].
  intros [= <-]. by eapply first_filepath_found.
Qed.

Lemma locate_in_fields_found info keys fp :
  locate_in_fields info keys = LocFile fp -> py_truthy fp = true /\ path_exists fp = Some true.
Proof.
  induction keys as [|key keys IH]; [done|]. cbn [locate_in_fields].
  destruct (usable _) as [[|]|] eqn:Hu; [|exact IH|done].
  intros [= <-]. by apply usable_true.
Qed.

Lemma newest_with_id_found vid dirpath p :
  newest_with_id vid dirpath = Some p ->
  exists id names f q,
    vid = PStr id /\ listdir dirpath = Some names /\
    f ∈ names /\ py_contains id f = true /\ p = join_path dirpath f /\
    mtime p = Some q /\
    forall f' q', f' ∈ names -> py_contains id f' = true ->
                  mtime (join_path dirpath f') = Some q' -> (q' <= q)%Q.
Proof.
  unfold newest_with_id. destruct vid as [|b|n|id|items|entries]; try done.
  destruct (listdir dirpath) as [names|]; [|done]. cbn [mbind option_bind].
  destruct (mapM _ _) as [keyed|] eqn:Hk; [|done]. cbn [mbind option_bind].
  destruct (head (sort_newest keyed)) as [[p' q]|] eqn:Hh; [|done]. intros [= <-].
  apply sort_newest_head in Hh as [Hin Hmax]. apply mapM_Some in Hk.
  assert (Hgen : forall l k,
            Forall2 (fun x y => (q ← mtime x; Some (x, q)) = Some y) l k ->
            forall x y, (x, y) ∈ k <-> x ∈ l /\ mtime x = Some y).
  { clear. intros l k Hk. induction Hk as [|x [x' y'] l k Hx _ IH]; intros x0 y0.
    - split; [by intros ?%elem_of_nil|by intros [?%elem_of_nil _]].
    - rewrite !elem_of_cons, IH.
      destruct (mtime x) as [qx|] eqn:Hqx; [|done]. cbn in Hx. injection Hx as <- <-.
      split.
      + intros [[= -> ->]|[? ?]]; [by split; [left|]|by split; [right|]].
      + intros [[->|?] ?]; [left; congruence|by right]. }
  pose proof (Hgen _ _ Hk) as Hkeyed. clear Hgen.
  apply Hkeyed in Hin as [Hin Hq].
  apply list_elem_of_fmap in Hin as (f & -> & Hf).
  apply list_elem_of_In, filter_In in Hf as [Hf Hc]. apply list_elem_of_In in Hf.
  exists id, names, f, q. do 6 (split; [done|]).
  intros f' q' Hf' Hc' Hq'. apply (Hmax (join_path dirpath f', q')). apply Hkeyed.
  split; [|done]. apply list_elem_of_fmap. exists f'. split; [done|].
  apply list_elem_of_In, filter_In. split; [by apply list_elem_of_In|done].
Qed.

(** X17. Whatever [_locate_final_file] returns is truthy and exists as
    a path, except in its last resort: when nothing the engine reported
    exists and the predicted [.mp4] does not exist either, it returns the
    newest entry of the output directory (or of the working directory)
    whose name holds the video id, whatever kind of file that is, without
    a further check. *)
Theorem locate_final_file_result (info : pyval) (fp : pyval) :
  locate_final_file info = LocFile fp ->
  (py_truthy fp = true /\ path_exists fp = Some true) \/
  exists base dirpath id names f q,
    prepare_filename = Some base /\
    path_exists (PStr (splitext_root base +:+ ".mp4")) = Some false /\
    (dirpath = dirname base \/ (dirname base = EmptyString /\ getcwd = Some dirpath)) /\
    listdir dirpath = Some names /\
    f ∈ names /\ py_contains id f = true /\ id <> EmptyString /\
    fp = PStr (join_path dirpath f) /\
    mtime (join_path dirpath f) = Some q /\
    forall f' q', f' ∈ names -> py_contains id f' = true ->
                  mtime (join_path dirpath f') = Some q' -> (q' <= q)%Q.
Proof.
  unfold locate_final_file. destruct info as [|b|n|str|items|entries]; try done.
  destruct (locate_in_lists entries _) as [| |fp1] eqn:H1; [done| |].
  2: { intros [= <-]. left. by eapply locate_in_lists_found. }
  destruct (locate_in_fields entries _) as [| |fp2] eqn:H2; [done| |].
  2: { intros [= <-]. left. by eapply locate_in_fields_found. }
  destruct prepare_filename as [base|]; [|done].
  destruct (path_exists (PStr (splitext_root base +:+ ".mp4"))) as [[|]|] eqn:Hc; [| |done].
  { intros [= <-]. left. split; [|done]. cbn. by destruct (splitext_root base). }
  destruct (py_truthy (py_or _ _)) eqn:Hv; [|done].
  destruct (if py_truthy_str (dirname base) then Some (dirname base) else getcwd)
    as [dirpath|] eqn:Hd; [|done].
  destruct (newest_with_id _ dirpath) as [p|] eqn:Hn; [|done]. intros [= <-]. right.
  destruct (newest_with_id_found _ _ _ Hn) as (id & names & f & q & Hid & Hl & Hf & Hc' & -> & Hq & Hmax).
  exists base, dirpath, id, names, f, q. split; [done|]. split; [done|]. split.
  { destruct (dirname base) as [|c d0] eqn:Hdn; cbn in Hd; [by right|]. left. congruence. }
  do 3 (split; [done|]). split; [|done].
  intros ->. rewrite Hid in Hv. done.
Qed.

End LocateFacts.

Lemma locate_final_file_result_witness :
  let info :=
    PDict [("requested_downloads"%string,
            PList [PDict [("filepath"%string, PStr "/tmp/clip.part")];
                   PDict [("filepath"%string, PStr sample_path)]])] in
  locate_final_file sample_exists None id id None (fun _ => None) String.append
    (fun _ => None) info = LocFile (PStr sample_path) /\
  sample_exists (PStr sample_path) = Some true.
Proof.
  intros info.
  assert (H : locate_final_file sample_exists None id id None (fun _ => None) String.append
                (fun _ => None) info = LocFile (PStr sample_path)) by reflexivity.
  split; [exact H|].
  destruct (locate_final_file_result _ _ _ _ _ _ _ _ _ _ H)
    as [[_ He]|(base & _ & _ & _ & _ & _ & Hb & _)]; [exact He|discriminate Hb].
Defined.
